(** * Ntv-SSR-Demo: view-state logic of the demo components

    A shallow embedding of the component classes of the Angular SSR/CSR
    demonstration application (contact, home, products, reports and
    ssr-demo components), and the properties of their form validation,
    hydration tracking, live metrics and timers.

    Conventions.
    - A JavaScript string is the list of its UTF-16 code units.
    - [Date.now()] is an integer number of milliseconds.
    - The JavaScript numbers of the live metrics are idealised as exact
      rationals: the rounding error of double arithmetic is not modelled.
    - [window.setTimeout], [window.setInterval] and [clearInterval] act on
      an explicit timer table; the signals of a component are the fields
      of its state record. *)

From Stdlib Require Import ZArith QArith Qround Qminmax Sorted.
From stdpp Require Import gmap strings list fin_maps.

Local Open Scope Z_scope.

(* ===================================================================== *)
(** * JavaScript strings *)
(* ===================================================================== *)

Module JsString.

(** A string value: its UTF-16 code units. *)
Definition jsstring : Type := list N.

(** The code units of an ASCII literal. *)
Fixpoint js (s : string) : jsstring :=
  match s with
  | EmptyString => []
  | String a r => Ascii.N_of_ascii a :: js r
  end.

(** ECMAScript [WhiteSpace] and [LineTerminator] code points: the set
    stripped by [String.prototype.trim] and matched by [\s]. *)
Definition isWhiteSpace (c : N) : bool :=
  ((9 <=? c) && (c <=? 13)          (* TAB LF VT FF CR *)
   || (c =? 32)                     (* SPACE *)
   || (c =? 160)                    (* NO-BREAK SPACE *)
   || (c =? 5760)                   (* U+1680 *)
   || ((8192 <=? c) && (c <=? 8202))  (* U+2000 .. U+200A *)
   || (c =? 8232) || (c =? 8233)    (* U+2028, U+2029 *)
   || (c =? 8239)                   (* U+202F *)
   || (c =? 8287)                   (* U+205F *)
   || (c =? 12288)                  (* U+3000 *)
   || (c =? 65279))%N.              (* U+FEFF *)

Fixpoint trimStart (s : jsstring) : jsstring :=
  match s with
  | [] => []
  | c :: r => if isWhiteSpace c then trimStart r else s
  end.

Definition trimEnd (s : jsstring) : jsstring := rev (trimStart (rev s)).

(** [value.trim()] *)
Definition trim (s : jsstring) : jsstring := trimEnd (trimStart s).

(** ToBoolean of a string: only the empty string is falsy. *)
Definition truthy (s : jsstring) : bool :=
  match s with [] => false | _ :: _ => true end.

End JsString.

(* ===================================================================== *)
(** * The regular-expression fragment of [emailRegex] *)
(* ===================================================================== *)

Module RegExp.
Import JsString.

(** The pattern [/^ i1 i2 ... in $/] where every [ik] is a literal
    character or a one-or-more repetition of a character class. *)
Inductive item : Type :=
| Chr (c : N)              (* a literal character *)
| Plus (cls : N -> bool).  (* [cls]+ , greedy *)

(** Backtracking match of the items against the whole remaining input:
    a [Plus] takes one character of its class and then first tries to
    take more (greedy), and on failure gives way to the rest of the
    pattern; the end of the item list is the [$] anchor. *)
Fixpoint match_items (p : list item) (s : jsstring) {struct s} : bool :=
  match p, s with
  | [], [] => true
  | [], _ :: _ => false
  | _ :: _, [] => false
  | Chr c :: q, x :: r => (x =? c)%N && match_items q r
  | Plus cls :: q, x :: r => cls x && (match_items p r || match_items q r)
  end.

(** [regex.test(s)] for an anchored pattern without flags. *)
Definition test (p : list item) (s : jsstring) : bool := match_items p s.

(** The strings a pattern denotes. *)
Fixpoint denotes (p : list item) (s : jsstring) : Prop :=
  match p with
  | [] => s = []
  | Chr c :: q => exists r, s = c :: r /\ denotes q r
  | Plus cls :: q =>
      exists a r, a <> [] /\ Forall (fun x => cls x = true) a /\
                  s = a ++ r /\ denotes q r
  end.

End RegExp.

(* ===================================================================== *)
(** * The execution environment: window, clock, random numbers, timers *)
(* ===================================================================== *)

(** Where the code runs: the render pass on the server, where
    [typeof window === 'undefined'], or an interactive browser session. *)
Inductive Env : Type := Server | Browser.

Definition window_undefined (e : Env) : bool :=
  match e with Server => true | Browser => false end.

Module EventLoop.

Section World.
(** The closures handed to [setTimeout] and [setInterval]. *)
Context {C : Type}.

(** An active timer: its handle, the time at which it is due, its
    period when it is an interval, and what it runs. *)
Record timer : Type := Timer {
  handle : nat;
  due : Z;
  period : option Z;
  callback : C
}.

Record World : Type := MkWorld {
  env : Env;
  clock : Z;               (* Date.now() *)
  next_handle : nat;       (* the handle the next timer receives *)
  timers : list timer;     (* the active timers, oldest first *)
  rng : nat -> Q;          (* the values Math.random() returns, in order *)
  drawn : nat              (* how many of them were consumed *)
}.

Definition set_clock (t : Z) (w : World) : World :=
  MkWorld (env w) t (next_handle w) (timers w) (rng w) (drawn w).

Definition set_timers (ts : list timer) (w : World) : World :=
  MkWorld (env w) (clock w) (next_handle w) ts (rng w) (drawn w).

Definition Date_now (w : World) : Z := clock w.

Definition Math_random (w : World) : Q * World :=
  (rng w (drawn w),
   MkWorld (env w) (clock w) (next_handle w) (timers w) (rng w) (S (drawn w))).

Definition add_timer (p : option Z) (cb : C) (delay : Z) (w : World)
  : nat * World :=
  let h := next_handle w in
  (h, MkWorld (env w) (clock w) (S h)
        (timers w ++ [Timer h (clock w + delay) p cb]) (rng w) (drawn w)).

Definition setTimeout (cb : C) (delay : Z) (w : World) : nat * World :=
  add_timer None cb delay w.

Definition setInterval (cb : C) (delay : Z) (w : World) : nat * World :=
  add_timer (Some delay) cb delay w.

Definition has_handle (h : nat) (tm : timer) : bool := (handle tm =? h)%nat.

Definition clearInterval (h : nat) (w : World) : World :=
  set_timers (List.filter (fun tm => negb (has_handle h tm)) (timers w)) w.

(** [if (this.intervalId) clearInterval(this.intervalId)]: an unset
    field is [undefined], and the number 0 is falsy as well. *)
Definition clear_if_set (id : option nat) (w : World) : World :=
  match id with
  | Some h => if (h =? 0)%nat then w else clearInterval h w
  | None => w
  end.

(** The world a page starts in: no timer, handles counted from 1. *)
Definition boot_world (e : Env) (t0 : Z) (r : nat -> Q) : World :=
  MkWorld e t0 1 [] r 0.

(** Handles are handed out in increasing order, so the next one is
    not in use. *)
Definition handles_fresh (w : World) : Prop :=
  Forall (fun tm => (handle tm < next_handle w)%nat) (timers w).

(** The timer table when the event loop picks [tm] at time [t]: a
    timeout leaves the table, an interval is armed again. *)
Definition rearm (tm : timer) (t : Z) (ts : list timer) : list timer :=
  match period tm with
  | None => List.filter (fun x => negb (has_handle (handle tm) x)) ts
  | Some p =>
      List.map (fun x => if has_handle (handle tm) x
                         then Timer (handle tm) (t + p) (Some p) (callback tm)
                         else x) ts
  end.

(** How a method can change the timer table: it starts timers whose
    closures satisfy [ok], it clears handles that satisfy [cl], and
    the event loop arms an interval of the table again. *)
Inductive evolves (ok : C -> Prop) (cl : nat -> Prop)
  : list timer -> list timer -> Prop :=
| ev_same ts : evolves ok cl ts ts
| ev_then ts1 ts2 ts3 :
    evolves ok cl ts1 ts2 -> evolves ok cl ts2 ts3 -> evolves ok cl ts1 ts3
| ev_add ts tm : ok (callback tm) -> evolves ok cl ts (ts ++ [tm])
| ev_clear ts h :
    cl h -> evolves ok cl ts (List.filter (fun x => negb (has_handle h x)) ts)
| ev_rearm ts tm t :
    cl (handle tm) -> In tm ts -> evolves ok cl ts (rearm tm t ts).

End World.
Arguments timer : clear implicits.
Arguments World : clear implicits.

(** A component class as the framework sees it. *)
Record Component : Type := MkComponent {
  State : Type;
  Callback : Type;
  Action : Type;       (* the template's event bindings *)
  construct : World Callback -> World Callback * State;
  ngOnInit : World Callback * State -> World Callback * State;
  ngAfterViewInit : World Callback * State -> World Callback * State;
  ngOnDestroy : World Callback * State -> World Callback * State;
  run : Callback -> World Callback * State -> World Callback * State;
  act : Action -> World Callback * State -> World Callback * State
}.

Definition Config (c : Component) : Type := (World (Callback c) * State c)%type.

(** What can happen to a rendered view. *)
Inductive event (A : Type) : Type :=
| Fire (h : nat) (t : Z)    (* the event loop runs timer [h] at time [t] *)
| Elapse (t : Z)            (* time passes until [t] *)
| Do (a : A)                (* a bound template event *)
| Destroy.                  (* the framework tears the view down *)
Arguments Fire {A}.
Arguments Elapse {A}.
Arguments Do {A}.
Arguments Destroy {A}.

Section Run.
Variable c : Component.

Definition find_timer (h : nat) (w : World (Callback c))
  : option (timer (Callback c)) :=
  List.find (has_handle h) (timers w).

(** The event loop runs the timer [tm] at time [t]. *)
Definition fire (tm : timer (Callback c)) (t : Z) (cfg : Config c) : Config c :=
  let w := fst cfg in
  run c (callback tm)
    (set_timers (rearm tm t (timers w)) (set_clock t w), snd cfg).

(** One event; [None] when the event cannot happen in [cfg]: a timer
    runs only once it is due, and the clock never goes back. *)
Definition step (e : event (Action c)) (cfg : Config c) : option (Config c) :=
  match e with
  | Fire h t =>
      match find_timer h (fst cfg) with
      | Some tm =>
          if (due tm <=? t) && (clock (fst cfg) <=? t)
          then Some (fire tm t cfg) else None
      | None => None
      end
  | Elapse t =>
      if clock (fst cfg) <=? t
      then Some (set_clock t (fst cfg), snd cfg) else None
  | Do a => Some (act c a cfg)
  | Destroy => Some (ngOnDestroy c cfg)
  end.

(** The configurations a sequence of events goes through, up to the
    first event that cannot happen. *)
Fixpoint visited (evs : list (event (Action c))) (cfg : Config c)
  : list (Config c) :=
  match evs with
  | [] => []
  | e :: r =>
      match step e cfg with
      | Some cfg' => cfg' :: visited r cfg'
      | None => []
      end
  end.

Fixpoint exec (evs : list (event (Action c))) (cfg : Config c)
  : option (Config c) :=
  match evs with
  | [] => Some cfg
  | e :: r =>
      match step e cfg with
      | Some cfg' => exec r cfg'
      | None => None
      end
  end.

(** The framework creates the component, then calls [ngOnInit] (when
    the clock reads [t1]), then [ngAfterViewInit] (when it reads [t2]). *)
Definition created (w : World (Callback c)) : Config c := construct c w.
Definition initialised (w : World (Callback c)) (t1 : Z) : Config c :=
  let cfg := created w in
  ngOnInit c (set_clock t1 (fst cfg), snd cfg).
Definition attached (w : World (Callback c)) (t1 t2 : Z) : Config c :=
  let cfg := initialised w t1 in
  ngAfterViewInit c (set_clock t2 (fst cfg), snd cfg).

(** Every configuration of a view's life, in order. *)
Definition lifetime (w : World (Callback c)) (t1 t2 : Z)
    (evs : list (event (Action c))) : list (Config c) :=
  created w :: initialised w t1 :: attached w t1 t2
    :: visited evs (attached w t1 t2).

(** The timer [h] is not run by the events [evs]. *)
Definition not_fired (h : nat) (evs : list (event (Action c))) : Prop :=
  Forall (fun e => match e with Fire h' _ => h' <> h | _ => True end) evs.

End Run.

End EventLoop.

(* ===================================================================== *)
(** * The hydration signals shared by the page components *)
(* ===================================================================== *)

Module Hydration.

(** [signal<'server' | 'loading' | 'hydrated'>] *)
Inductive Phase : Type := PServer | PLoading | PHydrated.

(** The signals [isHydrated], [hydrationTime], [hydrationDuration] and
    [hydrationPhase]; [null] is [None]. *)
Record Signals : Type := MkSignals {
  isHydrated : bool;
  hydrationTime : option Z;
  hydrationDuration : option Z;
  hydrationPhase : Phase
}.

(** The field initialisers. *)
Definition initial : Signals := MkSignals false None None PServer.

Definition set_phase (p : Phase) (h : Signals) : Signals :=
  MkSignals (isHydrated h) (hydrationTime h) (hydrationDuration h) p.

(** "Set initial hydration phase based on environment": the [if] on
    [typeof window === 'undefined'] at the head of [ngOnInit]. *)
Definition set_initial_phase (e : Env) (h : Signals) : Signals :=
  if window_undefined e then set_phase PServer h else set_phase PLoading h.

(** The body of [markAsHydrated], the same in every component that has
    it, with [now = Date.now()] and [created = this.componentCreated]. *)
Definition markAsHydrated (now created : Z) (h : Signals) : Signals :=
  let duration := now - created in
  let h := MkSignals true (hydrationTime h) (hydrationDuration h) (hydrationPhase h) in
  let h := MkSignals (isHydrated h) (Some now) (hydrationDuration h) (hydrationPhase h) in
  let h := MkSignals (isHydrated h) (hydrationTime h) (Some duration) (hydrationPhase h) in
  set_phase PHydrated h.

(** The order in which the phases are meant to follow each other. *)
Definition rank (p : Phase) : nat :=
  match p with PServer => 0 | PLoading => 1 | PHydrated => 2 end.

Definition phase_le (p q : Phase) : Prop := (rank p <= rank q)%nat.

End Hydration.

(* ===================================================================== *)
(** * ContactComponent: the basic and the validated form *)
(* ===================================================================== *)

Module Contact.
Import JsString RegExp EventLoop.

(** [interface ContactForm] *)
Record ContactForm : Type := MkForm {
  name : jsstring;
  email : jsstring;
  subject : jsstring;
  message : jsstring;
  newsletter : bool
}.

(** [keyof FormErrors] *)
Inductive Field : Type := FName | FEmail | FSubject | FMessage.

#[global] Instance Field_eq_dec : EqDecision Field.
Proof. solve_decision. Defined.

Definition Field_code (f : Field) : nat :=
  match f with FName => 0 | FEmail => 1 | FSubject => 2 | FMessage => 3 end.

Definition Field_of_code (n : nat) : Field :=
  match n with 0%nat => FName | 1%nat => FEmail | 2%nat => FSubject | _ => FMessage end.

#[global] Instance Field_countable : Countable Field.
Proof.
  refine (inj_countable' Field_code Field_of_code _).
  intros []; reflexivity.
Defined.

(** [interface FormErrors], an object with at most the four keys, is a
    finite map from [Field] to the message. *)

Definition emptyForm : ContactForm := MkForm [] [] [] [] false.

Record State : Type := MkState {
  isServer : bool;
  currentTime : Z;            (* the time the string was formatted from *)
  (* the basic form *)
  formData : ContactForm;
  isSubmitting : bool;
  submitSuccess : bool;
  (* the validated form *)
  csrFormData : ContactForm;
  csrErrors : gmap Field string;
  isCSRSubmitting : bool;
  csrSubmitSuccess : bool
}.

Definition set_formData (f : ContactForm) (s : State) : State :=
  MkState (isServer s) (currentTime s) f (isSubmitting s) (submitSuccess s)
    (csrFormData s) (csrErrors s) (isCSRSubmitting s) (csrSubmitSuccess s).
Definition set_isSubmitting (b : bool) (s : State) : State :=
  MkState (isServer s) (currentTime s) (formData s) b (submitSuccess s)
    (csrFormData s) (csrErrors s) (isCSRSubmitting s) (csrSubmitSuccess s).
Definition set_submitSuccess (b : bool) (s : State) : State :=
  MkState (isServer s) (currentTime s) (formData s) (isSubmitting s) b
    (csrFormData s) (csrErrors s) (isCSRSubmitting s) (csrSubmitSuccess s).
Definition set_csrFormData (f : ContactForm) (s : State) : State :=
  MkState (isServer s) (currentTime s) (formData s) (isSubmitting s) (submitSuccess s)
    f (csrErrors s) (isCSRSubmitting s) (csrSubmitSuccess s).
Definition set_csrErrors (e : gmap Field string) (s : State) : State :=
  MkState (isServer s) (currentTime s) (formData s) (isSubmitting s) (submitSuccess s)
    (csrFormData s) e (isCSRSubmitting s) (csrSubmitSuccess s).
Definition set_isCSRSubmitting (b : bool) (s : State) : State :=
  MkState (isServer s) (currentTime s) (formData s) (isSubmitting s) (submitSuccess s)
    (csrFormData s) (csrErrors s) b (csrSubmitSuccess s).
Definition set_csrSubmitSuccess (b : bool) (s : State) : State :=
  MkState (isServer s) (currentTime s) (formData s) (isSubmitting s) (submitSuccess s)
    (csrFormData s) (csrErrors s) (isCSRSubmitting s) b.

(** The closures of the two [setTimeout] calls. *)
Inductive Callback : Type :=
| SsrSubmitted     (* in onSubmit, after 2000 ms *)
| CsrSubmitted.    (* in onCSRSubmit, after 1500 ms *)

(** The field initialisers of the class. *)
Definition construct (w : World Callback) : World Callback * State :=
  (w, MkState (window_undefined (env w)) (Date_now w)
        emptyForm false false emptyForm ∅ false false).

(** ** The basic form *)

Definition updateName (value : jsstring) (s : State) : State :=
  let data := formData s in
  set_formData (MkForm value (email data) (subject data) (message data) (newsletter data)) s.
Definition updateEmail (value : jsstring) (s : State) : State :=
  let data := formData s in
  set_formData (MkForm (name data) value (subject data) (message data) (newsletter data)) s.
Definition updateSubject (value : jsstring) (s : State) : State :=
  let data := formData s in
  set_formData (MkForm (name data) (email data) value (message data) (newsletter data)) s.
Definition updateMessage (value : jsstring) (s : State) : State :=
  let data := formData s in
  set_formData (MkForm (name data) (email data) (subject data) value (newsletter data)) s.
Definition updateNewsletter (value : bool) (s : State) : State :=
  let data := formData s in
  set_formData (MkForm (name data) (email data) (subject data) (message data) value) s.

Definition resetSSRForm (s : State) : State := set_formData emptyForm s.

(** [console.log] has no effect on the state and is left out. *)
Definition onSubmit (cfg : World Callback * State) : World Callback * State :=
  let (w, s) := cfg in
  if isServer s then
    (w, set_submitSuccess true s)
  else
    let s := set_isSubmitting true s in
    let (_, w) := setTimeout SsrSubmitted 2000 w in
    (w, s).

(** ** The validated form *)

(** [/^[^\s@]+@[^\s@]+\.[^\s@]+$/] *)
Definition not_space_at (c : N) : bool := negb (isWhiteSpace c || (c =? 64)%N).
Definition emailRegex : list item :=
  [Plus not_space_at; Chr 64; Plus not_space_at; Chr 46; Plus not_space_at].

Definition validateField (field : Field) (value : jsstring) (s : State) : State :=
  let errors := csrErrors s in
  let errors :=
    match field with
    | FName =>
        if negb (truthy (trim value)) then
          <[FName := "Name is required"]> errors
        else if (length (trim value) <? 2)%nat then
          <[FName := "Name must be at least 2 characters"]> errors
        else delete FName errors
    | FEmail =>
        if negb (truthy (trim value)) then
          <[FEmail := "Email is required"]> errors
        else if negb (test emailRegex value) then
          <[FEmail := "Please enter a valid email address"]> errors
        else delete FEmail errors
    | FSubject =>
        if negb (truthy value) then
          <[FSubject := "Please select a subject"]> errors
        else delete FSubject errors
    | FMessage =>
        if negb (truthy (trim value)) then
          <[FMessage := "Message is required"]> errors
        else if (length (trim value) <? 10)%nat then
          <[FMessage := "Message must be at least 10 characters"]> errors
        else delete FMessage errors
    end in
  set_csrErrors errors s.

Definition updateCSRName (value : jsstring) (s : State) : State :=
  let data := csrFormData s in
  let s := set_csrFormData
             (MkForm value (email data) (subject data) (message data) (newsletter data)) s in
  validateField FName value s.
Definition updateCSREmail (value : jsstring) (s : State) : State :=
  let data := csrFormData s in
  let s := set_csrFormData
             (MkForm (name data) value (subject data) (message data) (newsletter data)) s in
  validateField FEmail value s.
Definition updateCSRSubject (value : jsstring) (s : State) : State :=
  let data := csrFormData s in
  let s := set_csrFormData
             (MkForm (name data) (email data) value (message data) (newsletter data)) s in
  validateField FSubject value s.
Definition updateCSRMessage (value : jsstring) (s : State) : State :=
  let data := csrFormData s in
  let s := set_csrFormData
             (MkForm (name data) (email data) (subject data) value (newsletter data)) s in
  validateField FMessage value s.
Definition updateCSRNewsletter (value : bool) (s : State) : State :=
  let data := csrFormData s in
  set_csrFormData (MkForm (name data) (email data) (subject data) (message data) value) s.

Definition resetCSRForm (s : State) : State :=
  set_csrErrors ∅ (set_csrFormData emptyForm s).

(** The four [validateField] calls at the head of [onCSRSubmit]. *)
Definition validateAll (s : State) : State :=
  let s := validateField FName (name (csrFormData s)) s in
  let s := validateField FEmail (email (csrFormData s)) s in
  let s := validateField FSubject (subject (csrFormData s)) s in
  validateField FMessage (message (csrFormData s)) s.

Definition onCSRSubmit (cfg : World Callback * State) : World Callback * State :=
  let (w, s) := cfg in
  let s := validateAll s in
  (* Object.keys(this.csrErrors()).length > 0 *)
  if (0 <? size (csrErrors s))%nat then (w, s)
  else
    let s := set_isCSRSubmitting true s in
    let (_, w) := setTimeout CsrSubmitted 1500 w in
    (w, s).

Definition run (cb : Callback) (cfg : World Callback * State)
  : World Callback * State :=
  let (w, s) := cfg in
  match cb with
  | SsrSubmitted =>
      let s := set_isSubmitting false s in
      let s := set_submitSuccess true s in
      (w, resetSSRForm s)
  | CsrSubmitted =>
      let s := set_isCSRSubmitting false s in
      let s := set_csrSubmitSuccess true s in
      (w, resetCSRForm s)
  end.

(** The event bindings of the two forms. *)
Inductive Action : Type :=
| UpdateName (v : jsstring) | UpdateEmail (v : jsstring)
| UpdateSubject (v : jsstring) | UpdateMessage (v : jsstring)
| UpdateNewsletter (b : bool) | OnSubmit
| UpdateCSRName (v : jsstring) | UpdateCSREmail (v : jsstring)
| UpdateCSRSubject (v : jsstring) | UpdateCSRMessage (v : jsstring)
| UpdateCSRNewsletter (b : bool) | OnCSRSubmit.

Definition act (a : Action) (cfg : World Callback * State) : World Callback * State :=
  match a with
  | UpdateName v => (fst cfg, updateName v (snd cfg))
  | UpdateEmail v => (fst cfg, updateEmail v (snd cfg))
  | UpdateSubject v => (fst cfg, updateSubject v (snd cfg))
  | UpdateMessage v => (fst cfg, updateMessage v (snd cfg))
  | UpdateNewsletter b => (fst cfg, updateNewsletter b (snd cfg))
  | OnSubmit => onSubmit cfg
  | UpdateCSRName v => (fst cfg, updateCSRName v (snd cfg))
  | UpdateCSREmail v => (fst cfg, updateCSREmail v (snd cfg))
  | UpdateCSRSubject v => (fst cfg, updateCSRSubject v (snd cfg))
  | UpdateCSRMessage v => (fst cfg, updateCSRMessage v (snd cfg))
  | UpdateCSRNewsletter b => (fst cfg, updateCSRNewsletter b (snd cfg))
  | OnCSRSubmit => onCSRSubmit cfg
  end.

(** The class has no lifecycle hooks. *)
Definition component : Component :=
  MkComponent State Callback Action construct
    (fun cfg => cfg) (fun cfg => cfg) (fun cfg => cfg) run act.

(** ** The validation rules, in the words of the specification *)

Definition name_rule (v : jsstring) : Prop := (2 <= length (trim v))%nat.
Definition email_rule (v : jsstring) : Prop := test emailRegex v = true.
Definition subject_rule (v : jsstring) : Prop := v <> [].
Definition message_rule (v : jsstring) : Prop := (10 <= length (trim v))%nat.

Definition field_rule (f : Field) : jsstring -> Prop :=
  match f with
  | FName => name_rule
  | FEmail => email_rule
  | FSubject => subject_rule
  | FMessage => message_rule
  end.

Definition field_value (f : Field) (d : ContactForm) : jsstring :=
  match f with
  | FName => name d
  | FEmail => email d
  | FSubject => subject d
  | FMessage => message d
  end.

Definition all_rules (f : ContactForm) : Prop :=
  name_rule (name f) /\ email_rule (email f) /\
  subject_rule (subject f) /\ message_rule (message f).

Definition some_rule_violated (f : ContactForm) : Prop :=
  ~ name_rule (name f) \/ ~ email_rule (email f) \/
  ~ subject_rule (subject f) \/ ~ message_rule (message f).

(** ** The two sample inputs of the specification *)

Definition sample_valid : ContactForm :=
  MkForm (js "Jo") (js "a@b.co") (js "General") (js "Hello there!") false.

Definition sample_invalid : ContactForm :=
  MkForm (js "J") (js "bad") (js "") (js "short") false.

(** The view after the fields of the validated form were filled in. *)
Definition filled_in (e : Env) (d : ContactForm) : World Callback * State :=
  let cfg := construct (boot_world e 0 (fun _ => 0%Q)) in
  let cfg := act (UpdateCSRName (name d)) cfg in
  let cfg := act (UpdateCSREmail (email d)) cfg in
  let cfg := act (UpdateCSRSubject (subject d)) cfg in
  act (UpdateCSRMessage (message d)) cfg.

(** The view after the fields of the basic form were filled in. *)
Definition basic_filled_in (e : Env) (d : ContactForm) : World Callback * State :=
  let cfg := construct (boot_world e 0 (fun _ => 0%Q)) in
  let cfg := act (UpdateName (name d)) cfg in
  let cfg := act (UpdateEmail (email d)) cfg in
  let cfg := act (UpdateSubject (subject d)) cfg in
  act (UpdateMessage (message d)) cfg.

End Contact.

(* ===================================================================== *)
(** * Numbers *)
(* ===================================================================== *)

Module JsNumber.

(** [x > y] and [x < y] *)
Definition gtb (x y : Q) : bool := negb (Qle_bool x y).
Definition ltb (x y : Q) : bool := negb (Qle_bool y x).

Definition Math_max (x y : Q) : Q := Qmax x y.
Definition Math_min (x y : Q) : Q := Qmin x y.

(** [Math.floor], and [Math.round], which rounds halves upwards. *)
Definition Math_floor (x : Q) : Q := inject_Z (Qfloor x).
Definition Math_round (x : Q) : Q := inject_Z (Qfloor (x + (1 # 2))%Q).

End JsNumber.

(* ===================================================================== *)
(** * HomeComponent *)
(* ===================================================================== *)

Module Home.
Import EventLoop Hydration.

(** The signals [title] and [features] are constants and are left out. *)
Record State : Type := MkState {
  serverTime : Z;   (* the time the string was formatted from *)
  isServer : bool;
  hyd : Signals;
  componentCreated : Z
}.

Definition set_serverTime (v : Z) (s : State) : State :=
  MkState v (isServer s) (hyd s) (componentCreated s).
Definition set_hyd (v : Signals) (s : State) : State :=
  MkState (serverTime s) (isServer s) v (componentCreated s).

Inductive Callback : Type :=
| ClockTick          (* setInterval(..., 1000) in ngOnInit *)
| MarkAsHydrated.    (* setTimeout(..., 100) in ngAfterViewInit *)

(** The template binds no event to a method that changes the state. *)
Inductive Action : Type := .

Definition construct (w : World Callback) : World Callback * State :=
  (w, MkState (Date_now w) (window_undefined (env w)) initial (Date_now w)).

Definition ngOnInit (cfg : World Callback * State) : World Callback * State :=
  let (w, s) := cfg in
  let s := set_hyd (set_initial_phase (env w) (hyd s)) s in
  if negb (window_undefined (env w)) then
    let (_, w) := setInterval ClockTick 1000 w in (w, s)
  else (w, s).

Definition ngAfterViewInit (cfg : World Callback * State) : World Callback * State :=
  let (w, s) := cfg in
  if negb (window_undefined (env w)) then
    let (_, w) := setTimeout MarkAsHydrated 100 w in (w, s)
  else (w, s).

Definition markAsHydrated (cfg : World Callback * State) : World Callback * State :=
  let (w, s) := cfg in
  (w, set_hyd (Hydration.markAsHydrated (Date_now w) (componentCreated s) (hyd s)) s).

Definition run (cb : Callback) (cfg : World Callback * State)
  : World Callback * State :=
  match cb with
  | ClockTick => (fst cfg, set_serverTime (Date_now (fst cfg)) (snd cfg))
  | MarkAsHydrated => markAsHydrated cfg
  end.

Definition act (a : Action) (cfg : World Callback * State) : World Callback * State :=
  match a with end.

(** The class has no [ngOnDestroy]. *)
Definition component : Component :=
  MkComponent State Callback Action construct ngOnInit ngAfterViewInit
    (fun cfg => cfg) run act.

End Home.

(* ===================================================================== *)
(** * ReportsComponent *)
(* ===================================================================== *)

Module Reports.
Import EventLoop Hydration JsNumber.

Inductive Trend : Type := Up | Down | Stable.

(** An element of the [liveMetrics] signal. *)
Record Metric : Type := MkMetric {
  metric_name : string;
  value : Q;
  trend : Trend
}.

(** The signals [reports], [performanceMetrics], [chartData] and
    [realTimeData] hold the generated sample figures ([loadData],
    [updateRealTimeData]); they are left out, and so are the two
    methods that fill them. *)
Record State : Type := MkState {
  isServer : bool;
  currentTime : Z;
  hyd : Signals;
  loading : bool;
  activeTab : string;
  dataUpdateCount : Z;
  realTimeStatus : string;
  liveMetrics : list Metric;
  serverLoadTime : Z;
  clientLoadTime : Z;
  connectionStatus : string;
  dataStreamRate : Z;
  intervalId : option nat;
  realTimeIntervalId : option nat;
  startTime : Z;
  updateCounter : Z;
  componentCreated : Z
}.

Definition set_currentTime (v : Z) (s : State) : State :=
  MkState (isServer s) v (hyd s) (loading s) (activeTab s)
    (dataUpdateCount s) (realTimeStatus s) (liveMetrics s)
    (serverLoadTime s) (clientLoadTime s) (connectionStatus s)
    (dataStreamRate s) (intervalId s) (realTimeIntervalId s) (startTime s)
    (updateCounter s) (componentCreated s).
Definition set_hyd (v : Signals) (s : State) : State :=
  MkState (isServer s) (currentTime s) v (loading s) (activeTab s)
    (dataUpdateCount s) (realTimeStatus s) (liveMetrics s)
    (serverLoadTime s) (clientLoadTime s) (connectionStatus s)
    (dataStreamRate s) (intervalId s) (realTimeIntervalId s) (startTime s)
    (updateCounter s) (componentCreated s).
Definition set_loading (v : bool) (s : State) : State :=
  MkState (isServer s) (currentTime s) (hyd s) v (activeTab s)
    (dataUpdateCount s) (realTimeStatus s) (liveMetrics s)
    (serverLoadTime s) (clientLoadTime s) (connectionStatus s)
    (dataStreamRate s) (intervalId s) (realTimeIntervalId s) (startTime s)
    (updateCounter s) (componentCreated s).
Definition set_activeTab (v : string) (s : State) : State :=
  MkState (isServer s) (currentTime s) (hyd s) (loading s) v
    (dataUpdateCount s) (realTimeStatus s) (liveMetrics s)
    (serverLoadTime s) (clientLoadTime s) (connectionStatus s)
    (dataStreamRate s) (intervalId s) (realTimeIntervalId s) (startTime s)
    (updateCounter s) (componentCreated s).
Definition set_dataUpdateCount (v : Z) (s : State) : State :=
  MkState (isServer s) (currentTime s) (hyd s) (loading s) (activeTab s) v
    (realTimeStatus s) (liveMetrics s) (serverLoadTime s)
    (clientLoadTime s) (connectionStatus s) (dataStreamRate s)
    (intervalId s) (realTimeIntervalId s) (startTime s) (updateCounter s)
    (componentCreated s).
Definition set_realTimeStatus (v : string) (s : State) : State :=
  MkState (isServer s) (currentTime s) (hyd s) (loading s) (activeTab s)
    (dataUpdateCount s) v (liveMetrics s) (serverLoadTime s)
    (clientLoadTime s) (connectionStatus s) (dataStreamRate s)
    (intervalId s) (realTimeIntervalId s) (startTime s) (updateCounter s)
    (componentCreated s).
Definition set_liveMetrics (v : list Metric) (s : State) : State :=
  MkState (isServer s) (currentTime s) (hyd s) (loading s) (activeTab s)
    (dataUpdateCount s) (realTimeStatus s) v (serverLoadTime s)
    (clientLoadTime s) (connectionStatus s) (dataStreamRate s)
    (intervalId s) (realTimeIntervalId s) (startTime s) (updateCounter s)
    (componentCreated s).
Definition set_serverLoadTime (v : Z) (s : State) : State :=
  MkState (isServer s) (currentTime s) (hyd s) (loading s) (activeTab s)
    (dataUpdateCount s) (realTimeStatus s) (liveMetrics s) v
    (clientLoadTime s) (connectionStatus s) (dataStreamRate s)
    (intervalId s) (realTimeIntervalId s) (startTime s) (updateCounter s)
    (componentCreated s).
Definition set_clientLoadTime (v : Z) (s : State) : State :=
  MkState (isServer s) (currentTime s) (hyd s) (loading s) (activeTab s)
    (dataUpdateCount s) (realTimeStatus s) (liveMetrics s)
    (serverLoadTime s) v (connectionStatus s) (dataStreamRate s)
    (intervalId s) (realTimeIntervalId s) (startTime s) (updateCounter s)
    (componentCreated s).
Definition set_connectionStatus (v : string) (s : State) : State :=
  MkState (isServer s) (currentTime s) (hyd s) (loading s) (activeTab s)
    (dataUpdateCount s) (realTimeStatus s) (liveMetrics s)
    (serverLoadTime s) (clientLoadTime s) v (dataStreamRate s)
    (intervalId s) (realTimeIntervalId s) (startTime s) (updateCounter s)
    (componentCreated s).
Definition set_dataStreamRate (v : Z) (s : State) : State :=
  MkState (isServer s) (currentTime s) (hyd s) (loading s) (activeTab s)
    (dataUpdateCount s) (realTimeStatus s) (liveMetrics s)
    (serverLoadTime s) (clientLoadTime s) (connectionStatus s) v
    (intervalId s) (realTimeIntervalId s) (startTime s) (updateCounter s)
    (componentCreated s).
Definition set_intervalId (v : option nat) (s : State) : State :=
  MkState (isServer s) (currentTime s) (hyd s) (loading s) (activeTab s)
    (dataUpdateCount s) (realTimeStatus s) (liveMetrics s)
    (serverLoadTime s) (clientLoadTime s) (connectionStatus s)
    (dataStreamRate s) v (realTimeIntervalId s) (startTime s)
    (updateCounter s) (componentCreated s).
Definition set_realTimeIntervalId (v : option nat) (s : State) : State :=
  MkState (isServer s) (currentTime s) (hyd s) (loading s) (activeTab s)
    (dataUpdateCount s) (realTimeStatus s) (liveMetrics s)
    (serverLoadTime s) (clientLoadTime s) (connectionStatus s)
    (dataStreamRate s) (intervalId s) v (startTime s) (updateCounter s)
    (componentCreated s).
Definition set_startTime (v : Z) (s : State) : State :=
  MkState (isServer s) (currentTime s) (hyd s) (loading s) (activeTab s)
    (dataUpdateCount s) (realTimeStatus s) (liveMetrics s)
    (serverLoadTime s) (clientLoadTime s) (connectionStatus s)
    (dataStreamRate s) (intervalId s) (realTimeIntervalId s) v
    (updateCounter s) (componentCreated s).
Definition set_updateCounter (v : Z) (s : State) : State :=
  MkState (isServer s) (currentTime s) (hyd s) (loading s) (activeTab s)
    (dataUpdateCount s) (realTimeStatus s) (liveMetrics s)
    (serverLoadTime s) (clientLoadTime s) (connectionStatus s)
    (dataStreamRate s) (intervalId s) (realTimeIntervalId s) (startTime s)
    v (componentCreated s).

Inductive Callback : Type :=
| DataLoaded        (* setTimeout(..., 800) in loadInitialData *)
| DashboardTick     (* this.intervalId, every 2000 ms *)
| LiveTick          (* this.realTimeIntervalId, every 500 ms *)
| ConnectionTick    (* the unnamed interval, every 10000 ms *)
| MarkAsHydrated    (* setTimeout(..., 100) in ngAfterViewInit *)
| Refreshed.        (* setTimeout(..., 500) in refreshData *)

Inductive Action : Type :=
| SetActiveTab (tab : string)
| RefreshData.

Definition construct (w : World Callback) : World Callback * State :=
  (w, MkState (window_undefined (env w)) (Date_now w) initial
        true "overview" 0 "Inactive" []
        0 0 "Connected" 0
        None None (Date_now w) 0 (Date_now w)).

Definition loadInitialData (cfg : World Callback * State) : World Callback * State :=
  let (w, s) := cfg in
  let loadTime := Date_now w - startTime s in
  if negb (window_undefined (env w)) then
    let s := set_clientLoadTime loadTime s in
    let (_, w) := setTimeout DataLoaded 800 w in
    (w, s)
  else
    let s := set_serverLoadTime loadTime s in
    (w, set_loading false s).

Definition ngOnInit (cfg : World Callback * State) : World Callback * State :=
  let (w, s) := cfg in
  let s := set_startTime (Date_now w) s in
  let (w, s) := loadInitialData (w, s) in
  let s := set_hyd (set_initial_phase (env w) (hyd s)) s in
  if negb (window_undefined (env w)) then
    let (h1, w) := setInterval DashboardTick 2000 w in
    let s := set_intervalId (Some h1) s in
    let (h2, w) := setInterval LiveTick 500 w in
    let s := set_realTimeIntervalId (Some h2) s in
    let (_, w) := setInterval ConnectionTick 10000 w in
    (w, s)
  else (w, s).

Definition ngAfterViewInit (cfg : World Callback * State) : World Callback * State :=
  let (w, s) := cfg in
  if negb (window_undefined (env w)) then
    let (_, w) := setTimeout MarkAsHydrated 100 w in (w, s)
  else (w, s).

Definition ngOnDestroy (cfg : World Callback * State) : World Callback * State :=
  let (w, s) := cfg in
  let w := clear_if_set (intervalId s) w in
  let w := clear_if_set (realTimeIntervalId s) w in
  (w, s).

Definition markAsHydrated (cfg : World Callback * State) : World Callback * State :=
  let (w, s) := cfg in
  (w, set_hyd (Hydration.markAsHydrated (Date_now w) (componentCreated s) (hyd s)) s).

Definition initialMetrics : list Metric :=
  [ MkMetric "CPU Usage" 45%Q Stable;
    MkMetric "Memory Usage" 62%Q Up;
    MkMetric "Network Latency" 28%Q Down;
    MkMetric "Active Users" 1234%Q Up;
    MkMetric "Requests/sec" 156%Q Up;
    MkMetric "Error Rate" (2 # 10)%Q Stable ].

Definition initializeLiveMetrics (s : State) : State :=
  set_liveMetrics initialMetrics s.

(** The arrow function mapped over the metrics, given the value [rnd]
    its call of [Math.random()] returns. *)
Definition updateMetric (rnd : Q) (metric : Metric) : Metric :=
  let change := ((rnd - (1 # 2)) * 10)%Q in
  let newValue := Math_max 0 (Math_min 100 (value metric + change))%Q in
  let trend :=
    if gtb change 2 then Up
    else if ltb change (- (2)) then Down
    else Stable in
  MkMetric (metric_name metric) (Math_round (newValue * 10) / 10)%Q trend.

(** [currentMetrics.map(...)]: one call of [Math.random()] per metric,
    in the order of the list. *)
Fixpoint mapMetrics (ms : list Metric) (w : World Callback)
  : list Metric * World Callback :=
  match ms with
  | [] => ([], w)
  | m :: r =>
      let (rnd, w) := Math_random w in
      let m' := updateMetric rnd m in
      let (r', w) := mapMetrics r w in
      (m' :: r', w)
  end.

Definition updateLiveMetrics (cfg : World Callback * State) : World Callback * State :=
  let (w, s) := cfg in
  let currentMetrics := liveMetrics s in
  let (updatedMetrics, w) := mapMetrics currentMetrics w in
  (w, set_liveMetrics updatedMetrics s).

Definition setActiveTab (tab : string) (s : State) : State := set_activeTab tab s.

Definition refreshData (cfg : World Callback * State) : World Callback * State :=
  let (w, s) := cfg in
  let s := set_loading true s in
  let s := set_startTime (Date_now w) s in
  let (_, w) := setTimeout Refreshed 500 w in
  (w, s).

Definition run (cb : Callback) (cfg : World Callback * State)
  : World Callback * State :=
  match cb with
  | DataLoaded =>
      let (w, s) := cfg in
      let s := set_loading false s in
      (w, initializeLiveMetrics s)
  | DashboardTick =>
      let (w, s) := cfg in
      let s := set_currentTime (Date_now w) s in
      let s := set_dataUpdateCount (dataUpdateCount s + 1) s in
      (w, set_updateCounter (updateCounter s + 1) s)
  | LiveTick =>
      let (w, s) := updateLiveMetrics cfg in
      let s := set_dataStreamRate (dataStreamRate s + 1) s in
      (w, set_realTimeStatus "Active" s)
  | ConnectionTick =>
      let (w, s) := cfg in
      let (rnd, w) := Math_random w in
      (w, set_connectionStatus
            (if gtb rnd (95 # 100) then "Reconnecting..." else "Connected") s)
  | MarkAsHydrated => markAsHydrated cfg
  | Refreshed =>
      let (w, s) := cfg in
      (w, set_loading false s)
  end.

Definition act (a : Action) (cfg : World Callback * State) : World Callback * State :=
  match a with
  | SetActiveTab tab => (fst cfg, setActiveTab tab (snd cfg))
  | RefreshData => refreshData cfg
  end.

Definition component : Component :=
  MkComponent State Callback Action construct ngOnInit ngAfterViewInit
    ngOnDestroy run act.

End Reports.

(* ===================================================================== *)
(** * ProductsComponent *)
(* ===================================================================== *)

Module Products.
Import EventLoop Hydration JsNumber.

(** [interface Product], without the fields that are only displayed
    ([name], [description], [image], [originalPrice], [lastUpdated]). *)
Record Product : Type := MkProduct {
  id : Z;
  price : Q;
  category : string;
  inStock : bool;
  discount : option Q;
  rating : option Q;
  reviewCount : option Q
}.

(** [interface LiveData] *)
Record LiveData : Type := MkLive {
  stockCount : Q;
  currentPrice : Q;
  liveDiscount : Q;
  liveRating : Q;
  liveReviewCount : Q
}.

Inductive ViewMode : Type := Grid | ListView.
Inductive SortKey : Type := ByName | ByPrice | ByRating.

(** The signal [categories] is a constant and is left out. *)
Record State : Type := MkState {
  products : list Product;
  loading : bool;
  selectedCategory : string;
  isServer : bool;
  renderTime : Z;
  liveData : list (Z * LiveData);
  cartCount : Z;
  wishlistCount : Z;
  realTimeStatus : string;
  connectionStatus : string;
  updateCount : Z;
  hyd : Signals;
  viewMode : ViewMode;
  sortBy : SortKey;
  showOnlyInStock : bool;
  intervalId : option nat;
  liveDataIntervalId : option nat;
  componentCreated : Z
}.

Definition set_products (v : list Product) (s : State) : State :=
  MkState v (loading s) (selectedCategory s) (isServer s) (renderTime s)
    (liveData s) (cartCount s) (wishlistCount s) (realTimeStatus s)
    (connectionStatus s) (updateCount s) (hyd s) (viewMode s) (sortBy s)
    (showOnlyInStock s) (intervalId s) (liveDataIntervalId s)
    (componentCreated s).
Definition set_loading (v : bool) (s : State) : State :=
  MkState (products s) v (selectedCategory s) (isServer s) (renderTime s)
    (liveData s) (cartCount s) (wishlistCount s) (realTimeStatus s)
    (connectionStatus s) (updateCount s) (hyd s) (viewMode s) (sortBy s)
    (showOnlyInStock s) (intervalId s) (liveDataIntervalId s)
    (componentCreated s).
Definition set_selectedCategory (v : string) (s : State) : State :=
  MkState (products s) (loading s) v (isServer s) (renderTime s)
    (liveData s) (cartCount s) (wishlistCount s) (realTimeStatus s)
    (connectionStatus s) (updateCount s) (hyd s) (viewMode s) (sortBy s)
    (showOnlyInStock s) (intervalId s) (liveDataIntervalId s)
    (componentCreated s).
Definition set_renderTime (v : Z) (s : State) : State :=
  MkState (products s) (loading s) (selectedCategory s) (isServer s) v
    (liveData s) (cartCount s) (wishlistCount s) (realTimeStatus s)
    (connectionStatus s) (updateCount s) (hyd s) (viewMode s) (sortBy s)
    (showOnlyInStock s) (intervalId s) (liveDataIntervalId s)
    (componentCreated s).
Definition set_liveData (v : list (Z * LiveData)) (s : State) : State :=
  MkState (products s) (loading s) (selectedCategory s) (isServer s)
    (renderTime s) v (cartCount s) (wishlistCount s) (realTimeStatus s)
    (connectionStatus s) (updateCount s) (hyd s) (viewMode s) (sortBy s)
    (showOnlyInStock s) (intervalId s) (liveDataIntervalId s)
    (componentCreated s).
Definition set_cartCount (v : Z) (s : State) : State :=
  MkState (products s) (loading s) (selectedCategory s) (isServer s)
    (renderTime s) (liveData s) v (wishlistCount s) (realTimeStatus s)
    (connectionStatus s) (updateCount s) (hyd s) (viewMode s) (sortBy s)
    (showOnlyInStock s) (intervalId s) (liveDataIntervalId s)
    (componentCreated s).
Definition set_wishlistCount (v : Z) (s : State) : State :=
  MkState (products s) (loading s) (selectedCategory s) (isServer s)
    (renderTime s) (liveData s) (cartCount s) v (realTimeStatus s)
    (connectionStatus s) (updateCount s) (hyd s) (viewMode s) (sortBy s)
    (showOnlyInStock s) (intervalId s) (liveDataIntervalId s)
    (componentCreated s).
Definition set_realTimeStatus (v : string) (s : State) : State :=
  MkState (products s) (loading s) (selectedCategory s) (isServer s)
    (renderTime s) (liveData s) (cartCount s) (wishlistCount s) v
    (connectionStatus s) (updateCount s) (hyd s) (viewMode s) (sortBy s)
    (showOnlyInStock s) (intervalId s) (liveDataIntervalId s)
    (componentCreated s).
Definition set_connectionStatus (v : string) (s : State) : State :=
  MkState (products s) (loading s) (selectedCategory s) (isServer s)
    (renderTime s) (liveData s) (cartCount s) (wishlistCount s)
    (realTimeStatus s) v (updateCount s) (hyd s) (viewMode s) (sortBy s)
    (showOnlyInStock s) (intervalId s) (liveDataIntervalId s)
    (componentCreated s).
Definition set_updateCount (v : Z) (s : State) : State :=
  MkState (products s) (loading s) (selectedCategory s) (isServer s)
    (renderTime s) (liveData s) (cartCount s) (wishlistCount s)
    (realTimeStatus s) (connectionStatus s) v (hyd s) (viewMode s)
    (sortBy s) (showOnlyInStock s) (intervalId s) (liveDataIntervalId s)
    (componentCreated s).
Definition set_hyd (v : Signals) (s : State) : State :=
  MkState (products s) (loading s) (selectedCategory s) (isServer s)
    (renderTime s) (liveData s) (cartCount s) (wishlistCount s)
    (realTimeStatus s) (connectionStatus s) (updateCount s) v (viewMode s)
    (sortBy s) (showOnlyInStock s) (intervalId s) (liveDataIntervalId s)
    (componentCreated s).
Definition set_viewMode (v : ViewMode) (s : State) : State :=
  MkState (products s) (loading s) (selectedCategory s) (isServer s)
    (renderTime s) (liveData s) (cartCount s) (wishlistCount s)
    (realTimeStatus s) (connectionStatus s) (updateCount s) (hyd s) v
    (sortBy s) (showOnlyInStock s) (intervalId s) (liveDataIntervalId s)
    (componentCreated s).
Definition set_sortBy (v : SortKey) (s : State) : State :=
  MkState (products s) (loading s) (selectedCategory s) (isServer s)
    (renderTime s) (liveData s) (cartCount s) (wishlistCount s)
    (realTimeStatus s) (connectionStatus s) (updateCount s) (hyd s)
    (viewMode s) v (showOnlyInStock s) (intervalId s)
    (liveDataIntervalId s) (componentCreated s).
Definition set_showOnlyInStock (v : bool) (s : State) : State :=
  MkState (products s) (loading s) (selectedCategory s) (isServer s)
    (renderTime s) (liveData s) (cartCount s) (wishlistCount s)
    (realTimeStatus s) (connectionStatus s) (updateCount s) (hyd s)
    (viewMode s) (sortBy s) v (intervalId s) (liveDataIntervalId s)
    (componentCreated s).
Definition set_intervalId (v : option nat) (s : State) : State :=
  MkState (products s) (loading s) (selectedCategory s) (isServer s)
    (renderTime s) (liveData s) (cartCount s) (wishlistCount s)
    (realTimeStatus s) (connectionStatus s) (updateCount s) (hyd s)
    (viewMode s) (sortBy s) (showOnlyInStock s) v (liveDataIntervalId s)
    (componentCreated s).
Definition set_liveDataIntervalId (v : option nat) (s : State) : State :=
  MkState (products s) (loading s) (selectedCategory s) (isServer s)
    (renderTime s) (liveData s) (cartCount s) (wishlistCount s)
    (realTimeStatus s) (connectionStatus s) (updateCount s) (hyd s)
    (viewMode s) (sortBy s) (showOnlyInStock s) (intervalId s) v
    (componentCreated s).

Inductive Callback : Type :=
| ProductsLoaded    (* setTimeout(..., 800) in loadProducts *)
| RenderTick        (* this.intervalId, every 1000 ms *)
| LiveDataTick      (* this.liveDataIntervalId, every 3000 ms *)
| ConnectionTick    (* the unnamed interval of startRealTimeUpdates, 15000 ms *)
| UserActivity      (* the interval of simulateUserActivity, 10000 ms *)
| MarkAsHydrated.   (* setTimeout(..., 100) in ngAfterViewInit *)

Inductive Action : Type :=
| FilterByCategory (c : string)
| SetViewMode (m : ViewMode)
| SetSortBy (k : SortKey)
| ToggleStockFilter
| AddToCart (productId : Z)
| AddToWishlist (productId : Z).

Definition construct (w : World Callback) : World Callback * State :=
  (w, MkState [] true "all" (window_undefined (env w))
        (Date_now w) [] 0 0
        "Inactive" "Connected" 0 initial
        Grid ByName false
        None None (Date_now w)).

Definition mockProducts : list Product :=
  [ MkProduct 1 (2999 # 100) "books" true (Some 25%Q) (Some (48 # 10)%Q) (Some 156%Q);
    MkProduct 2 (9999 # 100) "electronics" true (Some 23%Q) (Some (49 # 10)%Q) (Some 89%Q);
    MkProduct 3 (2499 # 100) "clothing" false (Some 17%Q) (Some (46 # 10)%Q) (Some 234%Q);
    MkProduct 4 (14999 # 100) "electronics" false (Some 25%Q) (Some (47 # 10)%Q) (Some 67%Q);
    MkProduct 5 (3999 # 100) "clothing" true (Some 20%Q) (Some (45 # 10)%Q) (Some 123%Q);
    MkProduct 6 (1999 # 100) "books" false (Some 20%Q) (Some (44 # 10)%Q) (Some 189%Q) ].

Definition loadProducts (cfg : World Callback * State) : World Callback * State :=
  let (w, s) := cfg in
  if negb (window_undefined (env w)) then
    let (_, w) := setTimeout ProductsLoaded 800 w in (w, s)
  else
    let s := set_products mockProducts s in
    (w, set_loading false s).

(** [x || d] on an optional number: [undefined] and 0 are falsy. *)
Definition or_default (x : option Q) (d : Q) : Q :=
  match x with
  | Some q => if Qeq_bool q 0 then d else q
  | None => d
  end.

(** [Map.prototype.set]: an existing key keeps its place. *)
Fixpoint map_set (k : Z) (v : LiveData) (m : list (Z * LiveData))
  : list (Z * LiveData) :=
  match m with
  | [] => [(k, v)]
  | (k', v') :: r => if k' =? k then (k, v) :: r else (k', v') :: map_set k v r
  end.

(** The [forEach] of [initializeLiveData], over the products left. *)
Fixpoint initialEntries (ps : list Product) (m : list (Z * LiveData))
    (w : World Callback) : list (Z * LiveData) * World Callback :=
  match ps with
  | [] => (m, w)
  | product :: r =>
      let (rnd, w) := Math_random w in
      let m := map_set (id product)
                 (MkLive (Math_floor (rnd * 50) + 10)%Q
                         (price product)
                         (or_default (discount product) 0)
                         (or_default (rating product) 4)
                         (or_default (reviewCount product) 100)) m in
      initialEntries r m w
  end.

Definition initializeLiveData (cfg : World Callback * State) : World Callback * State :=
  let (w, s) := cfg in
  let (initialLiveData, w) := initialEntries (products s) [] w in
  (w, set_liveData initialLiveData s).

Definition startRealTimeUpdates (cfg : World Callback * State)
  : World Callback * State :=
  let (w, s) := cfg in
  let (h1, w) := setInterval RenderTick 1000 w in
  let s := set_intervalId (Some h1) s in
  let (h2, w) := setInterval LiveDataTick 3000 w in
  let s := set_liveDataIntervalId (Some h2) s in
  let (_, w) := setInterval ConnectionTick 15000 w in
  (w, s).

Definition simulateUserActivity (cfg : World Callback * State)
  : World Callback * State :=
  let (w, s) := cfg in
  let (_, w) := setInterval UserActivity 10000 w in
  (w, s).

Definition ngOnInit (cfg : World Callback * State) : World Callback * State :=
  let (w, s) := loadProducts cfg in
  let s := set_hyd (set_initial_phase (env w) (hyd s)) s in
  if negb (window_undefined (env w)) then
    simulateUserActivity (startRealTimeUpdates (initializeLiveData (w, s)))
  else (w, s).

Definition ngAfterViewInit (cfg : World Callback * State) : World Callback * State :=
  let (w, s) := cfg in
  if negb (window_undefined (env w)) then
    let (_, w) := setTimeout MarkAsHydrated 100 w in (w, s)
  else (w, s).

Definition ngOnDestroy (cfg : World Callback * State) : World Callback * State :=
  let (w, s) := cfg in
  let w := clear_if_set (intervalId s) w in
  let w := clear_if_set (liveDataIntervalId s) w in
  (w, s).

Definition markAsHydrated (cfg : World Callback * State) : World Callback * State :=
  let (w, s) := cfg in
  (w, set_hyd (Hydration.markAsHydrated (Date_now w) (componentCreated s) (hyd s)) s).

(** The [forEach] of [updateLiveData] over the entries of the copied
    map: five calls of [Math.random()] per entry, and a [set] on the
    key being visited, which replaces the value in place. *)
Fixpoint updateEntries (m : list (Z * LiveData)) (w : World Callback)
  : list (Z * LiveData) * World Callback :=
  match m with
  | [] => ([], w)
  | (productId, data) :: r =>
      let (r1, w) := Math_random w in
      let stockChange := ((r1 - (1 # 2)) * 5)%Q in
      let (r2, w) := Math_random w in
      let priceChange := ((r2 - (1 # 2)) * 2)%Q in
      let (r3, w) := Math_random w in
      let ratingChange := ((r3 - (1 # 2)) * (2 # 10))%Q in
      let (r4, w) := Math_random w in
      let (r5, w) := Math_random w in
      let data' :=
        MkLive (Math_max 0 (Math_floor (stockCount data + stockChange)))
               (Math_max 0 (currentPrice data + priceChange))
               (Math_max 0 (Math_min 50 (liveDiscount data + (r4 - (1 # 2)) * 5)))
               (Math_max 1 (Math_min 5 (liveRating data + ratingChange)))
               (liveReviewCount data + Math_floor (r5 * 3))%Q in
      let (r', w) := updateEntries r w in
      ((productId, data') :: r', w)
  end.

Definition updateLiveData (cfg : World Callback * State) : World Callback * State :=
  let (w, s) := cfg in
  let (updatedData, w) := updateEntries (liveData s) w in
  (w, set_liveData updatedData s).

Definition run (cb : Callback) (cfg : World Callback * State)
  : World Callback * State :=
  match cb with
  | ProductsLoaded =>
      let (w, s) := cfg in
      let s := set_products mockProducts s in
      (w, set_loading false s)
  | RenderTick =>
      let (w, s) := cfg in
      (w, set_renderTime (Date_now w) s)
  | LiveDataTick =>
      let (w, s) := updateLiveData cfg in
      let s := set_updateCount (updateCount s + 1) s in
      (w, set_realTimeStatus "Active" s)
  | ConnectionTick =>
      let (w, s) := cfg in
      let (rnd, w) := Math_random w in
      (w, set_connectionStatus
            (if gtb rnd (95 # 100) then "Reconnecting..." else "Connected") s)
  | UserActivity =>
      let (w, s) := cfg in
      let (r1, w) := Math_random w in
      let s := if gtb r1 (7 # 10) then set_cartCount (cartCount s + 1) s else s in
      let (r2, w) := Math_random w in
      let s := if gtb r2 (8 # 10) then set_wishlistCount (wishlistCount s + 1) s else s in
      (w, s)
  | MarkAsHydrated => markAsHydrated cfg
  end.

Definition act (a : Action) (cfg : World Callback * State) : World Callback * State :=
  let (w, s) := cfg in
  match a with
  | FilterByCategory c => (w, set_selectedCategory c s)
  | SetViewMode m => (w, set_viewMode m s)
  | SetSortBy k => (w, set_sortBy k s)
  | ToggleStockFilter => (w, set_showOnlyInStock (negb (showOnlyInStock s)) s)
  | AddToCart _ => (w, set_cartCount (cartCount s + 1) s)
  | AddToWishlist _ => (w, set_wishlistCount (wishlistCount s + 1) s)
  end.

Definition component : Component :=
  MkComponent State Callback Action construct ngOnInit ngAfterViewInit
    ngOnDestroy run act.

End Products.

(* ===================================================================== *)
(** * SsrDemoComponent *)
(* ===================================================================== *)

Module SsrDemo.
Import EventLoop Hydration JsNumber.

(** [interface AnimationState] *)
Record AnimationState : Type := MkAnimation {
  anim_id : string;
  isActive : bool;
  duration : Z;
  delay : Z
}.

Inductive ErrorType : Type := Network | ServerError | ClientError | NoError.

(** [interface ErrorState] *)
Record ErrorState : Type := MkError {
  hasError : bool;
  errorMessage : string;
  errorType : ErrorType;
  retryCount : Z
}.

(** The score signals and the chart options are constants, and
    [graphData] is whatever the route resolver delivered; they are left
    out. *)
Record State : Type := MkState {
  isServer : bool;
  isBrowser : bool;
  hyd : Signals;
  serverRenderTime : Z;
  clientHydrationTime : Z;
  totalLoadTime : Z;
  animationStates : list AnimationState;
  hasApex : bool;
  errorState : ErrorState;
  isLoading : bool;
  loadingProgress : Q;
  loadingMessage : string;
  activeTab : string;
  showAnimations : bool;
  showGraphs : bool;
  showErrors : bool;
  componentCreated : Z;
  progress : Q   (* the variable [progress] of simulateLoading *)
}.

Definition set_hyd (v : Signals) (s : State) : State :=
  MkState (isServer s) (isBrowser s) v (serverRenderTime s)
    (clientHydrationTime s) (totalLoadTime s) (animationStates s)
    (hasApex s) (errorState s) (isLoading s) (loadingProgress s)
    (loadingMessage s) (activeTab s) (showAnimations s) (showGraphs s)
    (showErrors s) (componentCreated s) (progress s).
Definition set_serverRenderTime (v : Z) (s : State) : State :=
  MkState (isServer s) (isBrowser s) (hyd s) v (clientHydrationTime s)
    (totalLoadTime s) (animationStates s) (hasApex s) (errorState s)
    (isLoading s) (loadingProgress s) (loadingMessage s) (activeTab s)
    (showAnimations s) (showGraphs s) (showErrors s) (componentCreated s)
    (progress s).
Definition set_clientHydrationTime (v : Z) (s : State) : State :=
  MkState (isServer s) (isBrowser s) (hyd s) (serverRenderTime s) v
    (totalLoadTime s) (animationStates s) (hasApex s) (errorState s)
    (isLoading s) (loadingProgress s) (loadingMessage s) (activeTab s)
    (showAnimations s) (showGraphs s) (showErrors s) (componentCreated s)
    (progress s).
Definition set_totalLoadTime (v : Z) (s : State) : State :=
  MkState (isServer s) (isBrowser s) (hyd s) (serverRenderTime s)
    (clientHydrationTime s) v (animationStates s) (hasApex s)
    (errorState s) (isLoading s) (loadingProgress s) (loadingMessage s)
    (activeTab s) (showAnimations s) (showGraphs s) (showErrors s)
    (componentCreated s) (progress s).
Definition set_animationStates (v : list AnimationState) (s : State) : State :=
  MkState (isServer s) (isBrowser s) (hyd s) (serverRenderTime s)
    (clientHydrationTime s) (totalLoadTime s) v (hasApex s) (errorState s)
    (isLoading s) (loadingProgress s) (loadingMessage s) (activeTab s)
    (showAnimations s) (showGraphs s) (showErrors s) (componentCreated s)
    (progress s).
Definition set_hasApex (v : bool) (s : State) : State :=
  MkState (isServer s) (isBrowser s) (hyd s) (serverRenderTime s)
    (clientHydrationTime s) (totalLoadTime s) (animationStates s) v
    (errorState s) (isLoading s) (loadingProgress s) (loadingMessage s)
    (activeTab s) (showAnimations s) (showGraphs s) (showErrors s)
    (componentCreated s) (progress s).
Definition set_errorState (v : ErrorState) (s : State) : State :=
  MkState (isServer s) (isBrowser s) (hyd s) (serverRenderTime s)
    (clientHydrationTime s) (totalLoadTime s) (animationStates s)
    (hasApex s) v (isLoading s) (loadingProgress s) (loadingMessage s)
    (activeTab s) (showAnimations s) (showGraphs s) (showErrors s)
    (componentCreated s) (progress s).
Definition set_isLoading (v : bool) (s : State) : State :=
  MkState (isServer s) (isBrowser s) (hyd s) (serverRenderTime s)
    (clientHydrationTime s) (totalLoadTime s) (animationStates s)
    (hasApex s) (errorState s) v (loadingProgress s) (loadingMessage s)
    (activeTab s) (showAnimations s) (showGraphs s) (showErrors s)
    (componentCreated s) (progress s).
Definition set_loadingProgress (v : Q) (s : State) : State :=
  MkState (isServer s) (isBrowser s) (hyd s) (serverRenderTime s)
    (clientHydrationTime s) (totalLoadTime s) (animationStates s)
    (hasApex s) (errorState s) (isLoading s) v (loadingMessage s)
    (activeTab s) (showAnimations s) (showGraphs s) (showErrors s)
    (componentCreated s) (progress s).
Definition set_loadingMessage (v : string) (s : State) : State :=
  MkState (isServer s) (isBrowser s) (hyd s) (serverRenderTime s)
    (clientHydrationTime s) (totalLoadTime s) (animationStates s)
    (hasApex s) (errorState s) (isLoading s) (loadingProgress s) v
    (activeTab s) (showAnimations s) (showGraphs s) (showErrors s)
    (componentCreated s) (progress s).
Definition set_activeTab (v : string) (s : State) : State :=
  MkState (isServer s) (isBrowser s) (hyd s) (serverRenderTime s)
    (clientHydrationTime s) (totalLoadTime s) (animationStates s)
    (hasApex s) (errorState s) (isLoading s) (loadingProgress s)
    (loadingMessage s) v (showAnimations s) (showGraphs s) (showErrors s)
    (componentCreated s) (progress s).
Definition set_showAnimations (v : bool) (s : State) : State :=
  MkState (isServer s) (isBrowser s) (hyd s) (serverRenderTime s)
    (clientHydrationTime s) (totalLoadTime s) (animationStates s)
    (hasApex s) (errorState s) (isLoading s) (loadingProgress s)
    (loadingMessage s) (activeTab s) v (showGraphs s) (showErrors s)
    (componentCreated s) (progress s).
Definition set_showGraphs (v : bool) (s : State) : State :=
  MkState (isServer s) (isBrowser s) (hyd s) (serverRenderTime s)
    (clientHydrationTime s) (totalLoadTime s) (animationStates s)
    (hasApex s) (errorState s) (isLoading s) (loadingProgress s)
    (loadingMessage s) (activeTab s) (showAnimations s) v (showErrors s)
    (componentCreated s) (progress s).
Definition set_showErrors (v : bool) (s : State) : State :=
  MkState (isServer s) (isBrowser s) (hyd s) (serverRenderTime s)
    (clientHydrationTime s) (totalLoadTime s) (animationStates s)
    (hasApex s) (errorState s) (isLoading s) (loadingProgress s)
    (loadingMessage s) (activeTab s) (showAnimations s) (showGraphs s) v
    (componentCreated s) (progress s).
Definition set_progress (v : Q) (s : State) : State :=
  MkState (isServer s) (isBrowser s) (hyd s) (serverRenderTime s)
    (clientHydrationTime s) (totalLoadTime s) (animationStates s)
    (hasApex s) (errorState s) (isLoading s) (loadingProgress s)
    (loadingMessage s) (activeTab s) (showAnimations s) (showGraphs s)
    (showErrors s) (componentCreated s) v.

Inductive Callback : Type :=
| LoadingTick (interval : nat)   (* simulateLoading, every 100 ms *)
| ServerRendered (startTime : Z) (* simulateServerRendering, 300 ms *)
| ClientHydrated (startTime : Z) (* simulateClientHydration, 500 ms *)
| AnimationsOn (animations : list AnimationState)
                                 (* the timeout inside activateAnimations *)
| MaybeError                     (* setupErrorHandling, 2000 ms *)
| MarkAsHydrated                 (* ngAfterViewInit, 100 ms *)
| ActivateAnimations             (* a delayed call of activateAnimations *)
| Retried.                       (* retryOperation, 1000 ms *)

Inductive Action : Type :=
| RetryOperation
| ToggleAnimations
| ToggleGraphs
| ToggleErrorDemo
| SetActiveTab (tab : string).

Definition construct (w : World Callback) : World Callback * State :=
  (w, MkState (window_undefined (env w)) (negb (window_undefined (env w))) initial
        0 0 0
        [ MkAnimation "fade-in" true 800 0;
          MkAnimation "slide-up" true 600 200;
          MkAnimation "scale-in" true 500 400;
          MkAnimation "rotate-in" true 700 600 ]
        false (MkError false "" NoError 0)
        true 0%Q "Initializing SSR Demo..."
        "graphs" true true false
        (Date_now w) 0%Q).

Definition simulateLoading (cfg : World Callback * State) : World Callback * State :=
  let (w, s) := cfg in
  let s := set_progress 0%Q s in
  let (_, w) := setInterval (LoadingTick (next_handle w)) 100 w in
  (w, s).

Definition initializeComponent (cfg : World Callback * State)
  : World Callback * State :=
  let (w, s) := cfg in
  let s := if isServer s then set_hyd (set_phase PServer (hyd s)) s
           else set_hyd (set_phase PLoading (hyd s)) s in
  if isBrowser s then simulateLoading (w, s)
  else
    let s := set_isLoading false s in
    let s := set_loadingProgress 100%Q s in
    (w, set_loadingMessage "Server rendering complete" s).

Definition simulateServerRendering (cfg : World Callback * State)
  : World Callback * State :=
  let (w, s) := cfg in
  let startTime := Date_now w in
  let (_, w) := setTimeout (ServerRendered startTime) 300 w in
  (w, s).

Definition simulateClientHydration (cfg : World Callback * State)
  : World Callback * State :=
  let (w, s) := cfg in
  let startTime := Date_now w in
  let (_, w) := setTimeout (ClientHydrated startTime) 500 w in
  (w, s).

Definition setupErrorHandling (cfg : World Callback * State)
  : World Callback * State :=
  let (w, s) := cfg in
  if isBrowser s then
    let (_, w) := setTimeout MaybeError 2000 w in (w, s)
  else (w, s).

Definition ngOnInit (cfg : World Callback * State) : World Callback * State :=
  let cfg := initializeComponent cfg in
  let cfg := simulateServerRendering cfg in
  let (w, s) := setupErrorHandling cfg in
  if isBrowser s then (w, set_hasApex true s) else (w, s).

Definition ngAfterViewInit (cfg : World Callback * State) : World Callback * State :=
  let (w, s) := cfg in
  if isBrowser s then
    let (_, w) := setTimeout MarkAsHydrated 100 w in (w, s)
  else (w, s).

Definition setActive (b : bool) (a : AnimationState) : AnimationState :=
  MkAnimation (anim_id a) b (duration a) (delay a).

Definition activateAnimations (cfg : World Callback * State)
  : World Callback * State :=
  let (w, s) := cfg in
  let animations := animationStates s in
  let s := set_animationStates (List.map (setActive false) animations) s in
  let (_, w) := setTimeout (AnimationsOn animations) 100 w in
  (w, s).

Definition getErrorMessage (type : ErrorType) : string :=
  match type with
  | Network => "Network connection error. Please check your internet connection."
  | ServerError => "Server temporarily unavailable. Please try again later."
  | ClientError => "Client-side error occurred. Refreshing the page may help."
  | NoError => "An unexpected error occurred."
  end.

(** [errorTypes[Math.floor(rnd * 3)]] for a [rnd] in the range of
    [Math.random()], from 0 up to but excluding 1. *)
Definition pickErrorType (rnd : Q) : ErrorType :=
  if ltb (rnd * 3) 1 then Network
  else if ltb (rnd * 3) 2 then ServerError
  else ClientError.

Definition simulateError (cfg : World Callback * State) : World Callback * State :=
  let (w, s) := cfg in
  let (rnd, w) := Math_random w in
  let randomType := pickErrorType rnd in
  (w, set_errorState
        (MkError true (getErrorMessage randomType) randomType
           (retryCount (errorState s) + 1)) s).

Definition markAsHydrated (cfg : World Callback * State) : World Callback * State :=
  let (w, s) := cfg in
  let s := set_hyd (Hydration.markAsHydrated (Date_now w) (componentCreated s) (hyd s)) s in
  if String.eqb (activeTab s) "animations" && showAnimations s then
    let (_, w) := setTimeout ActivateAnimations 500 w in (w, s)
  else (w, s).

Definition loadingTick (interval : nat) (cfg : World Callback * State)
  : World Callback * State :=
  let (w, s) := cfg in
  let (rnd, w) := Math_random w in
  let s := set_progress (progress s + rnd * 15)%Q s in
  let (w, s) :=
    if Qle_bool 100 (progress s) then
      let s := set_progress 100%Q s in
      let w := clearInterval interval w in
      let s := set_isLoading false s in
      (w, set_loadingMessage "SSR Demo ready!" s)
    else (w, s) in
  let s := set_loadingProgress (Math_round (progress s)) s in
  if ltb (progress s) 30 then
    (w, set_loadingMessage "Initializing server rendering..." s)
  else if ltb (progress s) 60 then
    (w, set_loadingMessage "Generating static content..." s)
  else if ltb (progress s) 90 then
    (w, set_loadingMessage "Preparing client hydration..." s)
  else (w, set_loadingMessage "Finalizing SSR demo..." s).

Definition run (cb : Callback) (cfg : World Callback * State)
  : World Callback * State :=
  match cb with
  | LoadingTick interval => loadingTick interval cfg
  | ServerRendered startTime =>
      let (w, s) := cfg in
      let renderTime := Date_now w - startTime in
      let s := set_serverRenderTime renderTime s in
      let (w, s) := activateAnimations (w, s) in
      if isBrowser s then simulateClientHydration (w, s) else (w, s)
  | ClientHydrated startTime =>
      let (w, s) := cfg in
      let hydrationTime := Date_now w - startTime in
      let s := set_clientHydrationTime hydrationTime s in
      (w, set_totalLoadTime (serverRenderTime s + hydrationTime) s)
  | AnimationsOn animations =>
      let (w, s) := cfg in
      (w, set_animationStates (List.map (setActive true) animations) s)
  | MaybeError =>
      let (w, s) := cfg in
      let (rnd, w) := Math_random w in
      if gtb rnd (8 # 10) then simulateError (w, s) else (w, s)
  | MarkAsHydrated => markAsHydrated cfg
  | ActivateAnimations => activateAnimations cfg
  | Retried =>
      let (w, s) := cfg in
      (w, set_loadingMessage "Operation retried successfully!" s)
  end.

Definition retryOperation (cfg : World Callback * State) : World Callback * State :=
  let (w, s) := cfg in
  let s := set_errorState (MkError false "" NoError (retryCount (errorState s))) s in
  let (_, w) := setTimeout Retried 1000 w in
  (w, s).

Definition toggleAnimations (cfg : World Callback * State) : World Callback * State :=
  let (w, s) := cfg in
  let s := set_showAnimations (negb (showAnimations s)) s in
  if showAnimations s then
    let (_, w) := setTimeout ActivateAnimations 200 w in (w, s)
  else (w, s).

Definition toggleGraphs (s : State) : State := set_showGraphs (negb (showGraphs s)) s.

Definition toggleErrorDemo (cfg : World Callback * State) : World Callback * State :=
  let (w, s) := cfg in
  if showErrors s then
    let s := set_showErrors false s in
    (w, set_errorState (MkError false "" NoError 0) s)
  else
    let s := set_showErrors true s in
    simulateError (w, s).

Definition setActiveTab (tab : string) (cfg : World Callback * State)
  : World Callback * State :=
  let (w, s) := cfg in
  let s := set_activeTab tab s in
  if String.eqb tab "animations" && showAnimations s then
    let (_, w) := setTimeout ActivateAnimations 300 w in (w, s)
  else (w, s).

Definition act (a : Action) (cfg : World Callback * State) : World Callback * State :=
  match a with
  | RetryOperation => retryOperation cfg
  | ToggleAnimations => toggleAnimations cfg
  | ToggleGraphs => (fst cfg, toggleGraphs (snd cfg))
  | ToggleErrorDemo => toggleErrorDemo cfg
  | SetActiveTab tab => setActiveTab tab cfg
  end.

(** The class has no [ngOnDestroy]. *)
Definition component : Component :=
  MkComponent State Callback Action construct ngOnInit ngAfterViewInit
    (fun cfg => cfg) run act.

End SsrDemo.

(* ===================================================================== *)
(** * The components that track hydration *)
(* ===================================================================== *)

Module Tracking.
Import EventLoop Hydration.

(** A component with the hydration signals: where they are in its
    state, where its creation time is, and which of its closures is the
    delayed call of [markAsHydrated]. *)
Record Tracker : Type := MkTracker {
  comp : Component;
  signals : State comp -> Signals;
  createdAt : State comp -> Z;
  mark : Callback comp;
  (* the timer handles kept in fields, and those a closure captured *)
  held : State comp -> list nat;
  captured : Callback comp -> list nat
}.

Definition handle_list (id : option nat) : list nat :=
  match id with Some h => [h] | None => [] end.

Definition home : Tracker :=
  MkTracker Home.component Home.hyd Home.componentCreated Home.MarkAsHydrated
    (fun _ => []) (fun _ => []).

Definition products : Tracker :=
  MkTracker Products.component Products.hyd Products.componentCreated
    Products.MarkAsHydrated
    (fun s => handle_list (Products.intervalId s)
              ++ handle_list (Products.liveDataIntervalId s))
    (fun _ => []).

Definition reports : Tracker :=
  MkTracker Reports.component Reports.hyd Reports.componentCreated
    Reports.MarkAsHydrated
    (fun s => handle_list (Reports.intervalId s)
              ++ handle_list (Reports.realTimeIntervalId s))
    (fun _ => []).

Definition ssrDemo : Tracker :=
  MkTracker SsrDemo.component SsrDemo.hyd SsrDemo.componentCreated
    SsrDemo.MarkAsHydrated
    (fun _ => [])
    (fun cb => match cb with SsrDemo.LoadingTick i => [i] | _ => [] end).

(** The hydration-tracking components of the application. *)
Definition trackers : list Tracker := [home; products; reports; ssrDemo].

Definition phase_of (T : Tracker) (cfg : Config (comp T)) : Phase :=
  hydrationPhase (signals T (snd cfg)).

(** A closure other than the hydration callback whose captured handles
    all satisfy [cl]. *)
Definition plain (T : Tracker) (cl : nat -> Prop) (cb : Callback (comp T)) : Prop :=
  cb <> mark T /\ Forall cl (captured T cb).

(** What one method call may do, given the handles [cl] it may clear:
    the timer table evolves without a new hydration callback, the
    handles it holds may still be cleared, the creation time stays. *)
Definition tame (T : Tracker) (cl : nat -> Prop)
    (before after : Config (comp T)) : Prop :=
  evolves (plain T cl) cl (timers (fst before)) (timers (fst after)) /\
  Forall cl (held T (snd after)) /\
  createdAt T (snd after) = createdAt T (snd before).

(** The laws of a hydration tracker: every closure, every bound event
    and the destroy hook are tame; only the hydration callback writes
    the hydration signals, and it writes what [markAsHydrated] says. *)
Record Laws (T : Tracker) (cl : nat -> Prop) : Prop := MkLaws {
  law_run : forall cb cfg,
    Forall cl (captured T cb) -> Forall cl (held T (snd cfg)) ->
    tame T cl cfg (run (comp T) cb cfg);
  law_act : forall a cfg,
    Forall cl (held T (snd cfg)) -> tame T cl cfg (act (comp T) a cfg);
  law_destroy : forall cfg,
    Forall cl (held T (snd cfg)) -> tame T cl cfg (ngOnDestroy (comp T) cfg);
  law_run_signals : forall cb cfg,
    (cb <> mark T /\
     signals T (snd (run (comp T) cb cfg)) = signals T (snd cfg)) \/
    (cb = mark T /\
     signals T (snd (run (comp T) cb cfg))
     = markAsHydrated (clock (fst cfg)) (createdAt T (snd cfg))
         (signals T (snd cfg)));
  law_act_signals : forall a cfg,
    signals T (snd (act (comp T) a cfg)) = signals T (snd cfg);
  law_destroy_signals : forall cfg,
    signals T (snd (ngOnDestroy (comp T) cfg)) = signals T (snd cfg)
}.

(** Every handle the component holds, in a field or in a pending
    closure, satisfies [cl]. *)
Definition settled (T : Tracker) (cl : nat -> Prop) (cfg : Config (comp T)) : Prop :=
  Forall cl (held T (snd cfg)) /\
  Forall (fun tm => Forall cl (captured T (callback tm))) (timers (fst cfg)).

(** No timer of the table runs the hydration callback. *)
Definition no_mark (T : Tracker) (cfg : Config (comp T)) : Prop :=
  Forall (fun tm => callback tm <> mark T) (timers (fst cfg)).

End Tracking.

(* ===================================================================== *)
(** * Well-formed timer tables *)
(* ===================================================================== *)

Module Handles.
Import EventLoop.

(** No two timers of the table share a handle, and the next handle is
    larger than all of them. *)
Definition distinct {C : Type} (w : World C) : Prop :=
  NoDup (List.map handle (timers w)) /\ handles_fresh w.

End Handles.

(* ===================================================================== *)
(** * ContactComponent: the two slices and what the error map means *)
(* ===================================================================== *)

Module ContactView.
Import JsString RegExp EventLoop Contact.

(** Every entry of the error map belongs to a field whose present value
    breaks the rule of the field. *)
Definition errors_sound (s : State) : Prop :=
  forall f, is_Some (csrErrors s !! f) ->
            ~ field_rule f (field_value f (csrFormData s)).

(** The signals of the basic form and those of the validated form. *)
Definition basic_slice (s : State) : ContactForm * bool * bool :=
  (formData s, isSubmitting s, submitSuccess s).

Definition validated_slice (s : State)
  : ContactForm * gmap Field string * bool * bool :=
  (csrFormData s, csrErrors s, isCSRSubmitting s, csrSubmitSuccess s).

(** The bindings of the basic form, as opposed to the validated one. *)
Definition on_basic_form (a : Action) : bool :=
  match a with
  | UpdateName _ | UpdateEmail _ | UpdateSubject _ | UpdateMessage _
  | UpdateNewsletter _ | OnSubmit => true
  | _ => false
  end.

Definition for_basic_form (cb : Callback) : bool :=
  match cb with SsrSubmitted => true | CsrSubmitted => false end.

(** Some timer of the table runs the closure [cb]. *)
Definition pending (cb : Callback) (w : World Callback) : Prop :=
  Exists (fun tm => callback tm = cb) (timers w).

(** A submitting flag that is set has a timer behind it that will
    clear it. *)
Definition flags_backed (cfg : World Callback * State) : Prop :=
  (isSubmitting (snd cfg) = true -> pending SsrSubmitted (fst cfg)) /\
  (isCSRSubmitting (snd cfg) = true -> pending CsrSubmitted (fst cfg)).

End ContactView.

(* ===================================================================== *)
(** * The hydration indicator of the page components *)
(* ===================================================================== *)

Module Indicator.
Import EventLoop Hydration Tracking.

(** [getHydrationMessage] and [getHydrationColor], the same in the home,
    products, reports and ssr-demo components, as functions of the
    signals they read. *)
Definition getHydrationMessage (isServer : bool) (h : Signals) : string :=
  if isServer then "Server-Side Rendering"
  else if negb (isHydrated h) then "Hydrating..."
  else "Fully Hydrated".

Definition getHydrationColor (isServer : bool) (h : Signals) : string :=
  if isServer then "server"
  else if negb (isHydrated h) then "loading"
  else "hydrated".

(** The string a phase is in the source. *)
Definition phase_name (p : Phase) : string :=
  match p with
  | PServer => "server"
  | PLoading => "loading"
  | PHydrated => "hydrated"
  end.

(** A hydration tracker together with its [isServer] signal. *)
Record View : Type := MkView {
  tracker : Tracker;
  isServer : State (comp tracker) -> bool
}.

Definition views : list View :=
  [ MkView home Home.isServer;
    MkView products Products.isServer;
    MkView reports Reports.isServer;
    MkView ssrDemo SsrDemo.isServer ].

Definition colour_of (V : View) (cfg : Config (comp (tracker V))) : string :=
  getHydrationColor (isServer V (snd cfg)) (signals (tracker V) (snd cfg)).

Definition message_of (V : View) (cfg : Config (comp (tracker V))) : string :=
  getHydrationMessage (isServer V (snd cfg)) (signals (tracker V) (snd cfg)).

(** The message that goes with a phase. *)
Definition phase_message (p : Phase) : string :=
  match p with
  | PServer => "Server-Side Rendering"
  | PLoading => "Hydrating..."
  | PHydrated => "Fully Hydrated"
  end.

(** The indicator shows the phase. *)
Definition shows_phase (V : View) (cfg : Config (comp (tracker V))) : Prop :=
  colour_of V cfg = phase_name (phase_of (tracker V) cfg) /\
  message_of V cfg = phase_message (phase_of (tracker V) cfg).

(** The flag and the signals fit together: on the server nothing is
    hydrated and nothing will be; in the browser the view is loading
    until it is hydrated. *)
Definition coherent (V : View) (cfg : Config (comp (tracker V))) : Prop :=
  let h := signals (tracker V) (snd cfg) in
  (isServer V (snd cfg) = true /\ isHydrated h = false /\
   hydrationPhase h = PServer /\ no_mark (tracker V) cfg) \/
  (isServer V (snd cfg) = false /\
   ((isHydrated h = false /\ hydrationPhase h = PLoading) \/
    (isHydrated h = true /\ hydrationPhase h = PHydrated))).

(** The methods of a view never write its [isServer] signal. *)
Record FlagLaws (V : View) : Prop := MkFlagLaws {
  flag_run : forall cb cfg,
    isServer V (snd (run (comp (tracker V)) cb cfg)) = isServer V (snd cfg);
  flag_act : forall a cfg,
    isServer V (snd (act (comp (tracker V)) a cfg)) = isServer V (snd cfg);
  flag_destroy : forall cfg,
    isServer V (snd (ngOnDestroy (comp (tracker V)) cfg)) = isServer V (snd cfg)
}.

(** Every timer that runs the hydration callback is the one-shot timer
    with the handle [h]. *)
Definition mark_only_at (T : Tracker) (h : nat) (cfg : Config (comp T)) : Prop :=
  Forall (fun tm => callback tm = mark T -> handle tm = h /\ period tm = None)
    (timers (fst cfg)).

(** Once the view is hydrated, no timer runs the hydration callback. *)
Definition hydrated_once (T : Tracker) (h : nat) (cfg : Config (comp T)) : Prop :=
  mark_only_at T h cfg /\
  (isHydrated (signals T (snd cfg)) = true -> no_mark T cfg).

End Indicator.

(* ===================================================================== *)
(** * ReportsComponent: the generated figures and the dashboard timers *)
(* ===================================================================== *)

Module ReportsData.
Import EventLoop JsNumber Reports.

Section Generated.
(** [Math.sin]: the properties below hold whatever it returns. *)
Variable sin : Q -> Q.

(** [generateDynamicValue(min, max, seed)] *)
Definition generateDynamicValue (min max seed : Q) : Q :=
  let x := (sin seed * 10000)%Q in
  let random := (x - Math_floor x)%Q in
  (Math_round ((min + random * (max - min)) * 10) / 10)%Q.

(** The arrow function of [updateRealTimeData], and the [map] over the
    figures with their indices. *)
Definition nextFigure (now : Z) (index : nat) (value : Q) : Q :=
  let seed := inject_Z (now + Z.of_nat index) in
  let change := (sin (seed / 1000) * 10)%Q in
  Math_max 30 (Math_min 100 (value + change)).

Definition updateRealTimeData (now : Z) (currentData : list Q) : list Q :=
  imap (nextFigure now) currentData.

End Generated.

(** The names of the live metrics, in the order of [initialMetrics]. *)
Definition metricNames : list string :=
  List.map metric_name initialMetrics.

(** No timer of the table runs the dashboard refresh or the live feed. *)
Definition feeds_stopped (cfg : World Callback * State) : Prop :=
  Forall (fun tm => callback tm <> DashboardTick /\ callback tm <> LiveTick)
    (timers (fst cfg)).

(** The two feeds run under the handles kept in [intervalId] and
    [realTimeIntervalId], or not at all. *)
Definition feeds_wired (cfg : World Callback * State) : Prop :=
  Forall (fun tm =>
            (callback tm = DashboardTick -> intervalId (snd cfg) = Some (handle tm)) /\
            (callback tm = LiveTick -> realTimeIntervalId (snd cfg) = Some (handle tm)))
    (timers (fst cfg)) /\
  Forall (fun tm => handle tm <> 0%nat) (timers (fst cfg)) /\
  next_handle (fst cfg) <> 0%nat.

(** What the two feeds write. *)
Definition fed (s : State) : Z * Z * Z * Z :=
  (currentTime s, dataUpdateCount s, updateCounter s, dataStreamRate s).


(** The live metrics are not loaded yet, or they are the six of
    [initialMetrics], in that order. *)
Definition metrics_named (s : State) : Prop :=
  liveMetrics s = [] \/ List.map metric_name (liveMetrics s) = metricNames.

(** Only refreshes wait in the timer table, and no metric is loaded. *)
Definition never_loaded (cfg : World Callback * State) : Prop :=
  Forall (fun tm => callback tm = Refreshed) (timers (fst cfg)) /\
  liveMetrics (snd cfg) = [].

End ReportsData.

(* ===================================================================== *)
(** * ProductsComponent: the catalog, the live data and the timers *)
(* ===================================================================== *)

Module ProductsView.
Import EventLoop JsNumber Products.

(** [Map.prototype.get] *)
Fixpoint map_get (k : Z) (m : list (Z * LiveData)) : option LiveData :=
  match m with
  | [] => None
  | (k', v) :: r => if k' =? k then Some v else map_get k r
  end.

(** [getLiveData(productId)]; [undefined] is [None]. *)
Definition getLiveData (productId : Z) (s : State) : option LiveData :=
  map_get productId (liveData s).

(** The entry [initializeLiveData] makes for a product, given the value
    its call of [Math.random()] returns. *)
Definition initialEntry (rnd : Q) (product : Product) : LiveData :=
  MkLive (Math_floor (rnd * 50) + 10)%Q
         (price product)
         (or_default (discount product) 0)
         (or_default (rating product) 4)
         (or_default (reviewCount product) 100).


(** The figures of a live entry are in their ranges, and the stock is a
    whole number. *)
Definition in_range (d : LiveData) : Prop :=
  (0 <= stockCount d /\ (exists n : Z, stockCount d = inject_Z n) /\
   0 <= currentPrice d /\
   0 <= liveDiscount d <= 50 /\
   1 <= liveRating d <= 5)%Q.

(** No timer of the table runs the render clock or the live-data feed. *)
Definition feeds_stopped (cfg : World Callback * State) : Prop :=
  Forall (fun tm => callback tm <> RenderTick /\ callback tm <> LiveDataTick)
    (timers (fst cfg)).

(** The two feeds run under the handles kept in [intervalId] and
    [liveDataIntervalId], or not at all. *)
Definition feeds_wired (cfg : World Callback * State) : Prop :=
  Forall (fun tm =>
            (callback tm = RenderTick -> intervalId (snd cfg) = Some (handle tm)) /\
            (callback tm = LiveDataTick ->
             liveDataIntervalId (snd cfg) = Some (handle tm)))
    (timers (fst cfg)) /\
  Forall (fun tm => handle tm <> 0%nat) (timers (fst cfg)) /\
  next_handle (fst cfg) <> 0%nat.

(** What the two feeds write. *)
Definition fed (s : State) : Z * Z * string :=
  (renderTime s, updateCount s, realTimeStatus s).

End ProductsView.

(* ===================================================================== *)
(** * ProductsComponent: the list shown and the figures beside it *)
(* ===================================================================== *)

Module ProductList.
Import JsNumber Products.

Section Sorting.
Variable A : Type.
(** The comparator: negative or zero when its first argument may stay
    before the second. *)
Variable compareFn : A -> A -> Q.

(** [Array.prototype.sort] is stable; with a consistent comparator its
    result is the one of a stable insertion sort. *)
Fixpoint insert (x : A) (l : list A) : list A :=
  match l with
  | [] => [x]
  | y :: r => if Qle_bool (compareFn x y) 0 then x :: y :: r
              else y :: insert x r
  end.

Definition sort (l : list A) : list A := List.fold_right insert [] l.

End Sorting.

Arguments insert {A} compareFn x l.
Arguments sort {A} compareFn l.

Section Shown.
(** [a.name.localeCompare(b.name)] for two products: the names are not
    part of [Product], and the order of names depends on the locale. *)
Variable localeCompare : Product -> Product -> Q.

Definition comparator (k : SortKey) (a b : Product) : Q :=
  match k with
  | ByPrice => (price a - price b)%Q
  | ByRating => (or_default (rating b) 0 - or_default (rating a) 0)%Q
  | ByName => localeCompare a b
  end.

(** The getter [filteredAndSortedProducts]. *)
Definition filteredAndSortedProducts (s : State) : list Product :=
  let filtered := products s in
  let category := selectedCategory s in
  let filtered :=
    if negb (String.eqb category "all")
    then List.filter (fun product => String.eqb (Products.category product) category)
           filtered
    else filtered in
  let filtered :=
    if showOnlyInStock s then List.filter inStock filtered else filtered in
  let sortBy := sortBy s in
  sort (comparator sortBy) filtered.

End Shown.

(** What the two filters of the getter let through. *)
Definition passes (s : State) (product : Product) : bool :=
  (String.eqb (selectedCategory s) "all"
   || String.eqb (Products.category product) (selectedCategory s))
  && (negb (showOnlyInStock s) || inStock product).

(** [getDiscountPercentage(originalPrice, currentPrice)], for an
    original price that is not 0. *)
Definition getDiscountPercentage (originalPrice currentPrice : Q) : Q :=
  Math_round (((originalPrice - currentPrice) / originalPrice) * 100)%Q.

End ProductList.

(* ===================================================================== *)
(** * SsrDemoComponent: the loading bar, the animations and the errors *)
(* ===================================================================== *)

Module SsrDemoView.
Import EventLoop JsNumber SsrDemo.

(** The error panel agrees with itself: without an error the message is
    empty and the type is ['none']; with one, the type is one of the
    three kinds, the message is the one of that kind, and the error has
    been counted. *)
Definition error_consistent (e : ErrorState) : Prop :=
  (hasError e = false /\ errorMessage e = "" /\ errorType e = NoError /\
   0 <= retryCount e) \/
  (hasError e = true /\ errorType e <> NoError /\
   errorMessage e = getErrorMessage (errorType e) /\ 0 < retryCount e).

(** The four animations of the constructor, all with the flag [b]. *)
Definition animations (b : bool) : list AnimationState :=
  [ MkAnimation "fade-in" b 800 0;
    MkAnimation "slide-up" b 600 200;
    MkAnimation "scale-in" b 500 400;
    MkAnimation "rotate-in" b 700 600 ].

Definition in_step (l : list AnimationState) : Prop :=
  exists b : bool, l = animations b.

(** A closure that activates animations has captured such a list. *)
Definition captured_in_step (cb : Callback) : Prop :=
  forall l, cb = AnimationsOn l -> in_step l.

(** The animations shown, and the ones a pending activation captured,
    are the four of the constructor with one common flag. *)
Definition animations_in_step (cfg : World Callback * State) : Prop :=
  in_step (animationStates (snd cfg)) /\
  Forall (fun tm => captured_in_step (callback tm)) (timers (fst cfg)).

(** The texts the loading line can show. *)
Definition loadingMessages : list string :=
  [ "Initializing SSR Demo...";
    "Server rendering complete";
    "Initializing server rendering...";
    "Generating static content...";
    "Preparing client hydration...";
    "Finalizing SSR demo...";
    "Operation retried successfully!" ].

(** The closure of the loading bar was started with the handle [h0],
    and runs only while the view is loading. *)
Definition tick_of (h0 : nat) (s : State) (cb : Callback) : Prop :=
  forall i, cb = LoadingTick i -> i = h0 /\ isLoading s = true.

(** The closure of the loading bar runs under the handle [h0] it was
    started with, and nowhere else; once loading is over the bar is
    full and the closure is gone. *)
Definition loading_wired (h0 : nat) (cfg : World Callback * State) : Prop :=
  Forall (fun tm => forall i, callback tm = LoadingTick i ->
                              i = h0 /\ handle tm = h0)
    (timers (fst cfg)) /\
  (isLoading (snd cfg) = false ->
   loadingProgress (snd cfg) = 100%Q /\
   Forall (fun tm => forall i, callback tm <> LoadingTick i) (timers (fst cfg))).

(** No timer of the table measures the render time, or the hydration
    time. *)
Definition render_measured (w : World Callback) : Prop :=
  Forall (fun tm => forall st, callback tm <> ServerRendered st) (timers w).
Definition no_hydration_pending (w : World Callback) : Prop :=
  Forall (fun tm => forall st, callback tm <> ClientHydrated st) (timers w).

(** The total load time is the sum of the two measured times, once the
    second one is there. *)
Definition adds_up (s : State) : Prop :=
  (clientHydrationTime s = 0 /\ totalLoadTime s = 0) \/
  totalLoadTime s = serverRenderTime s + clientHydrationTime s.

(** The render time is measured by one timeout, of handle [h1], and the
    hydration time is measured after it. *)
Definition timings_in_order (h1 : nat) (cfg : World Callback * State) : Prop :=
  Forall (fun tm => forall st, callback tm = ServerRendered st ->
                               handle tm = h1 /\ period tm = None)
    (timers (fst cfg)) /\
  ((clientHydrationTime (snd cfg) = 0 /\ totalLoadTime (snd cfg) = 0 /\
    no_hydration_pending (fst cfg)) \/
   (render_measured (fst cfg) /\ adds_up (snd cfg))).

End SsrDemoView.

(* ===================================================================== *)
(** * Properties of strings and of the pattern matcher *)
(* ===================================================================== *)

Section StringFacts.
Import JsString RegExp.

Lemma trimStart_blank (s : jsstring) :
  trimStart s = [] <-> Forall (fun c => isWhiteSpace c = true) s.
Proof.
  induction s as [|c r IH]; simpl.
  - split; [constructor | reflexivity].
  - destruct (isWhiteSpace c) eqn:Hc.
    + rewrite IH. split.
      * intros H. constructor; assumption.
      * intros H. inversion H; assumption.
    + split; [discriminate |].
      intros H. inversion H; congruence.
Qed.

Lemma trimStart_head (s : jsstring) c r :
  trimStart s = c :: r -> isWhiteSpace c = false.
Proof.
  induction s as [|x t IH]; simpl; [discriminate |].
  destruct (isWhiteSpace x) eqn:Hx; [exact IH |].
  intros H. injection H as -> _. exact Hx.
Qed.

(** A string that trims to nothing consists of white space only. *)
Lemma trim_blank (s : jsstring) :
  trim s = [] <-> Forall (fun c => isWhiteSpace c = true) s.
Proof.
  unfold trim, trimEnd. split.
  - intros H.
    assert (H1 : trimStart (rev (trimStart s)) = []).
    { destruct (trimStart (rev (trimStart s))); [reflexivity |].
      apply (f_equal (@length N)) in H. rewrite length_rev in H. discriminate. }
    apply trimStart_blank in H1.
    assert (H2 : trimStart s = []).
    { destruct (trimStart s) as [|c r] eqn:E; [reflexivity |].
      apply trimStart_head in E.
      apply List.Forall_rev in H1. rewrite rev_involutive in H1.
      inversion H1; congruence. }
    apply trimStart_blank. exact H2.
  - intros H. apply trimStart_blank in H. rewrite H. reflexivity.
Qed.

(** The backtracking matcher accepts exactly the strings the pattern
    denotes. *)
Lemma match_items_denotes (s : jsstring) :
  forall p, match_items p s = true <-> denotes p s.
Proof.
  induction s as [|x r IH]; intros p.
  - destruct p as [|[c|cls] q]; simpl.
    + split; reflexivity.
    + split; [discriminate | intros (r & H & _); discriminate].
    + split; [discriminate |].
      intros (a & r & Ha & _ & H & _).
      destruct a; [congruence | discriminate].
  - destruct p as [|[c|cls] q].
    + simpl. split; discriminate.
    + simpl. rewrite andb_true_iff, N.eqb_eq, IH. split.
      * intros [-> H]. exists r. split; [reflexivity | exact H].
      * intros (r' & H & Hd). injection H as -> ->. split; [reflexivity | exact Hd].
    + change (match_items (Plus cls :: q) (x :: r))
        with (cls x && (match_items (Plus cls :: q) r || match_items q r)).
      rewrite andb_true_iff, orb_true_iff, !IH. simpl. split.
      * intros [Hx [(a & r' & Ha & Hall & -> & Hd) | Hd]].
        -- exists (x :: a), r'. repeat split; try assumption; try discriminate.
           constructor; assumption.
        -- exists [x], r. repeat split; try assumption; try discriminate.
           constructor; [assumption | constructor].
      * intros (a & r' & Ha & Hall & Heq & Hd).
        destruct a as [|y a]; [congruence |].
        simpl in Heq. injection Heq as <- ->.
        inversion Hall as [|? ? Hy Hall']; subst.
        split; [assumption |].
        destruct a as [|z a].
        -- right. exact Hd.
        -- left. exists (z :: a), r'. repeat split; try assumption; discriminate.
Qed.

End StringFacts.

(* ===================================================================== *)
(** * The validated form: field rules *)
(* ===================================================================== *)

Section ContactValidation.
Import JsString RegExp EventLoop Contact.

Example trim_sample : trim (js "  ab c  ") = js "ab c".
Proof. reflexivity. Qed.

Example email_accepted :
  test emailRegex (js "a@b.co") = true /\ test emailRegex (js "a.b@c.d.e") = true.
Proof. split; reflexivity. Qed.

Example email_rejected :
  test emailRegex (js "bad") = false /\ test emailRegex (js "a@b") = false /\
  test emailRegex (js "a@@b.co") = false /\ test emailRegex (js "a@b.co ") = false.
Proof. repeat split; reflexivity. Qed.

(** The shape [local@domain.tld] the pattern stands for. *)
Lemma emailRegex_shape (v : jsstring) :
  test emailRegex v = true <->
  exists a b c,
    v = a ++ [64%N] ++ b ++ [46%N] ++ c /\
    a <> [] /\ b <> [] /\ c <> [] /\
    Forall (fun x => not_space_at x = true) (a ++ b ++ c).
Proof.
  unfold test, emailRegex. rewrite match_items_denotes. simpl. split.
  - intros (a & r1 & Ha & Fa & -> & r2 & -> & b & r3 & Hb & Fb & -> &
            r4 & -> & c & r5 & Hc & Fc & -> & ->).
    exists a, b, c. rewrite app_nil_r. repeat split; try assumption.
    rewrite !Forall_app. auto.
  - intros (a & b & c & -> & Ha & Hb & Hc & Hall).
    rewrite !Forall_app in Hall. destruct Hall as (Fa & Fb & Fc).
    exists a, ([64%N] ++ b ++ [46%N] ++ c). repeat split; try assumption.
    exists (b ++ [46%N] ++ c). split; [reflexivity |].
    exists b, ([46%N] ++ c). repeat split; try assumption.
    exists c. split; [reflexivity |].
    exists c, []. rewrite app_nil_r. repeat split; assumption.
Qed.

(** A blank string is not an e-mail address: the first branch of the
    e-mail case rejects nothing the pattern would accept. *)
Lemma blank_not_email (v : jsstring) :
  truthy (trim v) = false -> test emailRegex v = false.
Proof.
  intros H.
  assert (Hb : trim v = []) by (destruct (trim v); [reflexivity | discriminate]).
  apply trim_blank in Hb.
  destruct v as [|x r]; [reflexivity |].
  inversion Hb as [|? ? Hx _]; subst.
  unfold test, emailRegex.
  change (match_items (Plus not_space_at :: ?q) (x :: r))
    with (not_space_at x && (match_items (Plus not_space_at :: q) r || match_items q r)).
  unfold not_space_at at 1. rewrite Hx. reflexivity.
Qed.

Lemma truthy_length (v : jsstring) : truthy v = false <-> length v = 0%nat.
Proof. destruct v; simpl; split; congruence. Qed.

(** After validating field [f] with value [v] the map has an entry for
    [f] exactly when [v] breaks the rule of [f]. *)
Lemma validateField_entry (f : Field) (v : jsstring) (s : State) :
  is_Some (csrErrors (validateField f v s) !! f) <-> ~ field_rule f v.
Proof.
  unfold validateField; destruct f; simpl;
    unfold name_rule, email_rule, subject_rule, message_rule.
  - destruct (truthy (trim v)) eqn:Ht; simpl.
    + destruct (Nat.ltb_spec (length (trim v)) 2); simpl.
      * rewrite lookup_insert_eq. split; [lia | eauto].
      * rewrite lookup_delete_eq. split; [intros []; discriminate | lia].
    + apply truthy_length in Ht. rewrite lookup_insert_eq. split; [lia | eauto].
  - destruct (truthy (trim v)) eqn:Ht; simpl.
    + destruct (test emailRegex v) eqn:Hm; simpl.
      * rewrite lookup_delete_eq. split; [intros []; discriminate | congruence].
      * rewrite lookup_insert_eq. split; [congruence | eauto].
    + rewrite (blank_not_email v Ht), lookup_insert_eq. split; [congruence | eauto].
  - destruct v; simpl.
    + rewrite lookup_insert_eq. split; [auto | eauto].
    + rewrite lookup_delete_eq. split; [intros []; discriminate |].
      intros H. exfalso. apply H. discriminate.
  - destruct (truthy (trim v)) eqn:Ht; simpl.
    + destruct (Nat.ltb_spec (length (trim v)) 10); simpl.
      * rewrite lookup_insert_eq. split; [lia | eauto].
      * rewrite lookup_delete_eq. split; [intros []; discriminate | lia].
    + apply truthy_length in Ht. rewrite lookup_insert_eq. split; [lia | eauto].
Qed.

Lemma validateField_other (f g : Field) (v : jsstring) (s : State) :
  f <> g -> csrErrors (validateField f v s) !! g = csrErrors s !! g.
Proof.
  intros Hne. unfold validateField; destruct f; simpl;
    repeat match goal with |- context [if ?b then _ else _] => destruct b end;
    first [ apply lookup_insert_ne; exact Hne | apply lookup_delete_ne; exact Hne ].
Qed.

End ContactValidation.

(* ===================================================================== *)
(** * Properties of the timer table *)
(* ===================================================================== *)

Section TimerFacts.
Import EventLoop.
Context {C : Type}.
Implicit Types (w : World C) (tm : timer C) (ts : list (timer C)).

Lemma find_app_keep ts ts' h tm :
  List.find (has_handle h) ts = Some tm ->
  List.find (has_handle h) (ts ++ ts') = Some tm.
Proof.
  induction ts as [|x r IH]; simpl; [discriminate |].
  destruct (has_handle h x); [trivial | exact IH].
Qed.

Lemma has_handle_true h tm : has_handle h tm = true <-> handle tm = h.
Proof. unfold has_handle. apply Nat.eqb_eq. Qed.

Lemma has_handle_false h tm : has_handle h tm = false <-> handle tm <> h.
Proof. unfold has_handle. apply Nat.eqb_neq. Qed.

Lemma find_app_fresh ts h tm :
  Forall (fun x => handle x <> h) ts -> handle tm = h ->
  List.find (has_handle h) (ts ++ [tm]) = Some tm.
Proof.
  intros Hall Hh. induction Hall as [|x r Hx _ IH]; simpl.
  - apply has_handle_true in Hh. rewrite Hh. reflexivity.
  - apply has_handle_false in Hx. rewrite Hx. exact IH.
Qed.

Lemma find_handle ts h tm :
  List.find (has_handle h) ts = Some tm -> handle tm = h.
Proof.
  intros H. apply List.find_some in H. destruct H as [_ H].
  apply has_handle_true. exact H.
Qed.

Lemma find_filter_other ts h h' :
  h' <> h ->
  List.find (has_handle h) (List.filter (fun x => negb (has_handle h' x)) ts)
  = List.find (has_handle h) ts.
Proof.
  intros Hne. induction ts as [|x r IH]; simpl; [reflexivity |].
  destruct (has_handle h' x) eqn:E1; simpl.
  - destruct (has_handle h x) eqn:E2; [| exact IH].
    apply has_handle_true in E1, E2. congruence.
  - destruct (has_handle h x); [reflexivity | exact IH].
Qed.

Lemma find_rearm_other ts tm t h :
  handle tm <> h ->
  List.find (has_handle h) (rearm tm t ts) = List.find (has_handle h) ts.
Proof.
  intros Hne. unfold rearm. destruct (period tm) as [p|].
  - induction ts as [|x r IH]; simpl; [reflexivity |].
    destruct (has_handle (handle tm) x) eqn:E1.
    + assert (E2 : has_handle h x = false).
      { apply has_handle_false. apply has_handle_true in E1. congruence. }
      rewrite E2.
      assert (E3 : has_handle h (Timer (handle tm) (t + p) (Some p) (callback tm)) = false).
      { apply has_handle_false. exact Hne. }
      rewrite E3. exact IH.
    + destruct (has_handle h x); [reflexivity | exact IH].
  - apply find_filter_other. exact Hne.
Qed.

Lemma handles_fresh_next w :
  handles_fresh w -> Forall (fun x => handle x <> next_handle w) (timers w).
Proof.
  unfold handles_fresh. apply List.Forall_impl. intros x Hx. lia.
Qed.

(** A timer started in a world with fresh handles is found under the
    handle it was given. *)
Lemma find_add_timer w p cb d :
  handles_fresh w ->
  List.find (has_handle (fst (add_timer p cb d w)))
    (timers (snd (add_timer p cb d w)))
  = Some (Timer (next_handle w) (clock w + d) p cb).
Proof.
  intros Hf. simpl. apply find_app_fresh; [| reflexivity].
  apply handles_fresh_next. exact Hf.
Qed.

Lemma handles_fresh_add_timer w p cb d :
  handles_fresh w -> handles_fresh (snd (add_timer p cb d w)).
Proof.
  unfold handles_fresh. simpl. intros Hf. apply Forall_app. split.
  - revert Hf. apply List.Forall_impl. intros x Hx. lia.
  - constructor; [simpl; lia | constructor].
Qed.

Lemma handles_fresh_boot e t0 r : handles_fresh (C := C) (boot_world e t0 r).
Proof. constructor. Qed.

Lemma handles_fresh_rearm w tm t :
  In tm (timers w) ->
  handles_fresh w -> handles_fresh (set_timers (rearm tm t (timers w)) (set_clock t w)).
Proof.
  unfold handles_fresh. simpl. intros Hin Hall.
  assert (Htm : (handle tm < next_handle w)%nat).
  { rewrite List.Forall_forall in Hall. exact (Hall tm Hin). }
  unfold rearm. destruct (period tm) as [p|].
  - clear Hin. induction Hall as [|x r Hx _ IH]; simpl; [constructor |].
    constructor; [| exact IH].
    destruct (has_handle (handle tm) x); [exact Htm | exact Hx].
  - clear Hin Htm. induction Hall as [|x r Hx _ IH]; simpl; [constructor |].
    destruct (negb (has_handle (handle tm) x)); [constructor; assumption | exact IH].
Qed.

End TimerFacts.

Section StepFacts.
Import EventLoop.
Variable c : Component.

(** What a successful step did. *)
Lemma step_inv (e : event (Action c)) (cfg cfg' : Config c) :
  step c e cfg = Some cfg' ->
  match e with
  | Fire h t =>
      exists tm, find_timer c h (fst cfg) = Some tm /\ handle tm = h /\
                 due tm <= t /\ clock (fst cfg) <= t /\
                 cfg' = fire c tm t cfg
  | Elapse t => clock (fst cfg) <= t /\ cfg' = (set_clock t (fst cfg), snd cfg)
  | Do a => cfg' = act c a cfg
  | Destroy => cfg' = ngOnDestroy c cfg
  end.
Proof.
  destruct e as [h t | t | a |]; unfold step.
  - destruct (find_timer c h (fst cfg)) as [tm|] eqn:Hf; [| discriminate].
    destruct (due tm <=? t) eqn:Hd; [| discriminate].
    destruct (clock (fst cfg) <=? t) eqn:Hc; [| discriminate].
    intros H. injection H as <-. exists tm.
    apply Z.leb_le in Hd, Hc. apply find_handle in Hf as Hh. auto.
  - destruct (clock (fst cfg) <=? t) eqn:Hc; [| discriminate].
    intros H. injection H as <-. apply Z.leb_le in Hc. auto.
  - intros H. injection H as <-. reflexivity.
  - intros H. injection H as <-. reflexivity.
Qed.

Lemma step_fire (h : nat) (t : Z) (tm : timer (Callback c)) (cfg : Config c) :
  find_timer c h (fst cfg) = Some tm -> due tm <= t -> clock (fst cfg) <= t ->
  step c (Fire h t) cfg = Some (fire c tm t cfg).
Proof.
  intros Hf Hd Hc. unfold step. rewrite Hf.
  apply Z.leb_le in Hd, Hc. rewrite Hd, Hc. reflexivity.
Qed.

(** The table right before the callback of [tm] runs keeps every other
    timer. *)
Lemma find_fire_table (h : nat) (t : Z) (tm : timer (Callback c)) (cfg : Config c) :
  handle tm <> h ->
  List.find (has_handle h)
    (timers (set_timers (rearm tm t (timers (fst cfg))) (set_clock t (fst cfg))))
  = List.find (has_handle h) (timers (fst cfg)).
Proof. intros Hne. simpl. apply find_rearm_other. exact Hne. Qed.

End StepFacts.

Section ExecutionFacts.
Import EventLoop.
Variable c : Component.
Variable allowed : event (Action c) -> Prop.
Variable I : Config c -> Prop.
Hypothesis I_step :
  forall e cfg cfg', allowed e -> I cfg -> step c e cfg = Some cfg' -> I cfg'.

(** An invariant of the single events holds after every sequence of
    events. *)
Lemma exec_invariant (evs : list (event (Action c))) :
  forall cfg cfg',
    Forall allowed evs -> I cfg -> exec c evs cfg = Some cfg' -> I cfg'.
Proof.
  induction evs as [|e r IH]; intros cfg cfg' Hall Hi; simpl.
  - intros H. injection H as <-. exact Hi.
  - inversion Hall as [|? ? He Hr]; subst.
    destruct (step c e cfg) as [cfg1|] eqn:Hs; [| discriminate].
    apply IH; [exact Hr |]. exact (I_step e cfg cfg1 He Hi Hs).
Qed.

Lemma visited_invariant (evs : list (event (Action c))) :
  forall cfg, Forall allowed evs -> I cfg -> Forall I (visited c evs cfg).
Proof.
  induction evs as [|e r IH]; intros cfg Hall Hi; simpl; [constructor |].
  inversion Hall as [|? ? He Hr]; subst.
  destruct (step c e cfg) as [cfg1|] eqn:Hs; [| constructor].
  pose proof (I_step e cfg cfg1 He Hi Hs) as Hi1.
  constructor; [exact Hi1 | apply IH; assumption].
Qed.

End ExecutionFacts.

(* ===================================================================== *)
(** * ContactComponent *)
(* ===================================================================== *)

Section ContactFacts.
Import JsString RegExp EventLoop Contact.

(** C1. Validating the name field leaves an entry for the name in the
    error map exactly when the trimmed value has fewer than two
    characters, and no entry otherwise. *)
Theorem validate_name_fails_iff (v : jsstring) (s : State) :
  (is_Some (csrErrors (validateField FName v s) !! FName)
     <-> (length (trim v) < 2)%nat) /\
  (csrErrors (validateField FName v s) !! FName = None
     <-> (2 <= length (trim v))%nat).
Proof.
  pose proof (validateField_entry FName v s) as H.
  simpl in H. unfold name_rule in H.
  split; [rewrite H; lia |].
  rewrite eq_None_not_Some, H. lia.
Qed.

(** C2. Validating the e-mail field leaves an entry for the e-mail in
    the error map exactly when the value does not match
    [^[^\s@]+@[^\s@]+\.[^\s@]+$], and no entry otherwise. *)
Theorem validate_email_fails_iff (v : jsstring) (s : State) :
  (is_Some (csrErrors (validateField FEmail v s) !! FEmail)
     <-> test emailRegex v = false) /\
  (csrErrors (validateField FEmail v s) !! FEmail = None
     <-> test emailRegex v = true).
Proof.
  pose proof (validateField_entry FEmail v s) as H.
  simpl in H. unfold email_rule in H.
  split; [rewrite H; destruct (test emailRegex v); split; congruence |].
  rewrite eq_None_not_Some, H.
  destruct (test emailRegex v); split; try congruence.
  intros Hn. exfalso. apply Hn. discriminate.
Qed.

(** C3. Validating the message field leaves an entry for the message in
    the error map exactly when the trimmed value has fewer than ten
    characters, and no entry otherwise. *)
Theorem validate_message_fails_iff (v : jsstring) (s : State) :
  (is_Some (csrErrors (validateField FMessage v s) !! FMessage)
     <-> (length (trim v) < 10)%nat) /\
  (csrErrors (validateField FMessage v s) !! FMessage = None
     <-> (10 <= length (trim v))%nat).
Proof.
  pose proof (validateField_entry FMessage v s) as H.
  simpl in H. unfold message_rule in H.
  split; [rewrite H; lia |].
  rewrite eq_None_not_Some, H. lia.
Qed.

(** Re-validation touches the error map only. *)
Lemma validateAll_frame (s : State) :
  validateAll s = set_csrErrors (csrErrors (validateAll s)) s.
Proof. reflexivity. Qed.

(** After re-validating all fields, the error map has an entry for a
    field exactly when the field's value breaks its rule. *)
Lemma validateAll_entry (s : State) (f : Field) :
  is_Some (csrErrors (validateAll s) !! f)
  <-> ~ field_rule f (field_value f (csrFormData s)).
Proof.
  unfold validateAll.
  set (s1 := validateField FName (name (csrFormData s)) s).
  set (s2 := validateField FEmail (email (csrFormData s1)) s1).
  set (s3 := validateField FSubject (subject (csrFormData s2)) s2).
  change (csrFormData s3) with (csrFormData s).
  change (csrFormData s2) with (csrFormData s) in *.
  change (csrFormData s1) with (csrFormData s) in *.
  destruct f; simpl field_value.
  - rewrite validateField_other by discriminate.
    unfold s3. rewrite validateField_other by discriminate.
    unfold s2. rewrite validateField_other by discriminate.
    apply validateField_entry.
  - rewrite validateField_other by discriminate.
    unfold s3. rewrite validateField_other by discriminate.
    apply validateField_entry.
  - rewrite validateField_other by discriminate.
    apply validateField_entry.
  - apply validateField_entry.
Qed.

Lemma violated_field (d : ContactForm) :
  some_rule_violated d <-> exists f, ~ field_rule f (field_value f d).
Proof.
  unfold some_rule_violated. split.
  - intros [H | [H | [H | H]]];
      [exists FName | exists FEmail | exists FSubject | exists FMessage]; exact H.
  - intros [[] H]; simpl in H; tauto.
Qed.

Lemma validateAll_errors (s : State) :
  some_rule_violated (csrFormData s) ->
  (0 <? size (csrErrors (validateAll s)))%nat = true.
Proof.
  intros H. apply violated_field in H. destruct H as [f Hf].
  apply validateAll_entry in Hf. destruct Hf as [m Hm].
  apply Nat.ltb_lt.
  destruct (size (csrErrors (validateAll s))) eqn:E; [| lia].
  apply map_size_empty_iff in E. rewrite E, lookup_empty in Hm. discriminate.
Qed.

Lemma validateAll_clean (s : State) :
  all_rules (csrFormData s) -> csrErrors (validateAll s) = ∅.
Proof.
  intros (Hn & He & Hs & Hm).
  apply map_eq. intros f. rewrite lookup_empty.
  apply eq_None_not_Some. rewrite validateAll_entry.
  destruct f; simpl; tauto.
Qed.

Lemma onCSRSubmit_invalid (w : World Callback) (s : State) :
  some_rule_violated (csrFormData s) ->
  onCSRSubmit (w, s) = (w, validateAll s).
Proof.
  intros Hv. unfold onCSRSubmit. cbv zeta.
  rewrite (validateAll_errors s Hv). reflexivity.
Qed.

Lemma onCSRSubmit_valid (w : World Callback) (s : State) :
  all_rules (csrFormData s) ->
  onCSRSubmit (w, s)
  = (snd (setTimeout CsrSubmitted 1500 w),
     set_isCSRSubmitting true (set_csrErrors ∅ s)).
Proof.
  intros Hv. unfold onCSRSubmit. cbv zeta.
  rewrite validateAll_frame, (validateAll_clean s Hv). reflexivity.
Qed.

(** C4. When some field of the validated form breaks its rule and
    [csrSubmitSuccess] is false, [onCSRSubmit] returns after
    re-validating: [csrSubmitSuccess] is still false, the form data (of
    both forms) and the submitting flag are as before, no timer was
    started, and only the error map, which is not empty, was rewritten. *)
Theorem csr_submit_invalid_aborts (w : World Callback) (s : State) :
  some_rule_violated (csrFormData s) ->
  csrSubmitSuccess s = false ->
  csrSubmitSuccess (snd (onCSRSubmit (w, s))) = false /\
  csrFormData (snd (onCSRSubmit (w, s))) = csrFormData s /\
  isCSRSubmitting (snd (onCSRSubmit (w, s))) = isCSRSubmitting s /\
  formData (snd (onCSRSubmit (w, s))) = formData s /\
  fst (onCSRSubmit (w, s)) = w /\
  csrErrors (snd (onCSRSubmit (w, s))) <> ∅.
Proof.
  intros Hv Hs. rewrite (onCSRSubmit_invalid w s Hv).
  repeat split; try assumption.
  cbv [snd]. intros E.
  pose proof (validateAll_errors s Hv) as He.
  rewrite E, map_size_empty in He. discriminate.
Qed.

Lemma csr_submit_invalid_aborts_witness :
  csrSubmitSuccess (snd (onCSRSubmit (filled_in Browser sample_invalid))) = false /\
  csrFormData (snd (onCSRSubmit (filled_in Browser sample_invalid))) = sample_invalid /\
  size (csrErrors (snd (onCSRSubmit (filled_in Browser sample_invalid)))) = 4%nat.
Proof.
  pose proof (csr_submit_invalid_aborts
                (fst (filled_in Browser sample_invalid))
                (snd (filled_in Browser sample_invalid))) as H.
  destruct H as (H1 & H2 & _).
  - left. vm_compute. lia.
  - reflexivity.
  - split; [exact H1 | split; [exact H2 | vm_compute; reflexivity]].
Defined.

(** ** Timers of the contact view *)

(** Nothing in the contact view cancels a timer: a pending timer stays
    in the table until the event loop runs it. *)
Lemma contact_keeps_timer (h : nat) (tm : timer Callback)
    (e : event Action) (cfg cfg' : Config component) :
  match e with Fire h' _ => h' <> h | _ => True end ->
  find_timer component h (fst cfg) = Some tm ->
  step component e cfg = Some cfg' ->
  find_timer component h (fst cfg') = Some tm.
Proof.
  intros He Hf Hs. apply step_inv in Hs. unfold find_timer in *.
  destruct e as [h' t | t | a |].
  - destruct Hs as (tm' & _ & Hh & _ & _ & ->).
    unfold fire. change (EventLoop.run component) with Contact.run.
    assert (Hne : handle tm' <> h) by congruence.
    pose proof (find_fire_table component h t tm' cfg Hne) as Hk.
    unfold Contact.run. destruct (callback tm'); simpl in *; congruence.
  - destruct Hs as [_ ->]. exact Hf.
  - subst cfg'. change (EventLoop.act component) with Contact.act.
    destruct cfg as [w s].
    destruct a; try exact Hf.
    + unfold Contact.act, onSubmit. destruct (isServer s); [exact Hf |].
      apply find_app_keep. exact Hf.
    + unfold Contact.act, onCSRSubmit. cbv zeta.
      destruct (0 <? size (csrErrors (validateAll s)))%nat; [exact Hf |].
      apply find_app_keep. exact Hf.
  - subst cfg'. exact Hf.
Qed.

(** A pending timer of the contact view is run by the event loop at any
    time from its due time on, whatever else happened before. *)
Lemma contact_timer_runs (h : nat) (tm : timer Callback)
    (evs : list (event Action)) (cfg1 cfg2 : Config component) (t : Z) :
  find_timer component h (fst cfg1) = Some tm ->
  not_fired component h evs ->
  exec component evs cfg1 = Some cfg2 ->
  due tm <= t -> clock (fst cfg2) <= t ->
  step component (Fire h t) cfg2 = Some (fire component tm t cfg2).
Proof.
  intros Hf Hn Hx Hd Hc.
  assert (Hf2 : find_timer component h (fst cfg2) = Some tm).
  { revert Hn Hf Hx.
    apply (exec_invariant component
             (fun e => match e with Fire h' _ => h' <> h | _ => True end)
             (fun cfg => find_timer component h (fst cfg) = Some tm)).
    intros e c1 c2. apply contact_keeps_timer. }
  apply step_fire; assumption.
Qed.

(** Handles stay fresh through the whole life of a contact view, so the
    freshness asked for below holds whenever a form is submitted. *)
Lemma contact_handles_fresh (e : Env) (t0 : Z) (r : nat -> Q)
    (evs : list (event Action)) (cfg : Config component) :
  exec component evs (construct (boot_world e t0 r)) = Some cfg ->
  handles_fresh (fst cfg).
Proof.
  apply (exec_invariant component (fun _ => True)
           (fun c => handles_fresh (fst c))).
  - intros ev c1 c2 _ Hf Hs. apply step_inv in Hs.
    destruct ev as [h t | t | a |].
    + destruct Hs as (tm & Hfind & _ & _ & _ & ->).
      apply List.find_some in Hfind. destruct Hfind as [Hin _].
      pose proof (handles_fresh_rearm (fst c1) tm t Hin Hf) as Hr.
      unfold fire. change (EventLoop.run component) with Contact.run.
      unfold Contact.run. destruct (callback tm); exact Hr.
    + destruct Hs as [_ ->]. exact Hf.
    + subst c2. change (EventLoop.act component) with Contact.act.
      destruct c1 as [w s]. destruct a; try exact Hf.
      * unfold Contact.act, onSubmit. destruct (isServer s); [exact Hf |].
        apply (handles_fresh_add_timer w None SsrSubmitted 2000 Hf).
      * unfold Contact.act, onCSRSubmit. cbv zeta.
        destruct (0 <? size (csrErrors (validateAll s)))%nat; [exact Hf |].
        apply (handles_fresh_add_timer w None CsrSubmitted 1500 Hf).
    + subst c2. exact Hf.
  - apply List.Forall_forall. auto.
  - apply handles_fresh_boot.
Qed.

(** C5. When all four fields of the validated form satisfy their rules,
    [onCSRSubmit] flags the submission and starts a 1500 ms timer; the
    timer stays pending until the event loop runs it, and when it runs
    (at any time from its due time on, whatever happened in between)
    [csrSubmitSuccess] is true, the form data is back to the initial
    record (empty strings, newsletter false) and the error map is empty. *)
Theorem csr_submit_valid_succeeds (w : World Callback) (s : State) :
  all_rules (csrFormData s) ->
  handles_fresh w ->
  isCSRSubmitting (snd (onCSRSubmit (w, s))) = true /\
  find_timer component (next_handle w) (fst (onCSRSubmit (w, s)))
    = Some (Timer (next_handle w) (clock w + 1500) None CsrSubmitted) /\
  forall evs cfg2 t,
    not_fired component (next_handle w) evs ->
    exec component evs (onCSRSubmit (w, s)) = Some cfg2 ->
    clock w + 1500 <= t -> clock (fst cfg2) <= t ->
    exists cfg3,
      step component (Fire (next_handle w) t) cfg2 = Some cfg3 /\
      csrSubmitSuccess (snd cfg3) = true /\
      isCSRSubmitting (snd cfg3) = false /\
      csrFormData (snd cfg3) = emptyForm /\
      csrErrors (snd cfg3) = ∅.
Proof.
  intros Hv Hf. rewrite (onCSRSubmit_valid w s Hv).
  assert (Ht : find_timer component (next_handle w)
                 (fst (snd (setTimeout CsrSubmitted 1500 w),
                       set_isCSRSubmitting true (set_csrErrors ∅ s)))
               = Some (Timer (next_handle w) (clock w + 1500) None CsrSubmitted)).
  { exact (find_add_timer w None CsrSubmitted 1500 Hf). }
  split; [reflexivity |]. split; [exact Ht |].
  intros evs cfg2 t Hn Hx Hd Hc.
  eexists. split.
  - exact (contact_timer_runs _ _ evs _ cfg2 t Ht Hn Hx Hd Hc).
  - destruct cfg2 as [w2 s2]. repeat split.
Qed.

Lemma csr_submit_valid_succeeds_witness :
  isCSRSubmitting (snd (onCSRSubmit (filled_in Browser sample_valid))) = true /\
  exists cfg3,
    step component (Fire 1 1500) (onCSRSubmit (filled_in Browser sample_valid))
      = Some cfg3 /\
    csrSubmitSuccess (snd cfg3) = true /\
    csrFormData (snd cfg3) = emptyForm /\
    csrErrors (snd cfg3) = ∅.
Proof.
  pose proof (csr_submit_valid_succeeds
                (fst (filled_in Browser sample_valid))
                (snd (filled_in Browser sample_valid))) as H.
  destruct H as (H1 & _ & H3).
  - repeat split; vm_compute; first [lia | reflexivity | discriminate].
  - constructor.
  - split; [exact H1 |].
    destruct (H3 [] (onCSRSubmit (filled_in Browser sample_valid)) 1500)
      as (cfg3 & Hs & Hok & _ & Hd & He).
    + constructor.
    + reflexivity.
    + vm_compute. discriminate.
    + vm_compute. discriminate.
    + exists cfg3. repeat split; assumption.
Defined.

(** C9, as stated, fails where [isServer] is true: [onSubmit] then takes
    its first branch, which neither flags [isSubmitting] nor starts a
    timer nor resets the form. *)
Lemma basic_submit_on_server_counterexample :
  isSubmitting (snd (onSubmit (basic_filled_in Server sample_valid))) <> true /\
  timers (fst (onSubmit (basic_filled_in Server sample_valid))) = [] /\
  formData (snd (onSubmit (basic_filled_in Server sample_valid))) <> emptyForm.
Proof. vm_compute. repeat split; discriminate. Qed.

(** C9, amended. Whatever the fields of the basic form contain,
    [onSubmit] validates nothing and rejects nothing. Where [isServer]
    is false it flags [isSubmitting] and starts a 2000 ms timer, which
    stays pending until the event loop runs it; when it runs,
    [isSubmitting] is false again, [submitSuccess] is true and the form
    data is back to the initial record. Where [isServer] is true it sets
    [submitSuccess] at once and changes nothing else. *)
Theorem basic_submit_never_rejected (w : World Callback) (s : State) :
  handles_fresh w ->
  (isServer s = false ->
     isSubmitting (snd (onSubmit (w, s))) = true /\
     formData (snd (onSubmit (w, s))) = formData s /\
     find_timer component (next_handle w) (fst (onSubmit (w, s)))
       = Some (Timer (next_handle w) (clock w + 2000) None SsrSubmitted) /\
     forall evs cfg2 t,
       not_fired component (next_handle w) evs ->
       exec component evs (onSubmit (w, s)) = Some cfg2 ->
       clock w + 2000 <= t -> clock (fst cfg2) <= t ->
       exists cfg3,
         step component (Fire (next_handle w) t) cfg2 = Some cfg3 /\
         submitSuccess (snd cfg3) = true /\
         isSubmitting (snd cfg3) = false /\
         formData (snd cfg3) = emptyForm) /\
  (isServer s = true ->
     onSubmit (w, s) = (w, set_submitSuccess true s) /\
     submitSuccess (snd (onSubmit (w, s))) = true).
Proof.
  intros Hf. split; intros Hs; unfold onSubmit; rewrite Hs.
  - assert (Ht : find_timer component (next_handle w)
                   (fst (snd (setTimeout SsrSubmitted 2000 w),
                         set_isSubmitting true s))
                 = Some (Timer (next_handle w) (clock w + 2000) None SsrSubmitted)).
    { exact (find_add_timer w None SsrSubmitted 2000 Hf). }
    split; [reflexivity |]. split; [reflexivity |]. split; [exact Ht |].
    intros evs cfg2 t Hn Hx Hd Hc.
    eexists. split.
    + exact (contact_timer_runs _ _ evs _ cfg2 t Ht Hn Hx Hd Hc).
    + destruct cfg2 as [w2 s2]. repeat split.
  - split; reflexivity.
Qed.

Lemma basic_submit_never_rejected_witness :
  isSubmitting (snd (onSubmit (basic_filled_in Browser sample_invalid))) = true /\
  exists cfg3,
    step component (Fire 1 2000) (onSubmit (basic_filled_in Browser sample_invalid))
      = Some cfg3 /\
    submitSuccess (snd cfg3) = true /\
    formData (snd cfg3) = emptyForm.
Proof.
  pose proof (basic_submit_never_rejected
                (fst (basic_filled_in Browser sample_invalid))
                (snd (basic_filled_in Browser sample_invalid))) as H.
  destruct H as [H _]; [constructor |].
  destruct H as (H1 & _ & _ & H3); [reflexivity |].
  split; [exact H1 |].
  destruct (H3 [] (onSubmit (basic_filled_in Browser sample_invalid)) 2000)
    as (cfg3 & Hs & Hok & _ & Hd).
  - constructor.
  - reflexivity.
  - vm_compute. discriminate.
  - vm_compute. discriminate.
  - exists cfg3. repeat split; assumption.
Defined.

End ContactFacts.

(* ===================================================================== *)
(** * How the timer table evolves *)
(* ===================================================================== *)

Section EvolvesFacts.
Import EventLoop.
Context {C : Type}.
Implicit Types (w : World C) (tm : timer C) (ts : list (timer C)).

Lemma rearm_Forall (P : C -> Prop) tm t ts :
  In tm ts ->
  Forall (fun x => P (callback x)) ts ->
  Forall (fun x => P (callback x)) (rearm tm t ts).
Proof.
  intros Hin Hall. unfold rearm. destruct (period tm) as [p|].
  - assert (Htm : P (callback tm)).
    { rewrite List.Forall_forall in Hall. exact (Hall tm Hin). }
    clear Hin. induction Hall as [|x r Hx _ IH]; simpl; [constructor |].
    constructor; [| exact IH].
    destruct (has_handle (handle tm) x); [exact Htm | exact Hx].
  - clear Hin. induction Hall as [|x r Hx _ IH]; simpl; [constructor |].
    destruct (negb (has_handle (handle tm) x)); [constructor; assumption | exact IH].
Qed.

Lemma filter_Forall (P : timer C -> Prop) (f : timer C -> bool) ts :
  Forall P ts -> Forall P (List.filter f ts).
Proof.
  intros Hall. induction Hall as [|x r Hx _ IH]; simpl; [constructor |].
  destruct (f x); [constructor; assumption | exact IH].
Qed.

(** A property of the closures that every started closure has is kept. *)
Lemma evolves_Forall (ok : C -> Prop) (cl : nat -> Prop) (P : C -> Prop) ts ts' :
  (forall cb, ok cb -> P cb) ->
  evolves ok cl ts ts' ->
  Forall (fun x => P (callback x)) ts ->
  Forall (fun x => P (callback x)) ts'.
Proof.
  intros Hok Hev. induction Hev as [ts | ts1 ts2 ts3 _ IH1 _ IH2
                                    | ts tm Htm | ts h _ | ts tm t _ Hin]; intros Hall.
  - exact Hall.
  - auto.
  - apply Forall_app. split; [exact Hall |].
    constructor; [apply Hok; exact Htm | constructor].
  - apply filter_Forall. exact Hall.
  - apply rearm_Forall; assumption.
Qed.

(** A timer whose handle may not be cleared stays in the table. *)
Lemma evolves_find (ok : C -> Prop) (cl : nat -> Prop) ts ts' h tm :
  ~ cl h ->
  evolves ok cl ts ts' ->
  List.find (has_handle h) ts = Some tm ->
  List.find (has_handle h) ts' = Some tm.
Proof.
  intros Hh Hev. induction Hev as [ts | ts1 ts2 ts3 _ IH1 _ IH2
                                   | ts tm' _ | ts h' Hc | ts tm' t Hc _]; intros Hf.
  - exact Hf.
  - auto.
  - apply find_app_keep. exact Hf.
  - rewrite find_filter_other; [exact Hf |]. intros ->. contradiction.
  - rewrite find_rearm_other; [exact Hf |]. intros E. rewrite E in Hc. contradiction.
Qed.

Lemma evolves_clear_if_set ok cl w id :
  (forall h, id = Some h -> cl h) ->
  evolves ok cl (timers w) (timers (clear_if_set id w)).
Proof.
  intros H. destruct id as [h|]; simpl; [| apply ev_same].
  destruct (h =? 0)%nat; [apply ev_same |].
  simpl. apply ev_clear. apply H. reflexivity.
Qed.

End EvolvesFacts.

(* ===================================================================== *)
(** * What follows from the laws of a hydration tracker *)
(* ===================================================================== *)

Section TrackerFacts.
Import EventLoop Hydration Tracking.
Variable T : Tracker.
Variable cl : nat -> Prop.
Hypothesis L : Laws T cl.

Let may_fire (e : event (Action (comp T))) : Prop :=
  match e with Fire h _ => cl h | _ => True end.

Lemma fire_table_evolves (tm : timer (Callback (comp T))) (t : Z)
    (cfg : Config (comp T)) :
  cl (handle tm) -> In tm (timers (fst cfg)) ->
  evolves (plain T cl) cl (timers (fst cfg))
    (timers (set_timers (rearm tm t (timers (fst cfg))) (set_clock t (fst cfg)))).
Proof. intros Hc Hin. simpl. apply ev_rearm; assumption. Qed.

Lemma settled_after (before after : Config (comp T)) :
  settled T cl before -> tame T cl before after -> settled T cl after.
Proof.
  intros [_ Hcap] (Hev & Hheld & _). split; [exact Hheld |].
  revert Hcap.
  apply (evolves_Forall (plain T cl) cl (fun cb => Forall cl (captured T cb))
           _ _ (fun cb H => proj2 H) Hev).
Qed.

(** Every event that clears no protected handle is tame. *)
Lemma step_tame (e : event (Action (comp T))) (cfg cfg' : Config (comp T)) :
  may_fire e -> settled T cl cfg -> step (comp T) e cfg = Some cfg' ->
  tame T cl cfg cfg' /\ settled T cl cfg'.
Proof.
  intros He Hs Hstep. apply step_inv in Hstep.
  assert (Hgoal : tame T cl cfg cfg'); [| split; [exact Hgoal |]; eapply settled_after; eassumption].
  destruct Hs as [Hheld Hcap].
  destruct e as [h t | t | a |].
  - destruct Hstep as (tm & Hf & Hh & _ & _ & ->).
    apply List.find_some in Hf. destruct Hf as [Hin _].
    unfold fire.
    set (cfg0 := (set_timers (rearm tm t (timers (fst cfg))) (set_clock t (fst cfg)),
                  snd cfg)).
    assert (Hcb : Forall cl (captured T (callback tm))).
    { rewrite List.Forall_forall in Hcap. exact (Hcap tm Hin). }
    destruct (law_run T cl L (callback tm) cfg0 Hcb Hheld) as (Hev & Hh' & Hc').
    split; [| split; assumption].
    eapply ev_then; [| exact Hev].
    apply fire_table_evolves; [| exact Hin]. simpl in He. rewrite Hh. exact He.
  - destruct Hstep as [_ ->]. repeat split; [apply ev_same | exact Hheld].
  - subst cfg'. apply (law_act T cl L). exact Hheld.
  - subst cfg'. apply (law_destroy T cl L). exact Hheld.
Qed.

(** An event leaves the hydration signals alone, unless it is the
    hydration callback run by the event loop. *)
Lemma step_signals (e : event (Action (comp T))) (cfg cfg' : Config (comp T)) :
  step (comp T) e cfg = Some cfg' ->
  signals T (snd cfg') = signals T (snd cfg) \/
  exists h t tm,
    e = Fire h t /\ In tm (timers (fst cfg)) /\ callback tm = mark T /\
    signals T (snd cfg')
    = markAsHydrated t (createdAt T (snd cfg)) (signals T (snd cfg)).
Proof.
  intros Hstep. apply step_inv in Hstep.
  destruct e as [h t | t | a |].
  - destruct Hstep as (tm & Hf & _ & _ & _ & ->).
    apply List.find_some in Hf. destruct Hf as [Hin _].
    unfold fire.
    destruct (law_run_signals T cl L (callback tm)
                (set_timers (rearm tm t (timers (fst cfg))) (set_clock t (fst cfg)),
                 snd cfg)) as [[_ H] | [Hm H]].
    + left. exact H.
    + right. exists h, t, tm. auto.
  - destruct Hstep as [_ ->]. left. reflexivity.
  - subst cfg'. left. apply (law_act_signals T cl L).
  - subst cfg'. left. apply (law_destroy_signals T cl L).
Qed.

(** No event moves the phase backwards. *)
Lemma step_phase (e : event (Action (comp T))) (cfg cfg' : Config (comp T)) :
  step (comp T) e cfg = Some cfg' ->
  phase_le (phase_of T cfg) (phase_of T cfg').
Proof.
  intros Hstep. unfold phase_of, phase_le.
  destruct (step_signals e cfg cfg' Hstep) as [-> | (h & t & tm & _ & _ & _ & ->)].
  - lia.
  - simpl. destruct (hydrationPhase (signals T (snd cfg))); simpl; lia.
Qed.

(** The phases an execution goes through never decrease. *)
Lemma visited_phases_sorted (evs : list (event (Action (comp T)))) :
  forall cfg,
    StronglySorted phase_le (phase_of T cfg :: List.map (phase_of T) (visited (comp T) evs cfg)).
Proof.
  induction evs as [|e r IH]; intros cfg; simpl.
  - constructor; constructor.
  - destruct (step (comp T) e cfg) as [cfg1|] eqn:Hs; [| constructor; constructor].
    specialize (IH cfg1). pose proof (step_phase e cfg cfg1 Hs) as Hle.
    simpl. constructor; [exact IH |].
    inversion IH as [|? ? _ Hall]; subst.
    constructor; [exact Hle |].
    revert Hall. apply List.Forall_impl. intros p Hp.
    unfold phase_le in *. lia.
Qed.

End TrackerFacts.

(* ===================================================================== *)
(** * The laws hold for each hydration-tracking component *)
(* ===================================================================== *)

(** The table gained the timers the method started, one after the other. *)
Ltac table_grows :=
  simpl;
  repeat first
    [ apply EventLoop.ev_same
    | eapply EventLoop.ev_then;
      [| apply EventLoop.ev_add; split; [discriminate | simpl; repeat constructor] ] ].

Ltac tame_by_growth :=
  split; [table_grows | split; [simpl; assumption | reflexivity]].

Section HomeLaws.
Import EventLoop Hydration Tracking.
Variable cl : nat -> Prop.

Lemma home_laws : Laws home cl.
Proof.
  constructor.
  - intros cb [w s] _ Hheld. destruct cb; tame_by_growth.
  - intros a. destruct a.
  - intros [w s] Hheld. tame_by_growth.
  - intros cb [w s]. destruct cb;
      [left; split; [discriminate | reflexivity] | right; split; reflexivity].
  - intros a. destruct a.
  - intros [w s]. reflexivity.
Qed.

End HomeLaws.

Section ReportsLaws.
Import EventLoop Hydration Tracking Reports.
Variable cl : nat -> Prop.

(** Mapping over the metrics consumes one random number per metric and
    touches nothing else of the world. *)
Lemma mapMetrics_world (ms : list Metric) :
  forall w : World Callback,
    snd (mapMetrics ms w)
    = MkWorld (env w) (clock w) (next_handle w) (timers w) (rng w)
        (drawn w + length ms).
Proof.
  induction ms as [|m r IH]; intros w; simpl.
  - rewrite Nat.add_0_r. destruct w; reflexivity.
  - destruct (mapMetrics r _) as [r' w'] eqn:E.
    apply (f_equal snd) in E. rewrite IH in E. simpl in *. subst w'.
    f_equal. lia.
Qed.

Lemma run_LiveTick (w : World Callback) (s : State) :
  run LiveTick (w, s)
  = (snd (mapMetrics (liveMetrics s) w),
     set_realTimeStatus "Active"
       (set_dataStreamRate (dataStreamRate s + 1)
          (set_liveMetrics (fst (mapMetrics (liveMetrics s) w)) s))).
Proof.
  unfold run, updateLiveMetrics.
  destruct (mapMetrics (liveMetrics s) w); reflexivity.
Qed.

Lemma held_split (a b : option nat) :
  Forall cl (handle_list a ++ handle_list b) ->
  (forall h, a = Some h -> cl h) /\ (forall h, b = Some h -> cl h).
Proof.
  intros H. apply Forall_app in H. destruct H as [Ha Hb].
  split; intros h ->; simpl in *.
  - inversion Ha; assumption.
  - inversion Hb; assumption.
Qed.

Lemma reports_laws : Laws reports cl.
Proof.
  constructor.
  - intros cb [w s] _ Hheld. simpl in Hheld.
    destruct cb; try tame_by_growth.
    change (EventLoop.run (comp reports) LiveTick) with (run LiveTick).
    rewrite run_LiveTick. split; [| split; [exact Hheld | reflexivity]].
    cbv [fst]. rewrite mapMetrics_world. apply ev_same.
  - intros a [w s] Hheld. simpl in Hheld. destruct a; tame_by_growth.
  - intros [w s] Hheld. simpl in Hheld.
    split; [| split; [exact Hheld | reflexivity]].
    apply held_split in Hheld. destruct Hheld as [H1 H2].
    change (timers (fst (EventLoop.ngOnDestroy (comp reports) (w, s))))
      with (timers (clear_if_set (realTimeIntervalId s)
                      (clear_if_set (intervalId s) w))).
    eapply ev_then; apply evolves_clear_if_set; assumption.
  - intros cb [w s]. destruct cb;
      try (left; split; [discriminate | reflexivity]);
      try (right; split; reflexivity).
    left. split; [discriminate |].
    change (EventLoop.run (comp reports) LiveTick) with (run LiveTick).
    rewrite run_LiveTick. reflexivity.
  - intros a [w s]. destruct a; reflexivity.
  - intros [w s]. reflexivity.
Qed.

End ReportsLaws.

Section ProductsLaws.
Import EventLoop Hydration Tracking Products.
Variable cl : nat -> Prop.

(** Updating the live data consumes five random numbers per entry and
    touches nothing else of the world. *)
Lemma updateEntries_world (m : list (Z * LiveData)) :
  forall w : World Callback,
    snd (updateEntries m w)
    = MkWorld (env w) (clock w) (next_handle w) (timers w) (rng w)
        (drawn w + 5 * length m).
Proof.
  induction m as [|[k d] r IH]; intros w; simpl.
  - rewrite Nat.add_0_r. destruct w; reflexivity.
  - destruct (updateEntries r _) as [r' w'] eqn:E.
    apply (f_equal snd) in E. rewrite IH in E. simpl in *. subst w'.
    f_equal. lia.
Qed.

Lemma run_LiveDataTick (w : World Callback) (s : State) :
  run LiveDataTick (w, s)
  = (snd (updateEntries (liveData s) w),
     set_realTimeStatus "Active"
       (set_updateCount (updateCount s + 1)
          (set_liveData (fst (updateEntries (liveData s) w)) s))).
Proof.
  unfold run, updateLiveData.
  destruct (updateEntries (liveData s) w); reflexivity.
Qed.

Lemma products_laws : Laws Tracking.products cl.
Proof.
  constructor.
  - intros cb [w s] _ Hheld. simpl in Hheld.
    destruct cb; try tame_by_growth.
    + change (EventLoop.run (comp Tracking.products) LiveDataTick) with (run LiveDataTick).
      rewrite run_LiveDataTick. split; [| split; [exact Hheld | reflexivity]].
      cbv [fst]. rewrite updateEntries_world. apply ev_same.
    + split; [apply ev_same |]. simpl.
      destruct (JsNumber.gtb _ _), (JsNumber.gtb _ _); split; first [exact Hheld | reflexivity].
  - intros a [w s] Hheld. simpl in Hheld. destruct a; tame_by_growth.
  - intros [w s] Hheld. simpl in Hheld.
    split; [| split; [exact Hheld | reflexivity]].
    apply (held_split cl) in Hheld. destruct Hheld as [H1 H2].
    change (timers (fst (EventLoop.ngOnDestroy (comp Tracking.products) (w, s))))
      with (timers (clear_if_set (liveDataIntervalId s)
                      (clear_if_set (intervalId s) w))).
    eapply ev_then; apply evolves_clear_if_set; assumption.
  - intros cb [w s]. destruct cb;
      try (left; split; [discriminate | reflexivity]);
      try (right; split; reflexivity).
    + left. split; [discriminate |].
      change (EventLoop.run (comp Tracking.products) LiveDataTick) with (run LiveDataTick).
      rewrite run_LiveDataTick. reflexivity.
    + left. split; [discriminate |]. simpl.
      destruct (JsNumber.gtb _ _), (JsNumber.gtb _ _); reflexivity.
  - intros a [w s]. destruct a; reflexivity.
  - intros [w s]. reflexivity.
Qed.

End ProductsLaws.

Section SsrDemoLaws.
Import EventLoop Hydration Tracking SsrDemo.
Variable cl : nat -> Prop.

Ltac loading_cases :=
  unfold loadingTick, Math_random; cbv zeta;
  destruct (Qle_bool 100 _); cbv beta iota zeta;
  repeat match goal with
         | |- context [if ?b then _ else _] => destruct b
         end.

Lemma loadingTick_frame (i : nat) (w : World Callback) (s : State) :
  hyd (snd (loadingTick i (w, s))) = hyd s /\
  componentCreated (snd (loadingTick i (w, s))) = componentCreated s.
Proof. loading_cases; split; reflexivity. Qed.

Lemma loadingTick_table (i : nat) (w : World Callback) (s : State) :
  cl i ->
  evolves (plain ssrDemo cl) cl (timers w) (timers (fst (loadingTick i (w, s)))).
Proof.
  intros Hi. loading_cases; simpl; first [apply ev_same | apply ev_clear; exact Hi].
Qed.

Lemma ssrDemo_laws : Laws ssrDemo cl.
Proof.
  constructor.
  - intros cb [w s] Hcap Hheld. simpl in Hheld.
    destruct cb as [i | t0 | t0 | anims | | | |].
    + simpl in Hcap. inversion Hcap as [|? ? Hi _]; subst.
      split; [exact (loadingTick_table i w s Hi) |].
      split; [constructor | exact (proj2 (loadingTick_frame i w s))].
    + simpl. destruct (isBrowser s); tame_by_growth.
    + tame_by_growth.
    + tame_by_growth.
    + simpl. destruct (JsNumber.gtb _ _); tame_by_growth.
    + simpl. destruct (_ && _); tame_by_growth.
    + tame_by_growth.
    + tame_by_growth.
  - intros a [w s] Hheld. simpl in Hheld.
    destruct a; simpl.
    + tame_by_growth.
    + destruct (negb (showAnimations s)); tame_by_growth.
    + tame_by_growth.
    + destruct (showErrors s); tame_by_growth.
    + destruct (_ && _); tame_by_growth.
  - intros [w s] Hheld. tame_by_growth.
  - intros cb [w s].
    destruct cb as [i | t0 | t0 | anims | | | |];
      try (left; split; [discriminate | reflexivity]).
    + left. split; [discriminate |]. exact (proj1 (loadingTick_frame i w s)).
    + left. split; [discriminate |]. simpl. destruct (isBrowser s); reflexivity.
    + left. split; [discriminate |]. simpl. destruct (JsNumber.gtb _ _); reflexivity.
    + right. split; [reflexivity |]. simpl. destruct (_ && _); reflexivity.
  - intros a [w s]. destruct a; simpl; try reflexivity.
    + destruct (negb (showAnimations s)); reflexivity.
    + destruct (showErrors s); reflexivity.
    + destruct (_ && _); reflexivity.
  - intros [w s]. reflexivity.
Qed.

End SsrDemoLaws.

(* ===================================================================== *)
(** * Hydration tracking *)
(* ===================================================================== *)

Section PhaseOrder.
Import EventLoop Hydration Tracking.
Variable T : Tracker.
Hypothesis L : Laws T (fun _ => True).

(** The phases of a whole life are in order, once the three lifecycle
    calls are. *)
Lemma lifetime_sorted (w : World (Callback (comp T))) (t1 t2 : Z)
    (evs : list (event (Action (comp T)))) :
  phase_of T (created (comp T) w) = PServer ->
  phase_of T (attached (comp T) w t1 t2) = phase_of T (initialised (comp T) w t1) ->
  StronglySorted phase_le (List.map (phase_of T) (lifetime (comp T) w t1 t2 evs)).
Proof.
  intros Hc Ha. unfold lifetime. simpl List.map.
  pose proof (visited_phases_sorted T _ L evs (attached (comp T) w t1 t2)) as Hs.
  assert (Hs2 : StronglySorted phase_le
                  (phase_of T (initialised (comp T) w t1)
                     :: phase_of T (attached (comp T) w t1 t2)
                     :: List.map (phase_of T)
                          (visited (comp T) evs (attached (comp T) w t1 t2)))).
  { constructor; [exact Hs |].
    inversion Hs as [|? ? _ Hall]; subst.
    rewrite <- Ha. constructor; [unfold phase_le; lia | exact Hall]. }
  constructor; [exact Hs2 |].
  rewrite Hc. apply List.Forall_forall. intros p _. unfold phase_le. simpl. lia.
Qed.

(** Where no timer runs the hydration callback and the phase is
    [server], both stay so. *)
Lemma quiet_step (e : event (Action (comp T))) (cfg cfg' : Config (comp T)) :
  True ->
  no_mark T cfg /\ phase_of T cfg = PServer ->
  step (comp T) e cfg = Some cfg' ->
  no_mark T cfg' /\ phase_of T cfg' = PServer.
Proof.
  intros _ [Hn Hp] Hstep.
  assert (Hset : settled T (fun _ => True) cfg).
  { split; apply List.Forall_forall; intros; try apply List.Forall_forall; auto. }
  destruct (step_tame T _ L e cfg cfg') as [(Hev & _ & _) _];
    [destruct e; exact I | exact Hset | exact Hstep |].
  split.
  - revert Hn. unfold no_mark.
    apply (evolves_Forall _ _ (fun cb => cb <> mark T) _ _ (fun cb H => proj1 H) Hev).
  - destruct (step_signals T _ L e cfg cfg' Hstep)
      as [E | (h & t & tm & _ & Hin & Hm & _)].
    + unfold phase_of. rewrite E. exact Hp.
    + unfold no_mark in Hn. rewrite List.Forall_forall in Hn.
      exfalso. exact (Hn tm Hin Hm).
Qed.

Lemma quiet_life (w : World (Callback (comp T))) (t1 t2 : Z)
    (evs : list (event (Action (comp T)))) :
  (no_mark T (created (comp T) w) /\ phase_of T (created (comp T) w) = PServer) ->
  (no_mark T (initialised (comp T) w t1)
   /\ phase_of T (initialised (comp T) w t1) = PServer) ->
  (no_mark T (attached (comp T) w t1 t2)
   /\ phase_of T (attached (comp T) w t1 t2) = PServer) ->
  Forall (fun cfg => no_mark T cfg /\ phase_of T cfg = PServer)
    (lifetime (comp T) w t1 t2 evs).
Proof.
  intros Hc Hi Ha. unfold lifetime.
  repeat (constructor; [assumption |]).
  apply (visited_invariant (comp T) (fun _ => True) _ quiet_step).
  - apply List.Forall_forall. auto.
  - exact Ha.
Qed.

End PhaseOrder.

Section HydrationRuns.
Import EventLoop Hydration Tracking.
Variable T : Tracker.
Variable h : nat.
Hypothesis L : Laws T (fun x => x <> h).
Variable tm : timer (Callback (comp T)).
Variable t0 : Z.

Let pending (cfg : Config (comp T)) : Prop :=
  settled T (fun x => x <> h) cfg /\
  find_timer (comp T) h (fst cfg) = Some tm /\
  createdAt T (snd cfg) = t0.

Lemma pending_step (e : event (Action (comp T))) (cfg cfg' : Config (comp T)) :
  match e with Fire h' _ => h' <> h | _ => True end ->
  pending cfg -> step (comp T) e cfg = Some cfg' -> pending cfg'.
Proof.
  intros He (Hs & Hf & Hc) Hstep.
  destruct (step_tame T _ L e cfg cfg' He Hs Hstep) as [(Hev & _ & Hc') Hs'].
  split; [exact Hs' |]. split; [| congruence].
  unfold find_timer in *.
  apply (evolves_find (plain T (fun x => x <> h)) (fun x => x <> h)
           _ _ h tm (fun H => H eq_refl) Hev Hf).
Qed.

(** The hydration timer stays pending until the event loop runs it,
    and then the signals are those of a hydrated view. *)
Lemma hydration_runs (cfg1 cfg2 : Config (comp T))
    (evs : list (event (Action (comp T)))) (t : Z) :
  callback tm = mark T ->
  pending cfg1 ->
  not_fired (comp T) h evs ->
  exec (comp T) evs cfg1 = Some cfg2 ->
  due tm <= t -> clock (fst cfg2) <= t ->
  exists cfg3,
    step (comp T) (Fire h t) cfg2 = Some cfg3 /\
    signals T (snd cfg3) = MkSignals true (Some t) (Some (t - t0)) PHydrated.
Proof.
  intros Hm Hp Hn Hx Hd Hc.
  assert (Hp2 : pending cfg2).
  { revert Hn Hp Hx.
    apply (exec_invariant (comp T)
             (fun e => match e with Fire h' _ => h' <> h | _ => True end)
             pending pending_step). }
  destruct Hp2 as (_ & Hf & Hc0).
  exists (fire (comp T) tm t cfg2). split.
  - apply step_fire; assumption.
  - unfold fire.
    destruct (law_run_signals T _ L (callback tm)
                (set_timers (rearm tm t (timers (fst cfg2))) (set_clock t (fst cfg2)),
                 snd cfg2)) as [[Hne _] | [_ H]]; [contradiction |].
    rewrite H. simpl. rewrite Hc0. reflexivity.
Qed.

End HydrationRuns.

Section HydrationClaims.
Import EventLoop Hydration Tracking.

(** C6. In every execution of a hydration-tracking component, on the
    server and in the browser, the phase never moves backwards: over
    the whole life of the view (field initialisers, [ngOnInit],
    [ngAfterViewInit], and every later timer, bound event and
    tear-down) each phase is followed only by phases that come no
    earlier in the order server, loading, hydrated. *)
Theorem hydration_phase_never_regresses :
  Forall
    (fun T =>
       forall (e : Env) (t0 : Z) (r : nat -> Q) (t1 t2 : Z)
              (evs : list (event (Action (comp T)))),
         StronglySorted phase_le
           (List.map (phase_of T)
              (lifetime (comp T) (boot_world e t0 r) t1 t2 evs)))
    trackers.
Proof.
  unfold trackers.
  constructor; [| constructor; [| constructor; [| constructor; [| constructor]]]];
    intros e t0 r t1 t2 evs;
    (apply lifetime_sorted;
     [ first [ apply home_laws | apply products_laws
             | apply reports_laws | apply ssrDemo_laws ]
     | reflexivity
     | destruct e; reflexivity ]).
Qed.

Ltac quiet_config :=
  split; [unfold no_mark; simpl; repeat constructor; discriminate | reflexivity].

Ltac browser_runs T T_laws hh :=
  intros t0 r t1 t2; exists hh; split; [reflexivity |];
  intros evs cfg2 t Hn Hx Hd Hc;
  eapply (hydration_runs T hh (T_laws _) (Timer hh (t2 + 100) None (mark T))
            t0 (attached (comp T) (boot_world Browser t0 r) t1 t2) cfg2 evs t);
  [ reflexivity
  | split; [split; simpl;
              repeat first [ apply List.Forall_nil
                           | apply List.Forall_cons; simpl
                           | lia ]
           | split; reflexivity]
  | exact Hn | exact Hx | exact Hd | exact Hc ].

(** C7. For every hydration-tracking component: on the server no timer
    ever runs the hydration callback and the phase stays [server]
    through the whole life of the view; in the browser
    [ngAfterViewInit] leaves a one-shot timer due 100 ms later that
    runs the hydration callback, the timer stays pending until the
    event loop runs it, and when it runs at time [t] the signals are
    [isHydrated = true], [hydrationTime = t], [hydrationDuration = t -
    componentCreated] and [hydrationPhase = hydrated]. *)
Theorem hydration_callback_by_environment :
  Forall
    (fun T =>
       (forall (t0 : Z) (r : nat -> Q) (t1 t2 : Z)
               (evs : list (event (Action (comp T)))),
          Forall (fun cfg => no_mark T cfg /\ phase_of T cfg = PServer)
            (lifetime (comp T) (boot_world Server t0 r) t1 t2 evs)) /\
       (forall (t0 : Z) (r : nat -> Q) (t1 t2 : Z),
          exists h,
            find_timer (comp T) h
              (fst (attached (comp T) (boot_world Browser t0 r) t1 t2))
            = Some (Timer h (t2 + 100) None (mark T)) /\
            forall evs cfg2 t,
              not_fired (comp T) h evs ->
              exec (comp T) evs (attached (comp T) (boot_world Browser t0 r) t1 t2)
              = Some cfg2 ->
              t2 + 100 <= t -> clock (fst cfg2) <= t ->
              exists cfg3,
                step (comp T) (Fire h t) cfg2 = Some cfg3 /\
                signals T (snd cfg3)
                = MkSignals true (Some t) (Some (t - t0)) PHydrated))
    trackers.
Proof.
  unfold trackers.
  constructor; [| constructor; [| constructor; [| constructor; [| constructor]]]];
    split.
  - intros t0 r t1 t2 evs.
    apply quiet_life; [apply home_laws | quiet_config ..].
  - browser_runs home home_laws 2%nat.
  - intros t0 r t1 t2 evs.
    apply quiet_life; [apply products_laws | quiet_config ..].
  - browser_runs products products_laws 6%nat.
  - intros t0 r t1 t2 evs.
    apply quiet_life; [apply reports_laws | quiet_config ..].
  - browser_runs reports reports_laws 5%nat.
  - intros t0 r t1 t2 evs.
    apply quiet_life; [apply ssrDemo_laws | quiet_config ..].
  - browser_runs ssrDemo ssrDemo_laws 4%nat.
Qed.

(** A browser life of the home view, with the hydration timer run 112 ms
    after creation, and a server life in which only time passes. *)
Example home_browser_life :
  List.map (phase_of home)
    (lifetime Home.component (boot_world Browser 1000 (fun _ => 0%Q)) 1002 1010
       [Fire 1 2002; Fire 2 2112; Destroy])
  = [PServer; PLoading; PLoading; PLoading; PHydrated; PHydrated] /\
  List.map (fun cfg => Home.hyd (snd cfg))
    (visited Home.component [Fire 2 1112]
       (attached Home.component (boot_world Browser 1000 (fun _ => 0%Q)) 1002 1010))
  = [MkSignals true (Some 1112) (Some 112) PHydrated].
Proof. split; reflexivity. Qed.

Example home_server_life :
  List.map (phase_of home)
    (lifetime Home.component (boot_world Server 1000 (fun _ => 0%Q)) 1002 1010
       [Elapse 5000; Destroy])
  = [PServer; PServer; PServer; PServer; PServer].
Proof. reflexivity. Qed.

End HydrationClaims.

(* ===================================================================== *)
(** * ReportsComponent: the live metrics *)
(* ===================================================================== *)

Section NumberFacts.
Import JsNumber.
Local Open Scope Q_scope.

Lemma gtb_lt (x y : Q) : gtb x y = true <-> y < x.
Proof.
  unfold gtb. rewrite negb_true_iff. split.
  - intros H. apply Qnot_le_lt. intros Hle.
    apply Qle_bool_iff in Hle. congruence.
  - intros H. destruct (Qle_bool x y) eqn:E; [| reflexivity].
    apply Qle_bool_iff in E. exfalso. exact (Qlt_not_le _ _ H E).
Qed.

Lemma ltb_lt (x y : Q) : ltb x y = true <-> x < y.
Proof. unfold ltb. apply (gtb_lt y x). Qed.

Lemma clamp_bounds (lo hi x : Q) :
  lo <= hi -> lo <= Math_max lo (Math_min hi x) <= hi.
Proof.
  intros H. unfold Math_max, Math_min. split.
  - apply Q.le_max_l.
  - apply Q.max_lub; [exact H | apply Q.le_min_l].
Qed.


End NumberFacts.

Section LiveMetrics.
Import EventLoop JsNumber Reports.
Local Open Scope Q_scope.







(** The first tick after the metrics were loaded, with deltas +4, -4,
    +4, ...: the two metrics that start above 100 are cut down to 100. *)
Example first_live_tick :
  let r := fun n : nat => if Nat.even n then 9 # 10 else 1 # 10 in
  let cfg := run DataLoaded (attached component (boot_world Browser 0 r) 0 0) in
  List.map (fun m => (Qred (value m), trend m))
    (liveMetrics (snd (run LiveTick cfg)))
  = [ (49, Up); (58, Down); (32, Up); (100, Down); (100, Up); (0, Down) ].
Proof. reflexivity. Qed.

End LiveMetrics.

(* ===================================================================== *)
(** * Timers at tear-down *)
(* ===================================================================== *)

Section TearDown.
Import EventLoop.

(** C10. The destroy hooks do not cancel every timer. In the browser,
    after [ngOnInit], [ngAfterViewInit] and then [ngOnDestroy], the
    reports view has cleared [intervalId] and [realTimeIntervalId]
    (handles 2 and 3) but its 10 s connection-status interval is still
    active, next to the pending one-shot timers; the products view has
    cleared [intervalId] and [liveDataIntervalId] but its 15 s
    connection-status interval and its 10 s user-activity interval are
    still active. *)
Theorem destroy_leaves_intervals_active (t0 : Z) (r : nat -> Q) (t1 t2 : Z) :
  timers (fst (Reports.ngOnDestroy
                 (attached Reports.component (boot_world Browser t0 r) t1 t2)))
  = [ Timer 1 (t1 + 800) None Reports.DataLoaded;
      Timer 4 (t1 + 10000) (Some 10000) Reports.ConnectionTick;
      Timer 5 (t2 + 100) None Reports.MarkAsHydrated ] /\
  timers (fst (Products.ngOnDestroy
                 (attached Products.component (boot_world Browser t0 r) t1 t2)))
  = [ Timer 1 (t1 + 800) None Products.ProductsLoaded;
      Timer 4 (t1 + 15000) (Some 15000) Products.ConnectionTick;
      Timer 5 (t1 + 10000) (Some 10000) Products.UserActivity;
      Timer 6 (t2 + 100) None Products.MarkAsHydrated ].
Proof. split; reflexivity. Qed.

End TearDown.

(* ===================================================================== *)
(** * Timer tables with distinct handles *)
(* ===================================================================== *)

Section DistinctHandles.
Import EventLoop Handles.
Context {C : Type}.
Implicit Types (w : World C) (tm : timer C) (ts : list (timer C)).

Lemma handle_inj ts a b :
  NoDup (List.map handle ts) -> In a ts -> In b ts -> handle a = handle b -> a = b.
Proof.
  induction ts as [|x r IH]; simpl; intros Hnd Ha Hb Heq; [contradiction |].
  apply NoDup_cons in Hnd. destruct Hnd as [Hx Hr].
  destruct Ha as [-> | Ha], Hb as [-> | Hb]; auto.
  - exfalso. apply Hx. rewrite Heq. apply list_elem_of_In, in_map. exact Hb.
  - exfalso. apply Hx. rewrite <- Heq. apply list_elem_of_In, in_map. exact Ha.
Qed.

Lemma map_handle_rearm_interval tm t p ts :
  List.map handle
    (List.map (fun x => if has_handle (handle tm) x
                        then Timer (handle tm) (t + p) (Some p) (callback tm)
                        else x) ts)
  = List.map handle ts.
Proof.
  induction ts as [|x r IH]; simpl; [reflexivity |]. rewrite IH. f_equal.
  destruct (has_handle (handle tm) x) eqn:E; [| reflexivity].
  apply has_handle_true in E. simpl. congruence.
Qed.

Lemma NoDup_handle_filter (f : timer C -> bool) ts :
  NoDup (List.map handle ts) -> NoDup (List.map handle (List.filter f ts)).
Proof.
  induction ts as [|x r IH]; simpl; intros Hnd; [constructor |].
  apply NoDup_cons in Hnd. destruct Hnd as [Hx Hr].
  destruct (f x); simpl; [| auto].
  apply NoDup_cons. split; [| auto].
  intros Hin. apply Hx. apply list_elem_of_In in Hin. apply list_elem_of_In.
  apply in_map_iff in Hin. destruct Hin as (y & Hy & Hin).
  apply filter_In in Hin. destruct Hin as [Hin _].
  apply in_map_iff. exists y. auto.
Qed.

Lemma distinct_boot e t0 r : distinct (C := C) (boot_world e t0 r).
Proof. split; constructor. Qed.

Lemma distinct_add_timer w p cb d :
  distinct w -> distinct (snd (add_timer p cb d w)).
Proof.
  intros [Hnd Hf]. split; [| apply handles_fresh_add_timer; exact Hf].
  simpl. rewrite map_app. apply NoDup_app. split; [exact Hnd |].
  split; [| simpl; apply NoDup_singleton].
  intros x Hx Hx'. simpl in Hx'. apply list_elem_of_singleton in Hx'. subst x.
  apply list_elem_of_In, in_map_iff in Hx. destruct Hx as (y & Hy & Hin).
  unfold handles_fresh in Hf. rewrite List.Forall_forall in Hf.
  specialize (Hf y Hin). lia.
Qed.

Lemma distinct_rearm w tm t :
  In tm (timers w) -> distinct w ->
  distinct (set_timers (rearm tm t (timers w)) (set_clock t w)).
Proof.
  intros Hin [Hnd Hf]. split; [| apply handles_fresh_rearm; assumption].
  simpl. unfold rearm. destruct (period tm) as [p|].
  - rewrite map_handle_rearm_interval. exact Hnd.
  - apply NoDup_handle_filter. exact Hnd.
Qed.

(** Running one timer leaves the timers of every other closure in the
    table. *)
Lemma rearm_keeps_other (P : C -> Prop) tm t ts :
  NoDup (List.map handle ts) -> In tm ts -> ~ P (callback tm) ->
  Exists (fun x => P (callback x)) ts ->
  Exists (fun x => P (callback x)) (rearm tm t ts).
Proof.
  intros Hnd Hin Hno Hex.
  apply List.Exists_exists in Hex. destruct Hex as (y & Hy & Py).
  assert (Hne : has_handle (handle tm) y = false).
  { apply has_handle_false. intros E.
    assert (y = tm) by (apply (handle_inj ts); assumption).
    subst y. contradiction. }
  apply List.Exists_exists. exists y. split; [| exact Py].
  unfold rearm. destruct (period tm) as [p|].
  - apply in_map_iff. exists y. rewrite Hne. auto.
  - apply filter_In. rewrite Hne. auto.
Qed.

End DistinctHandles.

(* ===================================================================== *)
(** * Further properties of ContactComponent *)
(* ===================================================================== *)

Section ContactExtras.
Import JsString RegExp EventLoop Contact ContactView.

Lemma count_occ_absent (x : N) (l : list N) :
  Forall (fun c => c <> x) l -> count_occ N.eq_dec l x = 0%nat.
Proof.
  intros H. induction H as [|c r Hc _ IH]; simpl; [reflexivity |].
  destruct (N.eq_dec c x); [contradiction | exact IH].
Qed.

Lemma not_space_at_spec (c : N) :
  not_space_at c = true <-> isWhiteSpace c = false /\ c <> 64%N.
Proof.
  unfold not_space_at. rewrite negb_true_iff, orb_false_iff, N.eqb_neq. tauto.
Qed.

(** X1. [emailRegex.test(v)] is true exactly for the strings
    [a ++ "@" ++ b ++ "." ++ c] whose parts [a], [b], [c] are not empty
    and hold neither white space nor ["@"]; such a string holds no white
    space at all and exactly one ["@"]. *)
Theorem email_pattern_accepts (v : jsstring) :
  (test emailRegex v = true <->
   exists a b c,
     v = a ++ [64%N] ++ b ++ [46%N] ++ c /\
     a <> [] /\ b <> [] /\ c <> [] /\
     Forall (fun x => not_space_at x = true) (a ++ b ++ c)) /\
  (test emailRegex v = true ->
   Forall (fun x => isWhiteSpace x = false) v /\
   count_occ N.eq_dec v 64%N = 1%nat).
Proof.
  split; [apply emailRegex_shape |].
  intros H. apply emailRegex_shape in H.
  destruct H as (a & b & c & -> & _ & _ & _ & Hall).
  rewrite !Forall_app in Hall. destruct Hall as (Fa & Fb & Fc).
  assert (Hws : forall l, Forall (fun x => not_space_at x = true) l ->
                          Forall (fun x => isWhiteSpace x = false) l).
  { intros l. apply List.Forall_impl. intros x Hx.
    apply not_space_at_spec in Hx. tauto. }
  assert (Hat : forall l, Forall (fun x => not_space_at x = true) l ->
                          count_occ N.eq_dec l 64%N = 0%nat).
  { intros l Hl. apply count_occ_absent. revert Hl.
    apply List.Forall_impl. intros x Hx. apply not_space_at_spec in Hx. tauto. }
  split.
  - rewrite !Forall_app. repeat split; auto; repeat constructor.
  - rewrite !count_occ_app, (Hat a Fa), (Hat b Fb), (Hat c Fc). reflexivity.
Qed.

(** X6. [validateField] writes nothing but the entry of its own field,
    and validating the same value once more changes nothing. *)
Theorem validateField_local_idempotent (f : Field) (v : jsstring) (s : State) :
  (forall g, g <> f ->
     csrErrors (validateField f v s) !! g = csrErrors s !! g) /\
  validateField f v s = set_csrErrors (csrErrors (validateField f v s)) s /\
  validateField f v (validateField f v s) = validateField f v s.
Proof.
  split; [| split].
  - intros g Hg. apply validateField_other. congruence.
  - reflexivity.
  - unfold validateField; destruct f; simpl;
      repeat match goal with |- context [if ?b then _ else _] => destruct b end;
      unfold set_csrErrors; simpl; f_equal;
      first [ apply insert_insert_eq | apply delete_delete_eq ].
Qed.

Lemma update_other_field (f g : Field) (d : ContactForm) (v : jsstring) :
  f <> g ->
  field_value g
    (match f with
     | FName => MkForm v (email d) (subject d) (message d) (newsletter d)
     | FEmail => MkForm (name d) v (subject d) (message d) (newsletter d)
     | FSubject => MkForm (name d) (email d) v (message d) (newsletter d)
     | FMessage => MkForm (name d) (email d) (subject d) v (newsletter d)
     end) = field_value g d.
Proof. destruct f, g; intros H; try reflexivity; congruence. Qed.

(** Setting a field of the validated form and validating it keeps the
    error map sound. *)
Lemma updateCSR_sound (f : Field) (v : jsstring) (s : State) (d' : ContactForm) :
  field_value f d' = v ->
  (forall g, f <> g -> field_value g d' = field_value g (csrFormData s)) ->
  errors_sound s ->
  errors_sound (validateField f v (set_csrFormData d' s)).
Proof.
  intros Hv Hother Hs g Hg.
  change (csrFormData (validateField f v (set_csrFormData d' s))) with d'.
  destruct (decide (f = g)) as [<- | Hne].
  - rewrite Hv. apply validateField_entry in Hg. exact Hg.
  - rewrite validateField_other in Hg by exact Hne.
    rewrite (Hother g Hne). apply Hs. exact Hg.
Qed.

Lemma contact_step_sound (e : event Action) (cfg cfg' : Config component) :
  True -> errors_sound (snd cfg) -> step component e cfg = Some cfg' ->
  errors_sound (snd cfg').
Proof.
  intros _ Hs Hstep. apply step_inv in Hstep.
  destruct e as [h t | t | a |].
  - destruct Hstep as (tm & _ & _ & _ & _ & ->).
    unfold fire. change (EventLoop.run component) with Contact.run.
    unfold Contact.run. destruct (callback tm); simpl.
    + exact Hs.
    + intros g Hg. simpl in Hg. rewrite lookup_empty in Hg.
      destruct Hg; discriminate.
  - destruct Hstep as [_ ->]. exact Hs.
  - subst cfg'. change (EventLoop.act component) with Contact.act.
    destruct cfg as [w s]. simpl in Hs.
    destruct a; try exact Hs.
    + unfold Contact.act, onSubmit. destruct (isServer s); exact Hs.
    + apply (updateCSR_sound FName); try reflexivity; [| exact Hs].
      intros g Hg. destruct g; try reflexivity; congruence.
    + apply (updateCSR_sound FEmail); try reflexivity; [| exact Hs].
      intros g Hg. destruct g; try reflexivity; congruence.
    + apply (updateCSR_sound FSubject); try reflexivity; [| exact Hs].
      intros g Hg. destruct g; try reflexivity; congruence.
    + apply (updateCSR_sound FMessage); try reflexivity; [| exact Hs].
      intros g Hg. destruct g; try reflexivity; congruence.
    + assert (Hv : errors_sound (validateAll s)).
      { intros g Hg. apply validateAll_entry in Hg. exact Hg. }
      unfold Contact.act, onCSRSubmit. cbv zeta.
      destruct (0 <? size (csrErrors (validateAll s)))%nat; exact Hv.
  - subst cfg'. exact Hs.
Qed.

(** X2. Through the whole life of a contact view, an entry of the error
    map is only ever there for a field whose present value breaks its
    rule: no message outlives the mistake it reports. *)
Theorem contact_errors_sound (e : Env) (t0 : Z) (r : nat -> Q)
    (evs : list (event Action)) :
  Forall (fun cfg => errors_sound (snd cfg))
    (construct (boot_world e t0 r)
       :: visited component evs (construct (boot_world e t0 r))).
Proof.
  assert (H0 : errors_sound (snd (construct (boot_world e t0 r)))).
  { intros g Hg. simpl in Hg. rewrite lookup_empty in Hg. destruct Hg; discriminate. }
  constructor; [exact H0 |].
  apply (visited_invariant component (fun _ => True) _ contact_step_sound).
  - apply List.Forall_forall. auto.
  - exact H0.
Qed.

Lemma contact_step_sticky (e : event Action) (cfg cfg' : Config component) :
  step component e cfg = Some cfg' ->
  (submitSuccess (snd cfg) = true -> submitSuccess (snd cfg') = true) /\
  (csrSubmitSuccess (snd cfg) = true -> csrSubmitSuccess (snd cfg') = true).
Proof.
  intros Hstep. apply step_inv in Hstep.
  destruct e as [h t | t | a |].
  - destruct Hstep as (tm & _ & _ & _ & _ & ->).
    unfold fire. change (EventLoop.run component) with Contact.run.
    unfold Contact.run. destruct (callback tm); simpl; auto.
  - destruct Hstep as [_ ->]. auto.
  - subst cfg'. change (EventLoop.act component) with Contact.act.
    destruct cfg as [w s].
    destruct a;
      first
        [ solve [ unfold Contact.act, onCSRSubmit; cbv zeta;
                  destruct (0 <? size (csrErrors (validateAll s)))%nat;
                  simpl; auto ]
        | solve [ unfold Contact.act, onSubmit; destruct (isServer s); simpl; auto ]
        | solve [ simpl; auto ] ].
  - subst cfg'. auto.
Qed.

(** X3. Nothing ever sets a success flag back to false: from a
    configuration in which [submitSuccess] (or [csrSubmitSuccess]) is
    true, it is true in every configuration that follows, also after a
    later submission that is rejected. *)
Theorem success_flags_never_reset (evs : list (event Action))
    (cfg : Config component) :
  Forall
    (fun cfg' =>
       (submitSuccess (snd cfg) = true -> submitSuccess (snd cfg') = true) /\
       (csrSubmitSuccess (snd cfg) = true -> csrSubmitSuccess (snd cfg') = true))
    (visited component evs cfg).
Proof.
  apply (visited_invariant component (fun _ => True)
           (fun cfg' =>
              (submitSuccess (snd cfg) = true -> submitSuccess (snd cfg') = true) /\
              (csrSubmitSuccess (snd cfg) = true -> csrSubmitSuccess (snd cfg') = true))).
  - intros e c1 c2 _ [H1 H2] Hs.
    destruct (contact_step_sticky e c1 c2 Hs) as [K1 K2]. auto.
  - apply List.Forall_forall. auto.
  - auto.
Qed.

(** X4. The two forms are independent: no binding and no timer of the
    basic form changes a signal of the validated form, and no binding
    and no timer of the validated form changes a signal of the basic
    form. *)
Theorem form_slices_independent :
  (forall a cfg, on_basic_form a = true ->
     validated_slice (snd (act a cfg)) = validated_slice (snd cfg)) /\
  (forall a cfg, on_basic_form a = false ->
     basic_slice (snd (act a cfg)) = basic_slice (snd cfg)) /\
  (forall cb cfg, for_basic_form cb = true ->
     validated_slice (snd (run cb cfg)) = validated_slice (snd cfg)) /\
  (forall cb cfg, for_basic_form cb = false ->
     basic_slice (snd (run cb cfg)) = basic_slice (snd cfg)).
Proof.
  repeat split.
  - intros a [w s] Ha. destruct a; try discriminate; try reflexivity.
    unfold act, onSubmit. destruct (isServer s); reflexivity.
  - intros a [w s] Ha. destruct a; try discriminate; try reflexivity.
    unfold act, onCSRSubmit. cbv zeta.
    destruct (0 <? size (csrErrors (validateAll s)))%nat; reflexivity.
  - intros cb [w s] Hc. destruct cb; [reflexivity | discriminate].
  - intros cb [w s] Hc. destruct cb; [discriminate | reflexivity].
Qed.

Lemma pending_after_add (cb cb' : Callback) (p : option Z) (d : Z)
    (w : World Callback) :
  pending cb w -> pending cb (snd (add_timer p cb' d w)).
Proof.
  unfold pending. simpl. intros H. apply Exists_app. left. exact H.
Qed.

Lemma pending_new (cb : Callback) (p : option Z) (d : Z) (w : World Callback) :
  pending cb (snd (add_timer p cb d w)).
Proof.
  unfold pending. simpl. apply Exists_app. right. constructor. reflexivity.
Qed.

Lemma contact_step_backed (e : event Action) (cfg cfg' : Config component) :
  True ->
  Handles.distinct (fst cfg) /\ flags_backed cfg ->
  step component e cfg = Some cfg' ->
  Handles.distinct (fst cfg') /\ flags_backed cfg'.
Proof.
  intros _ [Hd [Hb1 Hb2]] Hstep. apply step_inv in Hstep.
  destruct e as [h t | t | a |].
  - destruct Hstep as (tm & Hfind & _ & _ & _ & ->).
    apply List.find_some in Hfind. destruct Hfind as [Hin _].
    pose proof (distinct_rearm (fst cfg) tm t Hin Hd) as Hd'.
    unfold fire. change (EventLoop.run component) with Contact.run.
    unfold Contact.run. destruct (callback tm) eqn:Hcb.
    + split; [exact Hd' |]. split; [discriminate |].
      intros H. simpl in H. specialize (Hb2 H). unfold pending in *. simpl.
      apply (rearm_keeps_other (fun cb => cb = CsrSubmitted));
        [exact (proj1 Hd) | exact Hin | intros E; discriminate (eq_trans (eq_sym Hcb) E) | exact Hb2].
    + split; [exact Hd' |]. split; [| discriminate].
      intros H. simpl in H. specialize (Hb1 H). unfold pending in *. simpl.
      apply (rearm_keeps_other (fun cb => cb = SsrSubmitted));
        [exact (proj1 Hd) | exact Hin | intros E; discriminate (eq_trans (eq_sym Hcb) E) | exact Hb1].
  - destruct Hstep as [_ ->]. split; [exact Hd | split; assumption].
  - subst cfg'. change (EventLoop.act component) with Contact.act.
    destruct cfg as [w s]. simpl in Hd, Hb1, Hb2.
    destruct a;
      try (split; [exact Hd | split; assumption]).
    + unfold Contact.act, onSubmit. destruct (isServer s).
      * split; [exact Hd | split; assumption].
      * split; [apply distinct_add_timer; exact Hd |]. split.
        -- intros _. apply pending_new.
        -- intros H. apply pending_after_add. apply Hb2. exact H.
    + unfold Contact.act, onCSRSubmit. cbv zeta.
      destruct (0 <? size (csrErrors (validateAll s)))%nat.
      * split; [exact Hd | split; assumption].
      * split; [apply distinct_add_timer; exact Hd |]. split.
        -- intros H. apply pending_after_add. apply Hb1. exact H.
        -- intros _. apply pending_new.
  - subst cfg'. split; [exact Hd | split; assumption].
Qed.

(** X5. A submitting flag never sticks: through the whole life of a
    contact view, whenever [isSubmitting] is true a timer that runs the
    basic form's completion is pending, and whenever [isCSRSubmitting]
    is true a timer that runs the validated form's completion is
    pending. *)
Theorem submitting_flags_backed (e : Env) (t0 : Z) (r : nat -> Q)
    (evs : list (event Action)) :
  Forall flags_backed
    (construct (boot_world e t0 r)
       :: visited component evs (construct (boot_world e t0 r))).
Proof.
  assert (H0 : Handles.distinct (fst (construct (boot_world e t0 r)))
               /\ flags_backed (construct (boot_world e t0 r))).
  { split; [apply distinct_boot | split; discriminate]. }
  constructor; [exact (proj2 H0) |].
  pose proof (visited_invariant component (fun _ => True) _ contact_step_backed
                evs (construct (boot_world e t0 r))) as H.
  eapply List.Forall_impl; [| apply H].
  - intros c Hc. exact (proj2 Hc).
  - apply List.Forall_forall. auto.
  - exact H0.
Qed.

End ContactExtras.

(* ===================================================================== *)
(** * The hydration indicator *)
(* ===================================================================== *)

Section IndicatorFacts.
Import EventLoop Hydration Tracking Indicator.
Variable V : View.
Hypothesis L : Laws (tracker V) (fun _ => True).
Hypothesis F : FlagLaws V.

Lemma step_flag (e : event (Action (comp (tracker V))))
    (cfg cfg' : Config (comp (tracker V))) :
  step (comp (tracker V)) e cfg = Some cfg' ->
  isServer V (snd cfg') = isServer V (snd cfg).
Proof.
  intros Hstep. apply step_inv in Hstep.
  destruct e as [h t | t | a |].
  - destruct Hstep as (tm & _ & _ & _ & _ & ->). unfold fire.
    rewrite (flag_run V F). reflexivity.
  - destruct Hstep as [_ ->]. reflexivity.
  - subst cfg'. apply (flag_act V F).
  - subst cfg'. apply (flag_destroy V F).
Qed.

Lemma coherent_step (e : event (Action (comp (tracker V))))
    (cfg cfg' : Config (comp (tracker V))) :
  True -> coherent V cfg -> step (comp (tracker V)) e cfg = Some cfg' ->
  coherent V cfg'.
Proof.
  intros _ Hc Hstep. unfold coherent in *. cbv zeta in *.
  rewrite (step_flag e cfg cfg' Hstep).
  destruct Hc as [(Hs & Hh & Hp & Hn) | (Hs & Hb)].
  - left.
    destruct (quiet_step (tracker V) L e cfg cfg' I (conj Hn Hp) Hstep) as [Hn' Hp'].
    destruct (step_signals (tracker V) _ L e cfg cfg' Hstep)
      as [E | (h & t & tm & _ & Hin & Hm & _)].
    + rewrite E. auto.
    + unfold no_mark in Hn. rewrite List.Forall_forall in Hn.
      exfalso. exact (Hn tm Hin Hm).
  - right. split; [exact Hs |].
    destruct (step_signals (tracker V) _ L e cfg cfg' Hstep)
      as [E | (h & t & tm & _ & _ & _ & E)]; rewrite E.
    + exact Hb.
    + right. split; reflexivity.
Qed.

Lemma coherent_shows (cfg : Config (comp (tracker V))) :
  coherent V cfg -> shows_phase V cfg.
Proof.
  unfold coherent, shows_phase, colour_of, message_of, phase_of,
    getHydrationColor, getHydrationMessage. cbv zeta.
  intros [(-> & _ & -> & _) | (-> & [[-> ->] | [-> ->]])]; split; reflexivity.
Qed.

Lemma indicator_life (w : World (Callback (comp (tracker V)))) (t1 t2 : Z)
    (evs : list (event (Action (comp (tracker V))))) :
  coherent V (initialised (comp (tracker V)) w t1) ->
  coherent V (attached (comp (tracker V)) w t1 t2) ->
  Forall (shows_phase V)
    (initialised (comp (tracker V)) w t1
       :: attached (comp (tracker V)) w t1 t2
       :: visited (comp (tracker V)) evs (attached (comp (tracker V)) w t1 t2)).
Proof.
  intros Hi Ha.
  constructor; [apply coherent_shows; exact Hi |].
  constructor; [apply coherent_shows; exact Ha |].
  eapply List.Forall_impl; [intros c; apply coherent_shows |].
  apply (visited_invariant _ (fun _ => True) _ coherent_step).
  - apply List.Forall_forall. auto.
  - exact Ha.
Qed.

End IndicatorFacts.

Section IndicatorClaims.
Import EventLoop Hydration Tracking Indicator.

Lemma home_flag_laws : FlagLaws (MkView home Home.isServer).
Proof.
  constructor.
  - intros cb [w s]. destruct cb; reflexivity.
  - intros a. destruct a.
  - intros [w s]. reflexivity.
Qed.

Lemma reports_flag_laws : FlagLaws (MkView reports Reports.isServer).
Proof.
  constructor.
  - intros cb [w s]. destruct cb; try reflexivity.
    change (EventLoop.run (comp (tracker (MkView reports Reports.isServer)))
              Reports.LiveTick)
      with (Reports.run Reports.LiveTick).
    rewrite run_LiveTick. reflexivity.
  - intros a [w s]. destruct a; reflexivity.
  - intros [w s]. reflexivity.
Qed.

Lemma products_flag_laws : FlagLaws (MkView products Products.isServer).
Proof.
  constructor.
  - intros cb [w s]. destruct cb; try reflexivity.
    + change (EventLoop.run (comp (tracker (MkView products Products.isServer)))
                Products.LiveDataTick)
        with (Products.run Products.LiveDataTick).
      rewrite run_LiveDataTick. reflexivity.
    + simpl. destruct (JsNumber.gtb _ _), (JsNumber.gtb _ _); reflexivity.
  - intros a [w s]. destruct a; reflexivity.
  - intros [w s]. reflexivity.
Qed.

Lemma loadingTick_isServer (i : nat) (w : World SsrDemo.Callback)
    (s : SsrDemo.State) :
  SsrDemo.isServer (snd (SsrDemo.loadingTick i (w, s))) = SsrDemo.isServer s.
Proof.
  unfold SsrDemo.loadingTick, Math_random. cbv zeta.
  destruct (Qle_bool 100 _); cbv beta iota zeta;
    repeat match goal with
           | |- context [if ?b then _ else _] => destruct b
           end; reflexivity.
Qed.

Lemma ssrDemo_flag_laws : FlagLaws (MkView ssrDemo SsrDemo.isServer).
Proof.
  constructor.
  - intros cb [w s].
    destruct cb as [i | t0 | t0 | anims | | | |]; try reflexivity.
    + apply loadingTick_isServer.
    + simpl. destruct (SsrDemo.isBrowser s); reflexivity.
    + simpl. destruct (JsNumber.gtb _ _); reflexivity.
    + simpl. destruct (_ && _); reflexivity.
  - intros a [w s]. destruct a; simpl; try reflexivity.
    + destruct (negb (SsrDemo.showAnimations s)); reflexivity.
    + destruct (SsrDemo.showErrors s); reflexivity.
    + destruct (_ && _); reflexivity.
  - intros [w s]. reflexivity.
Qed.

Ltac coherent_config e :=
  destruct e;
  [ left; repeat split; unfold no_mark; simpl; repeat constructor; discriminate
  | right; split; [reflexivity | left; split; reflexivity] ].

(** X7. In the home, products, reports and ssr-demo views, from
    [ngOnInit] on and through every later timer, bound event and
    tear-down, on the server and in the browser, [getHydrationColor]
    returns the name of the present [hydrationPhase], and
    [getHydrationMessage] the message that goes with it. *)
Theorem indicator_shows_phase :
  Forall
    (fun V =>
       forall (e : Env) (t0 : Z) (r : nat -> Q) (t1 t2 : Z)
              (evs : list (event (Action (comp (tracker V))))),
         Forall (shows_phase V)
           (initialised (comp (tracker V)) (boot_world e t0 r) t1
              :: attached (comp (tracker V)) (boot_world e t0 r) t1 t2
              :: visited (comp (tracker V)) evs
                   (attached (comp (tracker V)) (boot_world e t0 r) t1 t2)))
    views.
Proof.
  unfold views.
  constructor; [| constructor; [| constructor; [| constructor; [| constructor]]]];
    intros e t0 r t1 t2 evs.
  - apply indicator_life;
      [apply home_laws | apply home_flag_laws
      | coherent_config e | coherent_config e].
  - apply indicator_life;
      [apply products_laws | apply products_flag_laws
      | coherent_config e | coherent_config e].
  - apply indicator_life;
      [apply reports_laws | apply reports_flag_laws
      | coherent_config e | coherent_config e].
  - apply indicator_life;
      [apply ssrDemo_laws | apply ssrDemo_flag_laws
      | coherent_config e | coherent_config e].
Qed.

(** Before [ngOnInit] the indicator of a browser view is ahead of the
    phase signal: the phase still has its initial value. *)
Example indicator_before_init :
  colour_of (MkView home Home.isServer)
    (created Home.component (boot_world Browser 0 (fun _ => 0%Q))) = "loading" /\
  phase_of home (created Home.component (boot_world Browser 0 (fun _ => 0%Q)))
  = PServer.
Proof. split; reflexivity. Qed.

End IndicatorClaims.

(* ===================================================================== *)
(** * Hydration happens once *)
(* ===================================================================== *)

Section HydratedOnce.
Import EventLoop Hydration Tracking Indicator.
Variable T : Tracker.
Variable h : nat.
Hypothesis L : Laws T (fun _ => True).

Let one_shot (tm : timer (Callback (comp T))) : Prop :=
  callback tm = mark T -> handle tm = h /\ period tm = None.

Lemma all_true {A : Type} (l : list A) : Forall (fun _ => True) l.
Proof. apply List.Forall_forall. auto. Qed.

Lemma settled_always (cfg : Config (comp T)) : settled T (fun _ => True) cfg.
Proof.
  split; [apply all_true |].
  apply List.Forall_forall. intros tm _. apply all_true.
Qed.

Lemma one_shot_evolves (ts ts' : list (timer (Callback (comp T)))) :
  evolves (plain T (fun _ => True)) (fun _ => True) ts ts' ->
  Forall one_shot ts -> Forall one_shot ts'.
Proof.
  intros Hev. induction Hev as [ts | ts1 ts2 ts3 _ IH1 _ IH2
                                | ts tm Htm | ts x _ | ts tm t _ Hin]; intros Hall.
  - exact Hall.
  - auto.
  - apply Forall_app. split; [exact Hall |].
    constructor; [| constructor]. intros E. destruct Htm as [Hne _]. contradiction.
  - apply filter_Forall. exact Hall.
  - assert (Htm : one_shot tm).
    { rewrite List.Forall_forall in Hall. exact (Hall tm Hin). }
    unfold rearm. destruct (period tm) as [p|] eqn:Hp.
    + clear Hin. induction Hall as [|y r Hy _ IH]; simpl; [constructor |].
      constructor; [| exact IH].
      destruct (has_handle (handle tm) y); [| exact Hy].
      intros E. simpl in E. destruct (Htm E) as [_ Hnone]. congruence.
    + apply filter_Forall. exact Hall.
Qed.

Lemma one_shot_filtered (ts : list (timer (Callback (comp T)))) :
  Forall one_shot ts ->
  Forall (fun tm => callback tm <> mark T)
    (List.filter (fun x => negb (has_handle h x)) ts).
Proof.
  intros Hone. induction Hone as [|y r Hy _ IH]; simpl; [constructor |].
  destruct (has_handle h y) eqn:Ey; simpl; [exact IH |].
  constructor; [| exact IH].
  intros Ec. apply has_handle_false in Ey. destruct (Hy Ec) as [Hyh _].
  contradiction.
Qed.

Lemma no_mark_evolves (ts ts' : list (timer (Callback (comp T)))) :
  evolves (plain T (fun _ => True)) (fun _ => True) ts ts' ->
  Forall (fun tm => callback tm <> mark T) ts ->
  Forall (fun tm => callback tm <> mark T) ts'.
Proof.
  intros Hev.
  apply (evolves_Forall _ _ (fun cb => cb <> mark T) _ _ (fun cb H => proj1 H) Hev).
Qed.

Lemma once_step (e : event (Action (comp T))) (cfg cfg' : Config (comp T)) :
  True -> hydrated_once T h cfg -> step (comp T) e cfg = Some cfg' ->
  hydrated_once T h cfg'.
Proof.
  intros _ [Hone Hdone] Hstep. unfold hydrated_once, mark_only_at in *.
  pose proof (settled_always cfg) as Hset.
  destruct (step_tame T _ L e cfg cfg') as [(Hev & _ & _) _];
    [destruct e; exact I | exact Hset | exact Hstep |].
  split; [exact (one_shot_evolves _ _ Hev Hone) |].
  intros Hhyd. apply step_inv in Hstep.
  destruct e as [x t | t | a |].
  - destruct Hstep as (tm & Hfind & Hx & _ & _ & ->).
    apply List.find_some in Hfind. destruct Hfind as [Hin _].
    unfold fire in *.
    set (cfg0 := (set_timers (rearm tm t (timers (fst cfg))) (set_clock t (fst cfg)),
                  snd cfg)) in *.
    destruct (law_run T _ L (callback tm) cfg0 (all_true _) (all_true _))
      as (Hev0 & _ & _).
    destruct (law_run_signals T _ L (callback tm) cfg0) as [[_ E] | [Hm _]].
    + rewrite E in Hhyd. exact (no_mark_evolves _ _ Hev (Hdone Hhyd)).
    + apply (no_mark_evolves _ _ Hev0). simpl.
      assert (Htm : one_shot tm).
      { rewrite List.Forall_forall in Hone. exact (Hone tm Hin). }
      destruct (Htm Hm) as [Hh Hp]. unfold rearm. rewrite Hp, Hh.
      apply one_shot_filtered. exact Hone.
  - destruct Hstep as [_ ->]. exact (Hdone Hhyd).
  - subst cfg'. rewrite (law_act_signals T _ L) in Hhyd.
    exact (no_mark_evolves _ _ Hev (Hdone Hhyd)).
  - subst cfg'. rewrite (law_destroy_signals T _ L) in Hhyd.
    exact (no_mark_evolves _ _ Hev (Hdone Hhyd)).
Qed.

(** Without a timer for the hydration callback the signals are frozen. *)
Lemma frozen_step (sig : Signals) (e : event (Action (comp T)))
    (cfg cfg' : Config (comp T)) :
  True ->
  no_mark T cfg /\ signals T (snd cfg) = sig ->
  step (comp T) e cfg = Some cfg' ->
  no_mark T cfg' /\ signals T (snd cfg') = sig.
Proof.
  intros _ [Hn Hs] Hstep.
  pose proof (settled_always cfg) as Hset.
  destruct (step_tame T _ L e cfg cfg') as [(Hev & _ & _) _];
    [destruct e; exact I | exact Hset | exact Hstep |].
  split; [exact (no_mark_evolves _ _ Hev Hn) |].
  destruct (step_signals T _ L e cfg cfg' Hstep)
    as [E | (x & t & tm & _ & Hin & Hm & _)].
  - congruence.
  - unfold no_mark in Hn. rewrite List.Forall_forall in Hn.
    exfalso. exact (Hn tm Hin Hm).
Qed.

Lemma hydrated_for_good (cfg0 cfg : Config (comp T))
    (evs1 evs2 : list (event (Action (comp T)))) :
  hydrated_once T h cfg0 ->
  exec (comp T) evs1 cfg0 = Some cfg ->
  isHydrated (signals T (snd cfg)) = true ->
  no_mark T cfg /\
  Forall (fun c => signals T (snd c) = signals T (snd cfg))
    (visited (comp T) evs2 cfg).
Proof.
  intros H0 Hx Hhyd.
  assert (Hone : hydrated_once T h cfg).
  { revert Hx. apply (exec_invariant (comp T) (fun _ => True) _ once_step);
      [apply all_true | exact H0]. }
  destruct Hone as [_ Hdone]. specialize (Hdone Hhyd).
  split; [exact Hdone |].
  pose proof (visited_invariant (comp T) (fun _ => True) _
                (frozen_step (signals T (snd cfg))) evs2 cfg
                (all_true _) (conj Hdone eq_refl)) as Hv.
  revert Hv. apply List.Forall_impl. intros c Hc. exact (proj2 Hc).
Qed.

End HydratedOnce.

Section HydratedOnceClaim.
Import EventLoop Hydration Tracking Indicator.

Ltac one_shot_table :=
  split;
  [ unfold mark_only_at; simpl;
    repeat (apply List.Forall_cons;
            [ intros H; first [discriminate H | split; reflexivity] |]);
    apply List.Forall_nil
  | intros H; discriminate H ].

(** X8. Hydration completes at most once. In the home, products, reports
    and ssr-demo views, once [isHydrated] is true no timer is left that
    runs the hydration callback, and [isHydrated], [hydrationTime],
    [hydrationDuration] and [hydrationPhase] keep their values through
    everything that follows. *)
Theorem hydration_completes_once :
  Forall
    (fun T =>
       forall (e : Env) (t0 : Z) (r : nat -> Q) (t1 t2 : Z)
              (evs1 evs2 : list (event (Action (comp T)))) (cfg : Config (comp T)),
         exec (comp T) evs1 (attached (comp T) (boot_world e t0 r) t1 t2) = Some cfg ->
         isHydrated (signals T (snd cfg)) = true ->
         no_mark T cfg /\
         Forall (fun c => signals T (snd c) = signals T (snd cfg))
           (visited (comp T) evs2 cfg))
    trackers.
Proof.
  unfold trackers.
  constructor; [| constructor; [| constructor; [| constructor; [| constructor]]]];
    intros e t0 r t1 t2 evs1 evs2 cfg Hx Hh.
  - apply (hydrated_for_good home 2%nat (home_laws _)
             (attached (comp home) (boot_world e t0 r) t1 t2) cfg evs1 evs2);
      [destruct e; one_shot_table | exact Hx | exact Hh].
  - apply (hydrated_for_good products 6%nat (products_laws _)
             (attached (comp products) (boot_world e t0 r) t1 t2) cfg evs1 evs2);
      [destruct e; one_shot_table | exact Hx | exact Hh].
  - apply (hydrated_for_good reports 5%nat (reports_laws _)
             (attached (comp reports) (boot_world e t0 r) t1 t2) cfg evs1 evs2);
      [destruct e; one_shot_table | exact Hx | exact Hh].
  - apply (hydrated_for_good ssrDemo 4%nat (ssrDemo_laws _)
             (attached (comp ssrDemo) (boot_world e t0 r) t1 t2) cfg evs1 evs2);
      [destruct e; one_shot_table | exact Hx | exact Hh].
Qed.

Lemma hydration_completes_once_witness :
  exists cfg,
    exec Home.component [Fire 2 1112]
      (attached Home.component (boot_world Browser 1000 (fun _ => 0%Q)) 1002 1010)
    = Some cfg /\
    Forall (fun c => Home.hyd (snd c) = MkSignals true (Some 1112) (Some 112) PHydrated)
      (visited Home.component [Fire 1 2002; Destroy; Fire 1 3002] cfg).
Proof.
  eexists. split; [reflexivity |].
  exact (proj2 (List.Forall_inv hydration_completes_once
                  Browser 1000 (fun _ => 0%Q) 1002 1010 [Fire 2 1112]
                  [Fire 1 2002; Destroy; Fire 1 3002] _ eq_refl eq_refl)).
Defined.

End HydratedOnceClaim.

(* ===================================================================== *)
(** * Executions in two parts *)
(* ===================================================================== *)

Section ExecParts.
Import EventLoop.
Variable c : Component.

Lemma exec_app (evs1 evs2 : list (event (Action c))) (cfg cfg' : Config c) :
  exec c (evs1 ++ evs2) cfg = Some cfg' ->
  exists mid, exec c evs1 cfg = Some mid /\ exec c evs2 mid = Some cfg'.
Proof.
  revert cfg. induction evs1 as [|e r IH]; intros cfg; simpl.
  - intros H. exists cfg. auto.
  - destruct (step c e cfg) as [c1|]; [apply IH | discriminate].
Qed.

(** A property of handle and closure that holds for every timer of the
    table still holds after the event loop picked one of them. *)
Lemma rearm_Forall_handle (Q : nat -> Callback c -> Prop)
    (tm : timer (Callback c)) (t : Z) (ts : list (timer (Callback c))) :
  In tm ts ->
  Forall (fun x => Q (handle x) (callback x)) ts ->
  Forall (fun x => Q (handle x) (callback x)) (rearm tm t ts).
Proof.
  intros Hin Hall.
  assert (Htm : Q (handle tm) (callback tm)).
  { rewrite List.Forall_forall in Hall. exact (Hall tm Hin). }
  unfold rearm. destruct (period tm) as [p|].
  - clear Hin. induction Hall as [|y r Hy _ IH]; simpl; [constructor |].
    constructor; [| exact IH].
    destruct (has_handle (handle tm) y); [exact Htm | exact Hy].
  - apply filter_Forall. exact Hall.
Qed.

(** An invariant of the lifecycle calls and of every event holds through
    the whole life of a view. *)
Lemma lifetime_invariant (I : Config c -> Prop) (w : World (Callback c))
    (t1 t2 : Z) (evs : list (event (Action c))) :
  I (created c w) -> I (initialised c w t1) -> I (attached c w t1 t2) ->
  (forall e cfg cfg', True -> I cfg -> step c e cfg = Some cfg' -> I cfg') ->
  Forall I (lifetime c w t1 t2 evs).
Proof.
  intros Hc Hi Ha Hstep. unfold lifetime.
  repeat (constructor; [assumption |]).
  apply (visited_invariant c (fun _ => True) I Hstep).
  - apply List.Forall_forall. auto.
  - exact Ha.
Qed.

End ExecParts.

(* ===================================================================== *)
(** * Further properties of ReportsComponent *)
(* ===================================================================== *)

Section ReportsExtras.
Import EventLoop JsNumber Reports ReportsData.

(** No closure of the reports view starts or clears a timer, and none
    writes the two handle fields. *)
Lemma reports_run_frame (cb : Callback) (w : World Callback) (s : State) :
  timers (fst (run cb (w, s))) = timers w /\
  next_handle (fst (run cb (w, s))) = next_handle w /\
  intervalId (snd (run cb (w, s))) = intervalId s /\
  realTimeIntervalId (snd (run cb (w, s))) = realTimeIntervalId s.
Proof.
  destruct cb; try (repeat split; reflexivity).
  rewrite run_LiveTick.
  pose proof (mapMetrics_world (liveMetrics s) w) as E.
  destruct (mapMetrics (liveMetrics s) w) as [ms' w']. simpl in E. subst w'.
  repeat split; reflexivity.
Qed.

Lemma reports_run_wired (cb : Callback) (w : World Callback) (s : State) :
  feeds_wired (w, s) -> feeds_wired (run cb (w, s)).
Proof.
  destruct (reports_run_frame cb w s) as (Et & En & E1 & E2).
  unfold feeds_wired. rewrite Et, En, E1, E2. auto.
Qed.

Lemma reports_step_wired (e : event Action) (cfg cfg' : Config component) :
  True -> feeds_wired cfg -> step component e cfg = Some cfg' -> feeds_wired cfg'.
Proof.
  intros _ (Hw & Hz & Hn) Hstep. apply step_inv in Hstep.
  destruct e as [h t | t | a |].
  - destruct Hstep as (tm & Hfind & _ & _ & _ & ->).
    apply List.find_some in Hfind. destruct Hfind as [Hin _].
    destruct cfg as [w s]. cbv [fst snd] in *.
    apply (reports_run_wired (callback tm)
             (set_timers (rearm tm t (timers w)) (set_clock t w)) s).
    unfold feeds_wired. simpl. repeat split.
    + apply (rearm_Forall_handle component
               (fun hh cb => (cb = DashboardTick -> intervalId s = Some hh) /\
                             (cb = LiveTick -> realTimeIntervalId s = Some hh)));
        assumption.
    + apply (rearm_Forall_handle component (fun hh _ => hh <> 0%nat)); assumption.
    + exact Hn.
  - destruct Hstep as [_ ->]. repeat split; assumption.
  - subst cfg'. change (EventLoop.act component) with act.
    destruct cfg as [w s]. cbv [fst snd] in *. destruct a.
    + repeat split; assumption.
    + unfold feeds_wired. simpl. repeat split.
      * apply Forall_app. split; [exact Hw |].
        constructor; [split; discriminate | constructor].
      * apply Forall_app. split; [exact Hz |].
        constructor; [exact Hn | constructor].
      * lia.
  - subst cfg'. change (EventLoop.ngOnDestroy component) with ngOnDestroy.
    destruct cfg as [w s]. cbv [fst snd] in *.
    unfold feeds_wired, ngOnDestroy. cbv [fst snd].
    assert (Hk : forall (P : timer Callback -> Prop) id (w0 : World Callback),
               Forall P (timers w0) -> Forall P (timers (clear_if_set id w0))).
    { intros P id w0 H. destruct id as [x|]; simpl; [| exact H].
      destruct (x =? 0)%nat; [exact H |]. simpl. apply filter_Forall. exact H. }
    assert (Hnx : forall id (w0 : World Callback),
               next_handle (clear_if_set id w0) = next_handle w0).
    { intros id w0. destruct id as [x|]; simpl; [| reflexivity].
      destruct (x =? 0)%nat; reflexivity. }
    repeat split.
    + apply Hk, Hk. exact Hw.
    + apply Hk, Hk. exact Hz.
    + rewrite !Hnx. exact Hn.
Qed.

Lemma reports_destroy_stops (cfg : Config component) :
  feeds_wired cfg -> feeds_stopped (ngOnDestroy cfg).
Proof.
  destruct cfg as [w s]. intros (Hw & Hz & _). cbv [fst snd] in *.
  unfold feeds_stopped, ngOnDestroy. cbv [fst].
  apply List.Forall_forall. intros tm Hin.
  assert (Hin0 : In tm (timers w)).
  { destruct (intervalId s) as [a|], (realTimeIntervalId s) as [b|]; simpl in Hin;
      repeat match type of Hin with
             | context [if ?c then _ else _] => destruct c; simpl in Hin
             end;
      repeat (apply filter_In in Hin; destruct Hin as [Hin _]); exact Hin. }
  rewrite List.Forall_forall in Hw, Hz.
  destruct (Hw tm Hin0) as [H1 H2]. specialize (Hz tm Hin0).
  split; intros E.
  - specialize (H1 E). rewrite H1 in Hin. simpl in Hin.
    apply Nat.eqb_neq in Hz. rewrite Hz in Hin.
    assert (Hgone : handle tm <> handle tm).
    { destruct (realTimeIntervalId s) as [b|]; simpl in Hin.
      - destruct (b =? 0)%nat; simpl in Hin.
        + apply filter_In in Hin. destruct Hin as [_ Hb].
          apply negb_true_iff, has_handle_false in Hb. exact Hb.
        + apply filter_In in Hin. destruct Hin as [Hin _].
          apply filter_In in Hin. destruct Hin as [_ Hb].
          apply negb_true_iff, has_handle_false in Hb. exact Hb.
      - apply filter_In in Hin. destruct Hin as [_ Hb].
        apply negb_true_iff, has_handle_false in Hb. exact Hb. }
    congruence.
  - specialize (H2 E). rewrite H2 in Hin. simpl in Hin.
    assert (Hgone : handle tm <> handle tm).
    { apply Nat.eqb_neq in Hz.
      destruct (intervalId s) as [a|]; simpl in Hin.
      - destruct (a =? 0)%nat; simpl in Hin; rewrite Hz in Hin; simpl in Hin.
        + apply filter_In in Hin. destruct Hin as [_ Hb].
          apply negb_true_iff, has_handle_false in Hb. exact Hb.
        + apply filter_In in Hin. destruct Hin as [_ Hb].
          apply negb_true_iff, has_handle_false in Hb. exact Hb.
      - rewrite Hz in Hin. simpl in Hin.
        apply filter_In in Hin. destruct Hin as [_ Hb].
        apply negb_true_iff, has_handle_false in Hb. exact Hb. }
    congruence.
Qed.

Lemma reports_run_fed (cb : Callback) (w : World Callback) (s : State) :
  cb <> DashboardTick -> cb <> LiveTick -> fed (snd (run cb (w, s))) = fed s.
Proof. destruct cb; intros H1 H2; try reflexivity; contradiction. Qed.

Lemma reports_run_stopped (cb : Callback) (w : World Callback) (s : State) :
  feeds_stopped (w, s) -> feeds_stopped (run cb (w, s)).
Proof.
  destruct (reports_run_frame cb w s) as (Et & _).
  unfold feeds_stopped. rewrite Et. auto.
Qed.

Lemma reports_step_stopped (k : Z * Z * Z * Z) (e : event Action)
    (cfg cfg' : Config component) :
  True ->
  feeds_stopped cfg /\ fed (snd cfg) = k ->
  step component e cfg = Some cfg' ->
  feeds_stopped cfg' /\ fed (snd cfg') = k.
Proof.
  intros _ [Hs Hk] Hstep. apply step_inv in Hstep.
  destruct e as [h t | t | a |].
  - destruct Hstep as (tm & Hfind & _ & _ & _ & ->).
    apply List.find_some in Hfind. destruct Hfind as [Hin _].
    destruct cfg as [w s]. cbv [fst snd] in *.
    assert (Hcb : callback tm <> DashboardTick /\ callback tm <> LiveTick).
    { unfold feeds_stopped in Hs. rewrite List.Forall_forall in Hs.
      exact (Hs tm Hin). }
    split.
    + apply (reports_run_stopped (callback tm)
               (set_timers (rearm tm t (timers w)) (set_clock t w)) s).
      unfold feeds_stopped. simpl.
      apply (rearm_Forall (fun cb => cb <> DashboardTick /\ cb <> LiveTick));
        assumption.
    + rewrite <- Hk.
      apply (reports_run_fed (callback tm)
               (set_timers (rearm tm t (timers w)) (set_clock t w)) s); tauto.
  - destruct Hstep as [_ ->]. split; assumption.
  - subst cfg'. destruct cfg as [w s]. cbv [fst snd] in *. destruct a.
    + split; assumption.
    + split; [| exact Hk]. unfold feeds_stopped. simpl.
      apply Forall_app. split; [exact Hs |].
      constructor; [split; discriminate | constructor].
  - subst cfg'. destruct cfg as [w s]. cbv [fst snd] in *.
    split; [| exact Hk].
    unfold feeds_stopped.
    change (timers (fst (EventLoop.ngOnDestroy component (w, s))))
      with (timers (clear_if_set (realTimeIntervalId s)
                      (clear_if_set (intervalId s) w))).
    assert (Hc : forall id (w0 : World Callback),
               Forall (fun tm => callback tm <> DashboardTick /\ callback tm <> LiveTick)
                 (timers w0) ->
               Forall (fun tm => callback tm <> DashboardTick /\ callback tm <> LiveTick)
                 (timers (clear_if_set id w0))).
    { intros id w0 H. destruct id as [x|]; simpl; [| exact H].
      destruct (x =? 0)%nat; [exact H |]. simpl. apply filter_Forall. exact H. }
    apply Hc, Hc. exact Hs.
Qed.

Lemma reports_attached_wired (e : Env) (t0 : Z) (r : nat -> Q) (t1 t2 : Z) :
  feeds_wired (attached component (boot_world e t0 r) t1 t2).
Proof.
  destruct e; unfold feeds_wired; simpl; repeat split;
    repeat (apply List.Forall_cons;
            [first [ split; intros H; first [discriminate H | reflexivity]
                   | discriminate ] |]);
    try apply List.Forall_nil; discriminate.
Qed.

(** X9. [ngOnDestroy] stops the dashboard refresh and the live feed for
    good. Whatever happened to a reports view before, from its tear-down
    on no timer runs either of them, and the clock string, the two
    update counters and the stream rate keep the values they had. *)
Theorem reports_destroy_stops_feeds (e : Env) (t0 : Z) (r : nat -> Q) (t1 t2 : Z)
    (evs1 evs2 : list (event Action)) (mid : Config component) :
  exec component evs1 (attached component (boot_world e t0 r) t1 t2) = Some mid ->
  Forall (fun cfg => feeds_stopped cfg /\ fed (snd cfg) = fed (snd mid))
    (visited component (Destroy :: evs2) mid).
Proof.
  intros Hx.
  assert (Hw : feeds_wired mid).
  { revert Hx. apply (exec_invariant component (fun _ => True) _ reports_step_wired).
    - apply List.Forall_forall. auto.
    - apply reports_attached_wired. }
  simpl.
  assert (H0 : feeds_stopped (EventLoop.ngOnDestroy component mid)
               /\ fed (snd (EventLoop.ngOnDestroy component mid)) = fed (snd mid)).
  { split; [apply reports_destroy_stops; exact Hw |].
    destruct mid as [w s]. reflexivity. }
  constructor; [exact H0 |].
  apply (visited_invariant component (fun _ => True) _
           (reports_step_stopped (fed (snd mid)))).
  - apply List.Forall_forall. auto.
  - exact H0.
Qed.

Lemma reports_destroy_stops_feeds_witness :
  Forall (fun cfg =>
            feeds_stopped cfg /\
            fed (snd cfg)
            = fed (snd (attached component (boot_world Browser 0 (fun _ => 1 # 2)) 0 0)))
    (visited component [Destroy; Fire 4 10000; Do RefreshData]
       (attached component (boot_world Browser 0 (fun _ => 1 # 2)) 0 0)).
Proof.
  exact (reports_destroy_stops_feeds Browser 0 (fun _ => 1 # 2) 0 0
           [] [Fire 4 10000; Do RefreshData] _ eq_refl).
Defined.



Lemma mapMetrics_names (ms : list Metric) :
  forall w : World Callback,
    List.map metric_name (fst (mapMetrics ms w)) = List.map metric_name ms.
Proof.
  induction ms as [|m r0 IH]; intros w; simpl; [reflexivity |].
  destruct (mapMetrics r0 _) as [r' w'] eqn:E.
  apply (f_equal fst) in E. simpl in *. subst r'. rewrite IH. reflexivity.
Qed.

Lemma reports_run_named (cb : Callback) (w : World Callback) (s : State) :
  metrics_named s -> metrics_named (snd (run cb (w, s))).
Proof.
  intros Hs. destruct cb; try exact Hs.
  - right. reflexivity.
  - rewrite run_LiveTick. unfold metrics_named. simpl.
    rewrite mapMetrics_names.
    destruct Hs as [E | E]; [| right; exact E].
    left. rewrite E. reflexivity.
Qed.

Lemma reports_step_named (e : event Action) (cfg cfg' : Config component) :
  True -> metrics_named (snd cfg) -> step component e cfg = Some cfg' ->
  metrics_named (snd cfg').
Proof.
  intros _ Hs Hstep. apply step_inv in Hstep.
  destruct e as [h t | t | a |].
  - destruct Hstep as (tm & _ & _ & _ & _ & ->).
    destruct cfg as [w s]. cbv [fst snd] in *.
    apply (reports_run_named (callback tm)
             (set_timers (rearm tm t (timers w)) (set_clock t w)) s Hs).
  - destruct Hstep as [_ ->]. exact Hs.
  - subst cfg'. destruct cfg as [w s]. destruct a; exact Hs.
  - subst cfg'. destruct cfg as [w s]. exact Hs.
Qed.

Lemma reports_step_never_loaded (e : event Action) (cfg cfg' : Config component) :
  True -> never_loaded cfg -> step component e cfg = Some cfg' -> never_loaded cfg'.
Proof.
  intros _ [Ht Hm] Hstep. apply step_inv in Hstep.
  destruct e as [h t | t | a |].
  - destruct Hstep as (tm & Hfind & _ & _ & _ & ->).
    apply List.find_some in Hfind. destruct Hfind as [Hin _].
    destruct cfg as [w s]. cbv [fst snd] in *.
    assert (Hcb : callback tm = Refreshed).
    { rewrite List.Forall_forall in Ht. exact (Ht tm Hin). }
    unfold fire. change (EventLoop.run component) with run. cbv [fst snd].
    rewrite Hcb. split; [| exact Hm]. simpl.
    apply (rearm_Forall (fun cb => cb = Refreshed)); assumption.
  - destruct Hstep as [_ ->]. split; assumption.
  - subst cfg'. destruct cfg as [w s]. cbv [fst snd] in *. destruct a.
    + split; assumption.
    + split; [| exact Hm]. simpl. apply Forall_app. split; [exact Ht |].
      constructor; [reflexivity | constructor].
  - subst cfg'. destruct cfg as [w s]. cbv [fst snd] in *.
    split; [| exact Hm].
    change (timers (fst (EventLoop.ngOnDestroy component (w, s))))
      with (timers (clear_if_set (realTimeIntervalId s)
                      (clear_if_set (intervalId s) w))).
    assert (Hc : forall id (w0 : World Callback),
               Forall (fun tm => callback tm = Refreshed) (timers w0) ->
               Forall (fun tm => callback tm = Refreshed) (timers (clear_if_set id w0))).
    { intros id w0 H. destruct id as [x|]; simpl; [| exact H].
      destruct (x =? 0)%nat; [exact H |]. simpl. apply filter_Forall. exact H. }
    apply Hc, Hc. exact Ht.
Qed.

(** X11. The list of live metrics of a reports view is empty or holds
    the six metrics of [initialMetrics] under their names and in their
    order, through the whole life of the view: a live tick never adds,
    drops, renames or reorders a metric. On the server the list stays
    empty, since the metrics are only loaded by the browser's delayed
    callback. *)
Theorem reports_metrics_named :
  (forall (e : Env) (t0 : Z) (r : nat -> Q) (t1 t2 : Z) (evs : list (event Action)),
     Forall (fun cfg => metrics_named (snd cfg))
       (lifetime component (boot_world e t0 r) t1 t2 evs)) /\
  (forall (t0 : Z) (r : nat -> Q) (t1 t2 : Z) (evs : list (event Action)),
     Forall (fun cfg => liveMetrics (snd cfg) = [])
       (lifetime component (boot_world Server t0 r) t1 t2 evs)).
Proof.
  split.
  - intros e t0 r t1 t2 evs. apply lifetime_invariant.
    + left. reflexivity.
    + destruct e; left; reflexivity.
    + destruct e; left; reflexivity.
    + exact reports_step_named.
  - intros t0 r t1 t2 evs.
    assert (H : Forall never_loaded
                  (lifetime component (boot_world Server t0 r) t1 t2 evs)).
    { apply (lifetime_invariant component never_loaded).
      - split; [constructor | reflexivity].
      - split; [constructor | reflexivity].
      - split; [constructor | reflexivity].
      - exact reports_step_never_loaded. }
    revert H. apply List.Forall_impl. intros c Hc. exact (proj2 Hc).
Qed.

End ReportsExtras.

(* ===================================================================== *)
(** * The generated figures of the reports view *)
(* ===================================================================== *)

Section GeneratedFigures.
Import JsNumber ReportsData.
Local Open Scope Q_scope.
Variable sin : Q -> Q.

Lemma round_tenths_monotone (a b : Q) :
  a <= b -> Math_round (a * 10) / 10 <= Math_round (b * 10) / 10.
Proof.
  intros H. unfold Math_round, Qdiv.
  apply Qmult_le_compat_r; [| discriminate].
  rewrite <- Zle_Qle. apply Qfloor_resp_le.
  apply Qplus_le_l. apply Qmult_le_compat_r; [exact H | discriminate].
Qed.

Lemma fraction_bounds (x : Q) : 0 <= x - Math_floor x <= 1.
Proof.
  unfold Math_floor. split.
  - rewrite <- (Qplus_opp_r (inject_Z (Qfloor x))).
    apply Qplus_le_l. apply Qfloor_le.
  - apply (Qplus_le_l _ _ (inject_Z (Qfloor x))).
    assert (E : x - inject_Z (Qfloor x) + inject_Z (Qfloor x) == x) by ring.
    rewrite E. apply Qlt_le_weak.
    pose proof (Qlt_floor x) as H. rewrite inject_Z_plus in H.
    rewrite Qplus_comm. exact H.
Qed.

(** X13. For [min <= max] the value [generateDynamicValue(min, max,
    seed)] lies between [min] and [max], each rounded to one decimal,
    whatever the seed and whatever [Math.sin] returns. *)
Theorem generateDynamicValue_range (min max seed : Q) :
  min <= max ->
  Math_round (min * 10) / 10 <= generateDynamicValue sin min max seed
  /\ generateDynamicValue sin min max seed <= Math_round (max * 10) / 10.
Proof.
  intros H. unfold generateDynamicValue. cbv zeta.
  set (x := sin seed * 10000).
  destruct (fraction_bounds x) as [H0 H1].
  set (random := x - Math_floor x) in *.
  assert (Hd : 0 <= max - min).
  { apply Qle_minus_iff in H. exact H. }
  split; apply round_tenths_monotone.
  - rewrite <- (Qplus_0_r min) at 1. apply Qplus_le_r.
    apply Qmult_le_0_compat; assumption.
  - apply Qle_trans with (min + 1 * (max - min)).
    + apply Qplus_le_r. apply Qmult_le_compat_r; assumption.
    + apply Qle_lteq. right. ring.
Qed.

Lemma imap_Forall (P : Q -> Prop) (l : list Q) :
  forall g : nat -> Q -> Q,
    (forall i v, P (g i v)) -> Forall P (imap g l).
Proof.
  induction l as [|v l IH]; intros g Hg; simpl; [constructor |].
  constructor; [apply Hg |].
  apply IH. intros i v0. apply Hg.
Qed.

(** X12. [updateRealTimeData] keeps the number of figures, and every
    figure it writes lies between 30 and 100, whatever the figures were
    before and whatever [Math.sin] returns. *)
Theorem updateRealTimeData_bounds (now : Z) (currentData : list Q) :
  length (updateRealTimeData sin now currentData) = length currentData /\
  Forall (fun v => 30 <= v <= 100) (updateRealTimeData sin now currentData).
Proof.
  unfold updateRealTimeData. split; [apply length_imap |].
  apply imap_Forall. intros i v. unfold nextFigure. cbv zeta.
  apply clamp_bounds. discriminate.
Qed.

End GeneratedFigures.

Lemma generateDynamicValue_range_witness :
  (JsNumber.Math_round (85 * 10) / 10
   <= ReportsData.generateDynamicValue (fun _ => 1 # 3) 85 100 7)%Q /\
  (ReportsData.generateDynamicValue (fun _ => 1 # 3) 85 100 7
   <= JsNumber.Math_round (100 * 10) / 10)%Q.
Proof.
  apply (generateDynamicValue_range (fun _ => 1 # 3) 85 100 7). discriminate.
Defined.

(* ===================================================================== *)
(** * Further properties of ProductsComponent *)
(* ===================================================================== *)

Section ProductsExtras.
Import EventLoop JsNumber Products ProductsView.

Lemma updateEntries_nil (w : World Callback) : updateEntries [] w = ([], w).
Proof. reflexivity. Qed.

Lemma products_run_live (cb : Callback) (w : World Callback) (s : State) :
  liveData s = [] -> liveData (snd (run cb (w, s))) = [].
Proof.
  intros H. destruct cb; try exact H.
  - rewrite run_LiveDataTick. simpl. rewrite H. reflexivity.
  - simpl. destruct (gtb _ _), (gtb _ _); exact H.
Qed.

Lemma products_step_live (e : event Action) (cfg cfg' : Config component) :
  True -> liveData (snd cfg) = [] -> step component e cfg = Some cfg' ->
  liveData (snd cfg') = [].
Proof.
  intros _ Hs Hstep. apply step_inv in Hstep.
  destruct e as [h t | t | a |].
  - destruct Hstep as (tm & _ & _ & _ & _ & ->).
    destruct cfg as [w s]. cbv [fst snd] in *.
    apply (products_run_live (callback tm)
             (set_timers (rearm tm t (timers w)) (set_clock t w)) s Hs).
  - destruct Hstep as [_ ->]. exact Hs.
  - subst cfg'. destruct cfg as [w s]. destruct a; exact Hs.
  - subst cfg'. destruct cfg as [w s]. exact Hs.
Qed.

(** X14. The live-data map of a products view is empty through the
    whole life of the view, on the server and in the browser:
    [initializeLiveData] runs in [ngOnInit], before the delayed callback
    of [loadProducts] has set the products, and nothing fills the map
    later. So [getLiveData] returns [undefined] for every product id, at
    any time. *)
Theorem products_live_data_never_filled (e : Env) (t0 : Z) (r : nat -> Q)
    (t1 t2 : Z) (evs : list (event Action)) :
  Forall (fun cfg => liveData (snd cfg) = [] /\
                     forall productId, getLiveData productId (snd cfg) = None)
    (lifetime component (boot_world e t0 r) t1 t2 evs).
Proof.
  assert (H : Forall (fun cfg : Config component => liveData (snd cfg) = [])
                (lifetime component (boot_world e t0 r) t1 t2 evs)).
  { apply (lifetime_invariant component
             (fun cfg : Config component => liveData (snd cfg) = [])).
    - reflexivity.
    - destruct e; reflexivity.
    - destruct e; reflexivity.
    - exact products_step_live. }
  revert H. apply List.Forall_impl. intros c Hc. split; [exact Hc |].
  intros productId. unfold getLiveData.
  change (liveData (snd c)) with (liveData (snd c)) in Hc.
  rewrite Hc. reflexivity.
Qed.




(** No closure of the products view starts or clears a timer, and none
    writes the two handle fields. *)
Lemma products_run_frame (cb : Callback) (w : World Callback) (s : State) :
  timers (fst (run cb (w, s))) = timers w /\
  next_handle (fst (run cb (w, s))) = next_handle w /\
  intervalId (snd (run cb (w, s))) = intervalId s /\
  liveDataIntervalId (snd (run cb (w, s))) = liveDataIntervalId s.
Proof.
  destruct cb; try (repeat split; reflexivity).
  - rewrite run_LiveDataTick.
    pose proof (updateEntries_world (liveData s) w) as E.
    destruct (updateEntries (liveData s) w) as [ms' w']. simpl in E. subst w'.
    repeat split; reflexivity.
  - simpl. destruct (gtb _ _), (gtb _ _); repeat split; reflexivity.
Qed.

Lemma products_run_wired (cb : Callback) (w : World Callback) (s : State) :
  feeds_wired (w, s) -> feeds_wired (run cb (w, s)).
Proof.
  destruct (products_run_frame cb w s) as (Et & En & E1 & E2).
  unfold feeds_wired. rewrite Et, En, E1, E2. auto.
Qed.

Lemma clear_if_set_Forall (P : timer Callback -> Prop) (i : option nat)
    (w : World Callback) :
  Forall P (timers w) -> Forall P (timers (clear_if_set i w)).
Proof.
  intros H. destruct i as [x|]; simpl; [| exact H].
  destruct (x =? 0)%nat; [exact H |]. simpl. apply filter_Forall. exact H.
Qed.

Lemma clear_if_set_next (i : option nat) (w : World Callback) :
  next_handle (clear_if_set i w) = next_handle w.
Proof.
  destruct i as [x|]; simpl; [| reflexivity].
  destruct (x =? 0)%nat; reflexivity.
Qed.

Lemma products_step_wired (e : event Action) (cfg cfg' : Config component) :
  True -> feeds_wired cfg -> step component e cfg = Some cfg' -> feeds_wired cfg'.
Proof.
  intros _ (Hw & Hz & Hn) Hstep. apply step_inv in Hstep.
  destruct e as [h t | t | a |].
  - destruct Hstep as (tm & Hfind & _ & _ & _ & ->).
    apply List.find_some in Hfind. destruct Hfind as [Hin _].
    destruct cfg as [w s]. cbv [fst snd] in *.
    apply (products_run_wired (callback tm)
             (set_timers (rearm tm t (timers w)) (set_clock t w)) s).
    unfold feeds_wired. simpl. repeat split.
    + apply (rearm_Forall_handle component
               (fun hh cb => (cb = RenderTick -> intervalId s = Some hh) /\
                             (cb = LiveDataTick -> liveDataIntervalId s = Some hh)));
        assumption.
    + apply (rearm_Forall_handle component (fun hh _ => hh <> 0%nat)); assumption.
    + exact Hn.
  - destruct Hstep as [_ ->]. repeat split; assumption.
  - subst cfg'. change (EventLoop.act component) with act.
    destruct cfg as [w s]. cbv [fst snd] in *.
    destruct a; repeat split; assumption.
  - subst cfg'. change (EventLoop.ngOnDestroy component) with ngOnDestroy.
    destruct cfg as [w s]. cbv [fst snd] in *.
    unfold feeds_wired, ngOnDestroy. cbv [fst snd].
    repeat split.
    + apply clear_if_set_Forall, clear_if_set_Forall. exact Hw.
    + apply clear_if_set_Forall, clear_if_set_Forall. exact Hz.
    + rewrite !clear_if_set_next. exact Hn.
Qed.

Lemma products_destroy_stops (cfg : Config component) :
  feeds_wired cfg -> feeds_stopped (ngOnDestroy cfg).
Proof.
  destruct cfg as [w s]. intros (Hw & Hz & _). cbv [fst snd] in *.
  unfold feeds_stopped, ngOnDestroy. cbv [fst].
  apply List.Forall_forall. intros tm Hin.
  assert (Hin0 : In tm (timers w)).
  { destruct (intervalId s) as [a|], (liveDataIntervalId s) as [b|]; simpl in Hin;
      repeat match type of Hin with
             | context [if ?c then _ else _] => destruct c; simpl in Hin
             end;
      repeat (apply filter_In in Hin; destruct Hin as [Hin _]); exact Hin. }
  rewrite List.Forall_forall in Hw, Hz.
  destruct (Hw tm Hin0) as [H1 H2]. specialize (Hz tm Hin0).
  split; intros E.
  - specialize (H1 E). rewrite H1 in Hin. simpl in Hin.
    apply Nat.eqb_neq in Hz. rewrite Hz in Hin.
    assert (Hgone : handle tm <> handle tm).
    { destruct (liveDataIntervalId s) as [b|]; simpl in Hin.
      - destruct (b =? 0)%nat; simpl in Hin.
        + apply filter_In in Hin. destruct Hin as [_ Hb].
          apply negb_true_iff, has_handle_false in Hb. exact Hb.
        + apply filter_In in Hin. destruct Hin as [Hin _].
          apply filter_In in Hin. destruct Hin as [_ Hb].
          apply negb_true_iff, has_handle_false in Hb. exact Hb.
      - apply filter_In in Hin. destruct Hin as [_ Hb].
        apply negb_true_iff, has_handle_false in Hb. exact Hb. }
    congruence.
  - specialize (H2 E). rewrite H2 in Hin. simpl in Hin.
    assert (Hgone : handle tm <> handle tm).
    { apply Nat.eqb_neq in Hz.
      destruct (intervalId s) as [a|]; simpl in Hin.
      - destruct (a =? 0)%nat; simpl in Hin; rewrite Hz in Hin; simpl in Hin.
        + apply filter_In in Hin. destruct Hin as [_ Hb].
          apply negb_true_iff, has_handle_false in Hb. exact Hb.
        + apply filter_In in Hin. destruct Hin as [_ Hb].
          apply negb_true_iff, has_handle_false in Hb. exact Hb.
      - rewrite Hz in Hin. simpl in Hin.
        apply filter_In in Hin. destruct Hin as [_ Hb].
        apply negb_true_iff, has_handle_false in Hb. exact Hb. }
    congruence.
Qed.

Lemma products_run_fed (cb : Callback) (w : World Callback) (s : State) :
  cb <> RenderTick -> cb <> LiveDataTick -> fed (snd (run cb (w, s))) = fed s.
Proof.
  destruct cb; intros H1 H2; try reflexivity; try contradiction.
  simpl. destruct (gtb _ _), (gtb _ _); reflexivity.
Qed.

Lemma products_run_stopped (cb : Callback) (w : World Callback) (s : State) :
  feeds_stopped (w, s) -> feeds_stopped (run cb (w, s)).
Proof.
  destruct (products_run_frame cb w s) as (Et & _).
  unfold feeds_stopped. rewrite Et. auto.
Qed.

Lemma products_step_stopped (k : Z * Z * string) (e : event Action)
    (cfg cfg' : Config component) :
  True ->
  feeds_stopped cfg /\ fed (snd cfg) = k ->
  step component e cfg = Some cfg' ->
  feeds_stopped cfg' /\ fed (snd cfg') = k.
Proof.
  intros _ [Hs Hk] Hstep. apply step_inv in Hstep.
  destruct e as [h t | t | a |].
  - destruct Hstep as (tm & Hfind & _ & _ & _ & ->).
    apply List.find_some in Hfind. destruct Hfind as [Hin _].
    destruct cfg as [w s]. cbv [fst snd] in *.
    assert (Hcb : callback tm <> RenderTick /\ callback tm <> LiveDataTick).
    { unfold feeds_stopped in Hs. rewrite List.Forall_forall in Hs.
      exact (Hs tm Hin). }
    split.
    + apply (products_run_stopped (callback tm)
               (set_timers (rearm tm t (timers w)) (set_clock t w)) s).
      unfold feeds_stopped. simpl.
      apply (rearm_Forall (fun cb => cb <> RenderTick /\ cb <> LiveDataTick));
        assumption.
    + rewrite <- Hk.
      apply (products_run_fed (callback tm)
               (set_timers (rearm tm t (timers w)) (set_clock t w)) s); tauto.
  - destruct Hstep as [_ ->]. split; assumption.
  - subst cfg'. destruct cfg as [w s]. cbv [fst snd] in *.
    destruct a; split; assumption.
  - subst cfg'. destruct cfg as [w s]. cbv [fst snd] in *.
    split; [| exact Hk].
    unfold feeds_stopped.
    change (timers (fst (EventLoop.ngOnDestroy component (w, s))))
      with (timers (clear_if_set (liveDataIntervalId s)
                      (clear_if_set (intervalId s) w))).
    apply clear_if_set_Forall, clear_if_set_Forall. exact Hs.
Qed.

Lemma products_attached_wired (e : Env) (t0 : Z) (r : nat -> Q) (t1 t2 : Z) :
  feeds_wired (attached component (boot_world e t0 r) t1 t2).
Proof.
  destruct e; unfold feeds_wired; simpl; repeat split;
    repeat (apply List.Forall_cons;
            [first [ split; intros H; first [discriminate H | reflexivity]
                   | discriminate ] |]);
    try apply List.Forall_nil; discriminate.
Qed.

(** X18. [ngOnDestroy] of the products view stops the render clock and
    the live-data feed for good. Whatever happened to the view before,
    from its tear-down on no timer runs either of them, and the render
    time, the update counter and the real-time status keep the values
    they had. *)
Theorem products_destroy_stops_feeds (e : Env) (t0 : Z) (r : nat -> Q) (t1 t2 : Z)
    (evs1 evs2 : list (event Action)) (mid : Config component) :
  exec component evs1 (attached component (boot_world e t0 r) t1 t2) = Some mid ->
  Forall (fun cfg => feeds_stopped cfg /\ fed (snd cfg) = fed (snd mid))
    (visited component (Destroy :: evs2) mid).
Proof.
  intros Hx.
  assert (Hw : feeds_wired mid).
  { revert Hx. apply (exec_invariant component (fun _ => True) _ products_step_wired).
    - apply List.Forall_forall. auto.
    - apply products_attached_wired. }
  simpl.
  assert (H0 : feeds_stopped (EventLoop.ngOnDestroy component mid)
               /\ fed (snd (EventLoop.ngOnDestroy component mid)) = fed (snd mid)).
  { split; [apply products_destroy_stops; exact Hw |].
    destruct mid as [w s]. reflexivity. }
  constructor; [exact H0 |].
  apply (visited_invariant component (fun _ => True) _
           (products_step_stopped (fed (snd mid)))).
  - apply List.Forall_forall. auto.
  - exact H0.
Qed.

Lemma products_destroy_stops_feeds_witness :
  Forall (fun cfg =>
            feeds_stopped cfg /\
            fed (snd cfg)
            = fed (snd (attached component (boot_world Browser 0 (fun _ => 1 # 2)) 0 0)))
    (visited component [Destroy; Fire 4 15000; Do (AddToCart 1)]
       (attached component (boot_world Browser 0 (fun _ => 1 # 2)) 0 0)).
Proof.
  exact (products_destroy_stops_feeds Browser 0 (fun _ => 1 # 2) 0 0
           [] [Fire 4 15000; Do (AddToCart 1)] _ eq_refl).
Defined.

Lemma updateEntries_shape (m : list (Z * LiveData)) :
  forall w : World Callback,
    List.map fst (fst (updateEntries m w)) = List.map fst m /\
    Forall (fun kv => in_range (snd kv)) (fst (updateEntries m w)).
Proof.
  induction m as [|[k d] r IH]; intros w.
  - split; [reflexivity | constructor].
  - simpl.
    match goal with
    | |- context [updateEntries r ?w0] =>
        destruct (IH w0) as [IHk IHr]; destruct (updateEntries r w0) as [r' w']
    end.
    simpl in *. split; [f_equal; exact IHk |].
    constructor; [| exact IHr].
    unfold in_range. simpl. repeat split.
    + apply Q.le_max_l.
    + unfold Math_max, Math_floor, Qmax, GenericMinMax.gmax.
      destruct (Qcompare _ _);
        first [exists 0%Z; reflexivity | eexists; reflexivity].
    + apply Q.le_max_l.
    + apply clamp_bounds. discriminate.
    + apply clamp_bounds. discriminate.
    + apply clamp_bounds. discriminate.
    + apply clamp_bounds. discriminate.
Qed.

(** X15. [updateLiveData] keeps the product ids of the live-data map,
    in their order, and every entry it writes is in range, whatever the
    map held before and whatever [Math.random()] returns: the stock is
    a whole number and not negative, the price is not negative, the
    discount is between 0 and 50 and the rating between 1 and 5. *)
Theorem updateLiveData_in_range (w : World Callback) (s : State) :
  List.map fst (liveData (snd (updateLiveData (w, s)))) = List.map fst (liveData s) /\
  Forall (fun kv => in_range (snd kv)) (liveData (snd (updateLiveData (w, s)))).
Proof.
  unfold updateLiveData.
  pose proof (updateEntries_shape (liveData s) w) as H.
  destruct (updateEntries (liveData s) w) as [m' w']. exact H.
Qed.

Lemma map_set_fresh (k : Z) (v : LiveData) (m : list (Z * LiveData)) :
  ~ In k (List.map fst m) -> map_set k v m = m ++ [(k, v)].
Proof.
  induction m as [|[k' v'] r IH]; intros Hk; simpl; [reflexivity |].
  simpl in Hk.
  destruct (Z.eqb_spec k' k) as [E | _]; [exfalso; apply Hk; left; exact E |].
  f_equal. apply IH. intros H. apply Hk. right. exact H.
Qed.

Lemma initialEntries_fresh (ps : list Product) :
  forall (m : list (Z * LiveData)) (w : World Callback),
    List.NoDup (List.map fst m ++ List.map id ps) ->
    fst (initialEntries ps m w)
    = m ++ imap (fun i p => (id p, initialEntry (rng w (drawn w + i)) p)) ps.
Proof.
  induction ps as [|p r IH]; intros m w Hnd; simpl.
  - rewrite app_nil_r. reflexivity.
  - rewrite map_set_fresh.
    2:{ apply List.NoDup_remove_2 in Hnd. intros H. apply Hnd.
        apply List.in_or_app. left. exact H. }
    rewrite IH.
    2:{ rewrite List.map_app, <- List.app_assoc. exact Hnd. }
    rewrite <- List.app_assoc. simpl. f_equal. f_equal.
    + rewrite Nat.add_0_r. reflexivity.
    + apply imap_ext. intros i x _. simpl.
      rewrite Nat.add_succ_r. reflexivity.
Qed.

Lemma map_get_lookup (m : list (Z * LiveData)) :
  forall (i : nat) (k : Z) (v : LiveData),
    List.NoDup (List.map fst m) -> m !! i = Some (k, v) -> map_get k m = Some v.
Proof.
  induction m as [|[k' v'] r IH]; intros i k v Hnd Hi; [discriminate Hi |].
  simpl. apply List.NoDup_cons_iff in Hnd. destruct Hnd as [Hk' Hnd].
  destruct i as [|i]; simpl in Hi.
  - injection Hi as -> ->. rewrite Z.eqb_refl. reflexivity.
  - destruct (Z.eqb_spec k' k) as [E | _]; [| exact (IH i k v Hnd Hi)].
    exfalso. apply Hk'. subst k'.
    apply (List.in_map fst r (k, v)).
    apply list_elem_of_In. apply (list_elem_of_lookup_2 r i). exact Hi.
Qed.

(** X16. [initializeLiveData] run on products with distinct ids gives
    each product one entry under its id: [getLiveData] then returns, for
    the product at position [i], the entry made from that product and
    the [i]-th value [Math.random()] returned, with the stock between 10
    and 59 when that value is in the range of [Math.random()], the price
    of the product, and 0, 4 and 100 where the product has no discount,
    rating or number of reviews. *)
Theorem initializeLiveData_entries (w : World Callback) (s : State) :
  List.NoDup (List.map id (products s)) ->
  forall (i : nat) (product : Product),
    products s !! i = Some product ->
    getLiveData (id product) (snd (initializeLiveData (w, s)))
    = Some (initialEntry (rng w (drawn w + i)) product) /\
    ((0 <= rng w (drawn w + i) < 1)%Q ->
     (10 <= stockCount (initialEntry (rng w (drawn w + i)) product) <= 59)%Q).
Proof.
  intros Hnd i product Hi. split.
  - unfold getLiveData, initializeLiveData.
    pose proof (initialEntries_fresh (products s) [] w Hnd) as E.
    destruct (initialEntries (products s) [] w) as [m' w']. simpl in E. subst m'.
    simpl.
    apply (map_get_lookup _ i).
    + rewrite fmap_imap.
      replace (imap _ (products s)) with (List.map id (products s)); [exact Hnd |].
      clear. generalize (drawn w). induction (products s) as [|p r IH]; intros n.
      * reflexivity.
      * simpl. f_equal. rewrite (IH (S n)). apply imap_ext. intros; reflexivity.
    + rewrite list_lookup_imap, Hi. reflexivity.
  - intros [Hlo Hhi]. unfold initialEntry, Math_floor. cbv [stockCount].
    assert (H0 : (0 <= Qfloor (rng w (drawn w + i) * 50))%Z).
    { change 0%Z with (Qfloor 0). apply Qfloor_resp_le.
      apply Qmult_le_0_compat; [exact Hlo | discriminate]. }
    assert (H1 : (Qfloor (rng w (drawn w + i) * 50) < 50)%Z).
    { rewrite Zlt_Qlt. apply Qle_lt_trans with (rng w (drawn w + i) * 50)%Q.
      - apply Qfloor_le.
      - change (inject_Z 50) with (1 * 50)%Q.
        apply Qmult_lt_compat_r; [reflexivity | exact Hhi]. }
    revert H0 H1. generalize (Qfloor (rng w (drawn w + i) * 50)). intros z H0 H1.
    unfold Qle, Qplus, inject_Z. simpl. lia.
Qed.

Lemma initializeLiveData_entries_witness :
  getLiveData 3
    (snd (initializeLiveData
            (boot_world Browser 0 (fun _ => 1 # 2),
             set_products mockProducts
               (snd (construct (boot_world Browser 0 (fun _ => 1 # 2)))))))
  = Some (MkLive 35 (2499 # 100) 17 (46 # 10) 234).
Proof.
  assert (Hnd : List.NoDup [1; 2; 3; 4; 5; 6]).
  { repeat (apply List.NoDup_cons;
            [simpl; intuition discriminate |]).
    apply List.NoDup_nil. }
  exact (proj1 (initializeLiveData_entries
                  (boot_world Browser 0 (fun _ => 1 # 2))
                  (set_products mockProducts
                     (snd (construct (boot_world Browser 0 (fun _ => 1 # 2)))))
                  Hnd 2%nat
                  (MkProduct 3 (2499 # 100) "clothing" false (Some 17%Q)
                     (Some (46 # 10)%Q) (Some 234%Q)) eq_refl)).
Defined.

End ProductsExtras.

(* ===================================================================== *)
(** * The list of products shown *)
(* ===================================================================== *)

Section SortFacts.
Import ProductList.
Variable A : Type.
Variable compareFn : A -> A -> Q.
Variable R : A -> A -> Prop.
Hypothesis R_trans : forall a b c, R a b -> R b c -> R a c.
Hypothesis R_before : forall a b, Qle_bool (compareFn a b) 0 = true -> R a b.
Hypothesis R_after : forall a b, Qle_bool (compareFn a b) 0 = false -> R b a.

Lemma insert_perm (x : A) (l : list A) :
  Permutation (insert compareFn x l) (x :: l).
Proof.
  induction l as [|y r IH]; simpl; [reflexivity |].
  destruct (Qle_bool (compareFn x y) 0); [reflexivity |].
  rewrite IH. apply perm_swap.
Qed.

Lemma sort_perm (l : list A) : Permutation (sort compareFn l) l.
Proof.
  induction l as [|x r IH]; simpl; [reflexivity |].
  rewrite insert_perm. apply perm_skip. exact IH.
Qed.

Lemma insert_sorted (x : A) (l : list A) :
  StronglySorted R l -> StronglySorted R (insert compareFn x l).
Proof.
  induction l as [|y r IH]; intros Hs; simpl.
  - constructor; constructor.
  - inversion Hs as [|? ? Hr Hy]; subst.
    destruct (Qle_bool (compareFn x y) 0) eqn:E.
    + constructor; [exact Hs |].
      constructor; [apply R_before; exact E |].
      revert Hy. apply List.Forall_impl. intros z Hz.
      apply (R_trans x y z); [apply R_before; exact E | exact Hz].
    + constructor; [apply IH; exact Hr |].
      assert (Hall : Forall (R y) (x :: r)).
      { constructor; [apply R_after; exact E | exact Hy]. }
      rewrite List.Forall_forall in Hall. apply List.Forall_forall.
      intros z Hz. apply Hall.
      apply (Permutation_in z (insert_perm x r)). exact Hz.
Qed.

Lemma sort_sorted (l : list A) : StronglySorted R (sort compareFn l).
Proof.
  induction l as [|x r IH]; simpl; [constructor |].
  apply insert_sorted. exact IH.
Qed.

End SortFacts.

Section ProductListFacts.
Import JsNumber Products ProductList.
Variable localeCompare : Product -> Product -> Q.

Lemma filter_both (s : State) (l : list Product) :
  (if showOnlyInStock s
   then List.filter inStock
          (if negb (String.eqb (selectedCategory s) "all")
           then List.filter
                  (fun product => String.eqb (category product) (selectedCategory s)) l
           else l)
   else (if negb (String.eqb (selectedCategory s) "all")
         then List.filter
                (fun product => String.eqb (category product) (selectedCategory s)) l
         else l))
  = List.filter (passes s) l.
Proof.
  unfold passes.
  destruct (showOnlyInStock s), (String.eqb (selectedCategory s) "all"); simpl.
  - reflexivity.
  - induction l as [|p r IH]; simpl; [reflexivity |].
    destruct (String.eqb (category p) (selectedCategory s)); simpl.
    + destruct (inStock p); simpl; rewrite IH; reflexivity.
    + exact IH.
  - induction l as [|p r IH]; simpl; [reflexivity |]. rewrite <- IH. reflexivity.
  - induction l as [|p r IH]; simpl; [reflexivity |].
    rewrite andb_true_r.
    destruct (String.eqb (category p) (selectedCategory s)); rewrite IH; reflexivity.
Qed.

(** X24. The list of products shown holds exactly the products of the
    catalog that pass the two filters, each as often as the catalog has
    it, whatever the sort key: a product passes when the selected
    category is ['all'] or its own, and when the stock filter is off or
    the product is in stock. *)
Theorem shown_products_exact (s : State) :
  Permutation (filteredAndSortedProducts localeCompare s)
    (List.filter (passes s) (products s)) /\
  forall product,
    In product (filteredAndSortedProducts localeCompare s) <->
    In product (products s) /\
    (selectedCategory s = "all" \/ category product = selectedCategory s) /\
    (showOnlyInStock s = true -> inStock product = true).
Proof.
  assert (H : Permutation (filteredAndSortedProducts localeCompare s)
                (List.filter (passes s) (products s))).
  { unfold filteredAndSortedProducts. cbv zeta.
    rewrite sort_perm. rewrite filter_both. reflexivity. }
  split; [exact H |]. intros product. split.
  - intros Hin. apply (Permutation_in _ H) in Hin.
    apply filter_In in Hin. destruct Hin as [Hin Hp]. split; [exact Hin |].
    unfold passes in Hp. apply andb_true_iff in Hp. destruct Hp as [Hc Hk].
    split.
    + apply orb_true_iff in Hc. destruct Hc as [Hc | Hc];
        apply String.eqb_eq in Hc; [left | right]; exact Hc.
    + intros E. rewrite E in Hk. exact Hk.
  - intros (Hin & Hc & Hk). apply (Permutation_in _ (Permutation_sym H)).
    apply filter_In. split; [exact Hin |]. unfold passes.
    apply andb_true_iff. split.
    + apply orb_true_iff. destruct Hc as [Hc | Hc]; [left | right];
        apply String.eqb_eq; exact Hc.
    + destruct (showOnlyInStock s); [exact (Hk eq_refl) | reflexivity].
Qed.

(** X25. Sorted by price, the list of products shown goes from the
    cheapest to the dearest; sorted by rating, from the best rated to
    the worst, a product without a rating counting as rated 0. *)
Theorem shown_products_sorted (s : State) :
  (sortBy s = ByPrice ->
   StronglySorted (fun a b => (price a <= price b)%Q)
     (filteredAndSortedProducts localeCompare s)) /\
  (sortBy s = ByRating ->
   StronglySorted
     (fun a b => (or_default (rating b) 0 <= or_default (rating a) 0)%Q)
     (filteredAndSortedProducts localeCompare s)).
Proof.
  assert (Hle : forall x y : Q, Qle_bool (x - y) 0 = true -> (x <= y)%Q).
  { intros x y H. apply Qle_bool_imp_le in H.
    apply (Qplus_le_l _ _ (- y)).
    assert (E : (y + - y == 0)%Q) by ring. rewrite E. exact H. }
  assert (Hgt : forall x y : Q, Qle_bool (x - y) 0 = false -> (y <= x)%Q).
  { intros x y H. apply Qlt_le_weak. apply Qnot_le_lt. intros Hxy.
    assert (Hb : Qle_bool (x - y) 0 = true); [| congruence].
    apply Qle_bool_iff.
    apply (Qplus_le_l _ _ y).
    assert (E : (x - y + y == x)%Q) by ring. rewrite E.
    rewrite Qplus_0_l. exact Hxy. }
  unfold filteredAndSortedProducts. cbv zeta. split; intros ->.
  - apply (sort_sorted Product _ (fun a b => (price a <= price b)%Q)).
    + intros a b c. apply Qle_trans.
    + intros a b. apply Hle.
    + intros a b. apply Hgt.
  - apply (sort_sorted Product _
             (fun a b => (or_default (rating b) 0 <= or_default (rating a) 0)%Q)).
    + intros a b c H1 H2. exact (Qle_trans _ _ _ H2 H1).
    + intros a b. apply Hle.
    + intros a b. apply Hgt.
Qed.

(** X26. For an original price above 0 and a current price between 0
    and the original one, [getDiscountPercentage] is a whole number
    between 0 and 100. *)
Theorem getDiscountPercentage_range (originalPrice currentPrice : Q) :
  (0 < originalPrice)%Q -> (0 <= currentPrice <= originalPrice)%Q ->
  (0 <= getDiscountPercentage originalPrice currentPrice <= 100)%Q /\
  exists n : Z, getDiscountPercentage originalPrice currentPrice = inject_Z n.
Proof.
  intros Ho [Hc0 Hc1]. split; [| eexists; reflexivity].
  unfold getDiscountPercentage.
  assert (Hx : (0 <= (originalPrice - currentPrice) / originalPrice <= 1)%Q).
  { split.
    - apply Qle_shift_div_l; [exact Ho |]. rewrite Qmult_0_l.
      apply (Qplus_le_l _ _ currentPrice).
      assert (E : (originalPrice - currentPrice + currentPrice == originalPrice)%Q)
        by ring.
      rewrite E, Qplus_0_l. exact Hc1.
    - apply Qle_shift_div_r; [exact Ho |]. rewrite Qmult_1_l.
      apply (Qplus_le_l _ _ currentPrice).
      assert (E : (originalPrice - currentPrice + currentPrice == originalPrice)%Q)
        by ring.
      rewrite E. rewrite <- (Qplus_0_r originalPrice) at 1.
      apply Qplus_le_r. exact Hc0. }
  revert Hx. generalize ((originalPrice - currentPrice) / originalPrice)%Q.
  intros x [Hlo Hhi]. unfold Math_round.
  assert (H0 : (0 <= Qfloor (x * 100 + (1 # 2)))%Z).
  { change 0%Z with (Qfloor 0). apply Qfloor_resp_le.
    apply Qle_trans with (x * 100)%Q.
    - apply Qmult_le_0_compat; [exact Hlo | discriminate].
    - rewrite <- (Qplus_0_r (x * 100)) at 1. apply Qplus_le_r. discriminate. }
  assert (H1 : (Qfloor (x * 100 + (1 # 2)) <= 100)%Z).
  { change 100%Z with (Qfloor (100 + (1 # 2))). apply Qfloor_resp_le.
    apply Qplus_le_l. change 100%Q with (1 * 100)%Q.
    apply Qmult_le_compat_r; [exact Hhi | discriminate]. }
  revert H0 H1. generalize (Qfloor (x * 100 + (1 # 2))). intros z H0 H1.
  unfold Qle, inject_Z. simpl. lia.
Qed.

End ProductListFacts.

Lemma getDiscountPercentage_range_witness :
  (0 <= ProductList.getDiscountPercentage (3999 # 100) (2999 # 100) <= 100)%Q /\
  exists n : Z,
    ProductList.getDiscountPercentage (3999 # 100) (2999 # 100) = inject_Z n.
Proof.
  apply (getDiscountPercentage_range (3999 # 100) (2999 # 100)).
  - reflexivity.
  - split; apply Qle_bool_imp_le; reflexivity.
Defined.

(* ===================================================================== *)
(** * Further properties of SsrDemoComponent *)
(* ===================================================================== *)

Section SsrDemoExtras.
Import EventLoop JsNumber SsrDemo SsrDemoView.

Ltac tick_cases :=
  unfold loadingTick, Math_random; cbv zeta;
  destruct (Qle_bool 100 _); cbv beta iota zeta;
  repeat match goal with
         | |- context [if ?b then _ else _] => destruct b
         end.

Ltac branches :=
  repeat match goal with
         | |- context [if ?b then _ else _] => destruct b
         end.

(** ** The error panel *)

Lemma simulateError_consistent (w : World Callback) (s : State) :
  0 <= retryCount (errorState s) ->
  error_consistent (errorState (snd (simulateError (w, s)))).
Proof.
  intros H. right. unfold simulateError, Math_random, pickErrorType. cbv zeta.
  branches; simpl; (repeat split; [discriminate | lia]).
Qed.

Lemma error_count (e : ErrorState) : error_consistent e -> 0 <= retryCount e.
Proof. intros [(_ & _ & _ & H) | (_ & _ & _ & H)]; lia. Qed.

Lemma ssr_run_error (cb : Callback) (w : World Callback) (s : State) :
  error_consistent (errorState s) ->
  error_consistent (errorState (snd (run cb (w, s)))).
Proof.
  intros H. destruct cb as [i | st | st | l | | | |].
  - simpl. tick_cases; exact H.
  - simpl. branches; exact H.
  - exact H.
  - exact H.
  - unfold run, Math_random. cbv zeta. destruct (gtb _ _); [| exact H].
    apply simulateError_consistent. apply error_count. exact H.
  - simpl. branches; exact H.
  - exact H.
  - exact H.
Qed.

Lemma ssr_act_error (a : Action) (w : World Callback) (s : State) :
  error_consistent (errorState s) ->
  error_consistent (errorState (snd (act a (w, s)))).
Proof.
  intros H. pose proof (error_count _ H) as H0.
  destruct a as [ | | | | tab].
  - left. simpl. repeat split. exact H0.
  - simpl. branches; exact H.
  - exact H.
  - unfold act, toggleErrorDemo. destruct (showErrors s).
    + left. simpl. repeat split. lia.
    + apply (simulateError_consistent w (set_showErrors true s)). exact H0.
  - simpl. branches; exact H.
Qed.

Lemma ssr_step_error (e : event Action) (cfg cfg' : Config component) :
  True -> error_consistent (errorState (snd cfg)) ->
  step component e cfg = Some cfg' ->
  error_consistent (errorState (snd cfg')).
Proof.
  intros _ Hs Hstep. apply step_inv in Hstep.
  destruct e as [h t | t | a |].
  - destruct Hstep as (tm & _ & _ & _ & _ & ->).
    destruct cfg as [w s]. cbv [fst snd] in *.
    apply (ssr_run_error (callback tm)
             (set_timers (rearm tm t (timers w)) (set_clock t w)) s Hs).
  - destruct Hstep as [_ ->]. exact Hs.
  - subst cfg'. destruct cfg as [w s]. apply (ssr_act_error a w s Hs).
  - subst cfg'. destruct cfg as [w s]. exact Hs.
Qed.

(** X19. The error panel of the demo agrees with itself through the
    whole life of the view, for values of [Math.random()] in its range:
    when [hasError] is false the message is empty, the type is ['none']
    and the retry count is not negative; when it is true the type is
    one of ['network'], ['server'] and ['client'], the message is the
    one [getErrorMessage] gives for that type, and the retry count is
    positive. *)
Theorem error_state_consistent (e : Env) (t0 : Z) (r : nat -> Q)
    (t1 t2 : Z) (evs : list (event Action)) :
  (forall n, (0 <= r n < 1)%Q) ->
  Forall (fun cfg => error_consistent (errorState (snd cfg)))
    (lifetime component (boot_world e t0 r) t1 t2 evs).
Proof.
  intros _.
  apply (lifetime_invariant component
           (fun cfg : Config component => error_consistent (errorState (snd cfg)))).
  - left. simpl. repeat split. lia.
  - destruct e; left; simpl; repeat split; lia.
  - destruct e; left; simpl; repeat split; lia.
  - exact ssr_step_error.
Qed.

Lemma error_state_consistent_witness :
  Forall (fun cfg => error_consistent (errorState (snd cfg)))
    (lifetime component (boot_world Browser 0 (fun _ => 9 # 10)) 0 0
       [Fire 3 2000; Do RetryOperation; Do ToggleErrorDemo]).
Proof.
  apply (error_state_consistent Browser 0 (fun _ => 9 # 10) 0 0
           [Fire 3 2000; Do RetryOperation; Do ToggleErrorDemo]).
  intros n. split; [apply Qle_bool_imp_le |]; reflexivity.
Defined.

(** ** The loading line *)

Lemma ssr_run_message (cb : Callback) (w : World Callback) (s : State) :
  In (loadingMessage s) loadingMessages ->
  In (loadingMessage (snd (run cb (w, s)))) loadingMessages.
Proof.
  intros H. destruct cb as [i | st | st | l | | | |].
  - simpl. tick_cases; simpl; tauto.
  - simpl. branches; exact H.
  - exact H.
  - exact H.
  - unfold run, simulateError, Math_random. cbv zeta. destruct (gtb _ _); exact H.
  - simpl. branches; exact H.
  - exact H.
  - simpl. tauto.
Qed.

Lemma ssr_act_message (a : Action) (w : World Callback) (s : State) :
  In (loadingMessage s) loadingMessages ->
  In (loadingMessage (snd (act a (w, s)))) loadingMessages.
Proof.
  intros H. destruct a as [ | | | | tab].
  - exact H.
  - simpl. branches; exact H.
  - exact H.
  - unfold act, toggleErrorDemo, simulateError, Math_random. cbv zeta.
    destruct (showErrors s); exact H.
  - simpl. branches; exact H.
Qed.

Lemma ssr_step_message (e : event Action) (cfg cfg' : Config component) :
  True -> In (loadingMessage (snd cfg)) loadingMessages ->
  step component e cfg = Some cfg' ->
  In (loadingMessage (snd cfg')) loadingMessages.
Proof.
  intros _ Hs Hstep. apply step_inv in Hstep.
  destruct e as [h t | t | a |].
  - destruct Hstep as (tm & _ & _ & _ & _ & ->).
    destruct cfg as [w s]. cbv [fst snd] in *.
    apply (ssr_run_message (callback tm)
             (set_timers (rearm tm t (timers w)) (set_clock t w)) s Hs).
  - destruct Hstep as [_ ->]. exact Hs.
  - subst cfg'. destruct cfg as [w s]. apply (ssr_act_message a w s Hs).
  - subst cfg'. destruct cfg as [w s]. exact Hs.
Qed.

(** X20. The loading line of the demo never reads ["SSR Demo ready!"]:
    the closure of [simulateLoading] that sets this text when the bar
    is full goes on, in the same run, to overwrite it with
    ["Finalizing SSR demo..."]. On the server and in the browser, at
    every time, the line shows one of the seven texts of
    [loadingMessages]. *)
Theorem ready_message_never_shown (e : Env) (t0 : Z) (r : nat -> Q)
    (t1 t2 : Z) (evs : list (event Action)) :
  Forall (fun cfg => In (loadingMessage (snd cfg)) loadingMessages /\
                     loadingMessage (snd cfg) <> "SSR Demo ready!")
    (lifetime component (boot_world e t0 r) t1 t2 evs).
Proof.
  assert (H : Forall (fun cfg : Config component =>
                        In (loadingMessage (snd cfg)) loadingMessages)
                (lifetime component (boot_world e t0 r) t1 t2 evs)).
  { apply (lifetime_invariant component
             (fun cfg : Config component =>
                In (loadingMessage (snd cfg)) loadingMessages)).
    - simpl. tauto.
    - destruct e; simpl; tauto.
    - destruct e; simpl; tauto.
    - exact ssr_step_message. }
  assert (Hm : forall m : string, In m loadingMessages -> m <> "SSR Demo ready!").
  { intros m Hin E. subst m. simpl in Hin.
    repeat destruct Hin as [Hin | Hin]; try discriminate Hin. exact Hin. }
  revert H. apply List.Forall_impl. intros cfg Hin.
  split; [exact Hin | exact (Hm _ Hin)].
Qed.

(** ** The animations *)

Lemma setActive_animations (b b' : bool) :
  List.map (setActive b) (animations b') = animations b.
Proof. reflexivity. Qed.

Lemma activateAnimations_in_step (w : World Callback) (s : State) :
  animations_in_step (w, s) -> animations_in_step (activateAnimations (w, s)).
Proof.
  intros [[b Hb] Ht]. unfold animations_in_step, activateAnimations. simpl in *.
  rewrite Hb. split.
  - exists false. apply setActive_animations.
  - apply Forall_app. split; [exact Ht |].
    constructor; [| constructor].
    intros l E. simpl in E. injection E as <-. exists b. reflexivity.
Qed.

Lemma timeout_in_step (cb : Callback) (d : Z) (w : World Callback) (s : State) :
  captured_in_step cb ->
  animations_in_step (w, s) -> animations_in_step (snd (setTimeout cb d w), s).
Proof.
  intros Hcb [Hs Ht]. split; [exact Hs |]. simpl.
  apply Forall_app. split; [exact Ht |]. constructor; [exact Hcb | constructor].
Qed.

Lemma ssr_run_in_step (cb : Callback) (w : World Callback) (s : State) :
  captured_in_step cb ->
  animations_in_step (w, s) -> animations_in_step (run cb (w, s)).
Proof.
  intros Hcb H. destruct cb as [i | st | st | l | | | |].
  - destruct H as [Hs Ht]. unfold animations_in_step.
    simpl. tick_cases; simpl; (split; [exact Hs |]);
      first [exact Ht | apply filter_Forall; exact Ht].
  - unfold run.
    pose proof (activateAnimations_in_step w
                  (set_serverRenderTime (Date_now w - st) s) H) as H1.
    destruct (activateAnimations _) as [w1 s1].
    destruct (isBrowser s1); [| exact H1].
    apply (timeout_in_step (ClientHydrated (Date_now w1)) 500 w1 s1);
      [intros l E; discriminate E | exact H1].
  - exact H.
  - destruct H as [_ Ht]. split; [| exact Ht]. simpl.
    destruct (Hcb l eq_refl) as [b ->]. exists true. apply setActive_animations.
  - unfold run, simulateError, Math_random. cbv zeta. destruct (gtb _ _); exact H.
  - unfold run, markAsHydrated. cbv zeta.
    match goal with |- context [if ?c then _ else _] => destruct c end;
      [| exact H].
    apply (timeout_in_step ActivateAnimations 500 w _);
      [intros l E; discriminate E | exact H].
  - apply activateAnimations_in_step. exact H.
  - exact H.
Qed.

Lemma ssr_act_in_step (a : Action) (w : World Callback) (s : State) :
  animations_in_step (w, s) -> animations_in_step (act a (w, s)).
Proof.
  intros H. destruct a as [ | | | | tab].
  - apply (timeout_in_step Retried 1000 w _); [intros l E; discriminate E | exact H].
  - unfold act, toggleAnimations. cbv zeta.
    match goal with |- context [if ?c then _ else _] => destruct c end;
      [| exact H].
    apply (timeout_in_step ActivateAnimations 200 w _);
      [intros l E; discriminate E | exact H].
  - exact H.
  - unfold act, toggleErrorDemo, simulateError, Math_random. cbv zeta.
    destruct (showErrors s); exact H.
  - unfold act, setActiveTab. cbv zeta.
    match goal with |- context [if ?c then _ else _] => destruct c end;
      [| exact H].
    apply (timeout_in_step ActivateAnimations 300 w _);
      [intros l E; discriminate E | exact H].
Qed.

Lemma ssr_step_in_step (e : event Action) (cfg cfg' : Config component) :
  True -> animations_in_step cfg -> step component e cfg = Some cfg' ->
  animations_in_step cfg'.
Proof.
  intros _ Hs Hstep. apply step_inv in Hstep.
  destruct e as [h t | t | a |].
  - destruct Hstep as (tm & Hfind & _ & _ & _ & ->).
    apply List.find_some in Hfind. destruct Hfind as [Hin _].
    destruct cfg as [w s]. destruct Hs as [Hs Ht]. cbv [fst snd] in *.
    apply (ssr_run_in_step (callback tm)
             (set_timers (rearm tm t (timers w)) (set_clock t w)) s).
    + rewrite List.Forall_forall in Ht. exact (Ht tm Hin).
    + split; [exact Hs |]. simpl.
      apply (rearm_Forall captured_in_step); assumption.
  - destruct Hstep as [_ ->]. exact Hs.
  - subst cfg'. destruct cfg as [w s]. apply (ssr_act_in_step a w s Hs).
  - subst cfg'. destruct cfg as [w s]. exact Hs.
Qed.

(** X21. The four animations of the demo stay in step through the whole
    life of the view: at every time the list shown is the one of the
    constructor (the ids, durations and delays never change) with one
    common value of [isActive], all on or all off, and so is every list
    a pending activation has captured. *)
Theorem animations_stay_in_step (e : Env) (t0 : Z) (r : nat -> Q)
    (t1 t2 : Z) (evs : list (event Action)) :
  Forall animations_in_step (lifetime component (boot_world e t0 r) t1 t2 evs).
Proof.
  apply (lifetime_invariant component animations_in_step).
  - split; [exists true; reflexivity | constructor].
  - destruct e; (split; [exists true; reflexivity |]); simpl;
      repeat (apply List.Forall_cons; [intros l E; discriminate E |]);
      apply List.Forall_nil.
  - destruct e; (split; [exists true; reflexivity |]); simpl;
      repeat (apply List.Forall_cons; [intros l E; discriminate E |]);
      apply List.Forall_nil.
  - exact ssr_step_in_step.
Qed.

(** ** The loading bar *)

Lemma timeout_wired (h0 : nat) (cb : Callback) (d : Z) (w : World Callback)
    (s : State) :
  (forall i, cb <> LoadingTick i) ->
  loading_wired h0 (w, s) -> loading_wired h0 (snd (setTimeout cb d w), s).
Proof.
  intros Hcb [Hw Hdone]. split; simpl in *.
  - apply Forall_app. split; [exact Hw |]. constructor; [| constructor].
    intros i E. exfalso. exact (Hcb i E).
  - intros Hl. destruct (Hdone Hl) as [Hp Hn]. split; [exact Hp |].
    apply Forall_app. split; [exact Hn |]. constructor; [exact Hcb | constructor].
Qed.

Lemma loadingTick_wired (h0 : nat) (w : World Callback) (s : State) :
  isLoading s = true ->
  loading_wired h0 (w, s) -> loading_wired h0 (loadingTick h0 (w, s)).
Proof.
  intros Hl [Hw _].
  assert (Hgone : Forall (fun tm : timer Callback => forall i, callback tm <> LoadingTick i)
                    (List.filter (fun tm => negb (has_handle h0 tm)) (timers w))).
  { apply List.Forall_forall. intros tm Hin i E.
    apply filter_In in Hin. destruct Hin as [Hin Hh].
    rewrite List.Forall_forall in Hw. destruct (Hw tm Hin i E) as [_ Hh0].
    apply negb_true_iff, has_handle_false in Hh. contradiction. }
  unfold loading_wired.
  tick_cases; simpl; split;
    first [ exact Hw
          | apply filter_Forall; exact Hw
          | intros _; split; [reflexivity | exact Hgone]
          | intros E; rewrite Hl in E; discriminate E ].
Qed.

Lemma activateAnimations_wired (h0 : nat) (w : World Callback) (s : State) :
  loading_wired h0 (w, s) -> loading_wired h0 (activateAnimations (w, s)).
Proof.
  intros H. unfold activateAnimations. cbv zeta.
  apply (timeout_wired h0 (AnimationsOn (animationStates s)) 100 w
           (set_animationStates (List.map (setActive false) (animationStates s)) s));
    [intros i E; discriminate E | exact H].
Qed.

Lemma ssr_run_wired (h0 : nat) (cb : Callback) (w : World Callback) (s : State) :
  tick_of h0 s cb ->
  loading_wired h0 (w, s) -> loading_wired h0 (run cb (w, s)).
Proof.
  intros Hcb H. destruct cb as [i | st | st | l | | | |].
  - destruct (Hcb i eq_refl) as [-> Hl]. apply loadingTick_wired; assumption.
  - unfold run.
    pose proof (activateAnimations_wired h0 w
                  (set_serverRenderTime (Date_now w - st) s) H) as H1.
    destruct (activateAnimations _) as [w1 s1].
    destruct (isBrowser s1); [| exact H1].
    apply (timeout_wired h0 (ClientHydrated (Date_now w1)) 500 w1 s1);
      [intros i E; discriminate E | exact H1].
  - exact H.
  - exact H.
  - unfold run, simulateError, Math_random. cbv zeta. destruct (gtb _ _); exact H.
  - unfold run, markAsHydrated. cbv zeta.
    match goal with |- context [if ?c then _ else _] => destruct c end;
      [| exact H].
    apply (timeout_wired h0 ActivateAnimations 500 w _);
      [intros i E; discriminate E | exact H].
  - apply activateAnimations_wired. exact H.
  - exact H.
Qed.

Lemma ssr_act_wired (h0 : nat) (a : Action) (w : World Callback) (s : State) :
  loading_wired h0 (w, s) -> loading_wired h0 (act a (w, s)).
Proof.
  intros H. destruct a as [ | | | | tab].
  - apply (timeout_wired h0 Retried 1000 w _); [intros i E; discriminate E | exact H].
  - unfold act, toggleAnimations. cbv zeta.
    match goal with |- context [if ?c then _ else _] => destruct c end;
      [| exact H].
    apply (timeout_wired h0 ActivateAnimations 200 w _);
      [intros i E; discriminate E | exact H].
  - exact H.
  - unfold act, toggleErrorDemo, simulateError, Math_random. cbv zeta.
    destruct (showErrors s); exact H.
  - unfold act, setActiveTab. cbv zeta.
    match goal with |- context [if ?c then _ else _] => destruct c end;
      [| exact H].
    apply (timeout_wired h0 ActivateAnimations 300 w _);
      [intros i E; discriminate E | exact H].
Qed.

Lemma ssr_step_wired (h0 : nat) (e : event Action) (cfg cfg' : Config component) :
  True -> loading_wired h0 cfg -> step component e cfg = Some cfg' ->
  loading_wired h0 cfg'.
Proof.
  intros _ Hs Hstep. apply step_inv in Hstep.
  destruct e as [h t | t | a |].
  - destruct Hstep as (tm & Hfind & _ & _ & _ & ->).
    apply List.find_some in Hfind. destruct Hfind as [Hin _].
    destruct cfg as [w s]. destruct Hs as [Hw Hdone]. cbv [fst snd] in *.
    apply (ssr_run_wired h0 (callback tm)
             (set_timers (rearm tm t (timers w)) (set_clock t w)) s).
    + intros i E. rewrite List.Forall_forall in Hw.
      destruct (Hw tm Hin i E) as [Hi _]. split; [exact Hi |].
      destruct (isLoading s) eqn:Hl; [reflexivity |].
      destruct (Hdone eq_refl) as [_ Hn].
      rewrite List.Forall_forall in Hn. exfalso. exact (Hn tm Hin i E).
    + split; simpl.
      * apply (rearm_Forall_handle component
                 (fun hh cb => forall i, cb = LoadingTick i -> i = h0 /\ hh = h0));
          assumption.
      * intros Hl. destruct (Hdone Hl) as [Hp Hn]. split; [exact Hp |].
        apply (rearm_Forall (fun cb => forall i, cb <> LoadingTick i));
          assumption.
  - destruct Hstep as [_ ->]. exact Hs.
  - subst cfg'. destruct cfg as [w s]. apply (ssr_act_wired h0 a w s Hs).
  - subst cfg'. destruct cfg as [w s]. exact Hs.
Qed.

(** X22. When the loading flag of the demo is off, the bar is full and
    the closure of [simulateLoading] is gone: at every time of the
    life of the view, on the server and in the browser, [isLoading]
    false means that [loadingProgress] is 100 and that no timer runs
    the loading closure any more. *)
Theorem loading_over_means_full (e : Env) (t0 : Z) (r : nat -> Q)
    (t1 t2 : Z) (evs : list (event Action)) :
  Forall (fun cfg =>
            isLoading (snd cfg) = false ->
            loadingProgress (snd cfg) = 100%Q /\
            Forall (fun tm => forall i, callback tm <> LoadingTick i)
              (timers (fst cfg)))
    (lifetime component (boot_world e t0 r) t1 t2 evs).
Proof.
  assert (H : Forall (loading_wired 1)
                (lifetime component (boot_world e t0 r) t1 t2 evs)).
  { apply (lifetime_invariant component (loading_wired 1)).
    - split; [constructor | intros E; discriminate E].
    - destruct e; split; simpl;
        first [ intros E; discriminate E
              | intros _; split; [reflexivity |] | idtac ];
        repeat (apply List.Forall_cons;
                [intros i E; first [discriminate E
                                   | injection E as <-; split; reflexivity] |]);
        apply List.Forall_nil.
    - destruct e; split; simpl;
        first [ intros E; discriminate E
              | intros _; split; [reflexivity |] | idtac ];
        repeat (apply List.Forall_cons;
                [intros i E; first [discriminate E
                                   | injection E as <-; split; reflexivity] |]);
        apply List.Forall_nil.
    - exact (ssr_step_wired 1). }
  revert H. apply List.Forall_impl. intros cfg [_ Hdone]. exact Hdone.
Qed.

(** In the browser, with [Math.random()] at 0.9, the eighth run of the
    loading closure fills the bar. *)
Example loading_ends_in_browser :
  option_map (fun cfg : Config component =>
                (isLoading (snd cfg), loadingProgress (snd cfg),
                 loadingMessage (snd cfg), length (timers (fst cfg))))
    (exec component
       [Fire 1 100; Fire 1 200; Fire 1 300; Fire 1 400;
        Fire 1 500; Fire 1 600; Fire 1 700; Fire 1 800]
       (attached component (boot_world Browser 0 (fun _ => 9 # 10)) 0 0))
  = Some (false, 100%Q, "Finalizing SSR demo...", 3%nat).
Proof. vm_compute. reflexivity. Qed.

(** ** The measured times *)

Lemma rearm_Forall_timer (P : nat -> option Z -> Callback -> Prop)
    (tm : timer Callback) (t : Z) (ts : list (timer Callback)) :
  In tm ts ->
  Forall (fun x => P (handle x) (period x) (callback x)) ts ->
  Forall (fun x => P (handle x) (period x) (callback x)) (rearm tm t ts).
Proof.
  intros Hin Hall.
  assert (Htm : P (handle tm) (period tm) (callback tm)).
  { rewrite List.Forall_forall in Hall. exact (Hall tm Hin). }
  unfold rearm. destruct (period tm) as [p|].
  - clear Hin. induction Hall as [|y r Hy _ IH]; simpl; [constructor |].
    constructor; [| exact IH].
    destruct (has_handle (handle tm) y); [exact Htm | exact Hy].
  - apply filter_Forall. exact Hall.
Qed.

Lemma timeout_in_order (h1 : nat) (cb : Callback) (d : Z) (w : World Callback)
    (s : State) :
  (forall st, cb <> ServerRendered st) ->
  (forall st, cb <> ClientHydrated st) ->
  timings_in_order h1 (w, s) -> timings_in_order h1 (snd (setTimeout cb d w), s).
Proof.
  intros Hsr Hch [Hw Hph]. split; simpl in *.
  - apply Forall_app. split; [exact Hw |]. constructor; [| constructor].
    intros st E. exfalso. exact (Hsr st E).
  - destruct Hph as [(Hc & Ht & Hn) | (Hm & Ha)]; [left | right].
    + repeat split; try assumption. unfold no_hydration_pending. simpl.
      apply Forall_app. split; [exact Hn |]. constructor; [exact Hch | constructor].
    + split; [| exact Ha]. unfold render_measured. simpl.
      apply Forall_app. split; [exact Hm |]. constructor; [exact Hsr | constructor].
Qed.

Lemma activateAnimations_in_order (h1 : nat) (w : World Callback) (s : State) :
  timings_in_order h1 (w, s) -> timings_in_order h1 (activateAnimations (w, s)).
Proof.
  intros H. unfold activateAnimations. cbv zeta.
  apply (timeout_in_order h1 (AnimationsOn (animationStates s)) 100 w
           (set_animationStates (List.map (setActive false) (animationStates s)) s));
    [intros i E; discriminate E | intros i E; discriminate E | exact H].
Qed.

Lemma loadingTick_in_order (h1 i : nat) (w : World Callback) (s : State) :
  timings_in_order h1 (w, s) -> timings_in_order h1 (loadingTick i (w, s)).
Proof.
  intros [Hw Hph]. unfold timings_in_order, no_hydration_pending, render_measured.
  tick_cases; simpl;
    (split;
     [ first [exact Hw | apply filter_Forall; exact Hw]
     | destruct Hph as [(Hc & Ht & Hn) | (Hm & Ha)]; [left | right];
       repeat split;
       first [assumption | apply filter_Forall; assumption] ]).
Qed.

Lemma ssr_run_in_order (h1 : nat) (cb : Callback) (w : World Callback) (s : State) :
  (forall st, cb = ServerRendered st ->
              render_measured w /\ clientHydrationTime s = 0 /\ totalLoadTime s = 0) ->
  (forall st, cb = ClientHydrated st -> render_measured w) ->
  timings_in_order h1 (w, s) -> timings_in_order h1 (run cb (w, s)).
Proof.
  intros Hsr Hch H. destruct cb as [i | st | st | l | | | |].
  - apply loadingTick_in_order. exact H.
  - destruct (Hsr st eq_refl) as (Hm & Hc & Ht). destruct H as [Hw _].
    unfold run, activateAnimations, simulateClientHydration. cbv zeta.
    assert (Hno : forall w0 : World Callback, render_measured w ->
              timers w0 = timers w ++
                [Timer (next_handle w) (clock w + 100) None
                   (AnimationsOn (animationStates s))] ->
              render_measured w0).
    { intros w0 H0 E. unfold render_measured. rewrite E.
      apply Forall_app. split; [exact H0 |].
      constructor; [intros i E'; discriminate E' | constructor]. }
    simpl. destruct (isBrowser s); simpl.
    + split.
      * apply Forall_app. split.
        -- apply Forall_app. split; [exact Hw |].
           constructor; [intros i E; discriminate E | constructor].
        -- constructor; [intros i E; discriminate E | constructor].
      * right. split.
        -- unfold render_measured. simpl. apply Forall_app. split.
           ++ apply Forall_app. split; [exact Hm |].
              constructor; [intros i E; discriminate E | constructor].
           ++ constructor; [intros i E; discriminate E | constructor].
        -- left. simpl. split; assumption.
    + split.
      * apply Forall_app. split; [exact Hw |].
        constructor; [intros i E; discriminate E | constructor].
      * right. split.
        -- unfold render_measured. simpl. apply Forall_app. split; [exact Hm |].
           constructor; [intros i E; discriminate E | constructor].
        -- left. simpl. split; assumption.
  - pose proof (Hch st eq_refl) as Hm. destruct H as [Hw _].
    split; [exact Hw |]. right. split; [exact Hm |]. right. reflexivity.
  - exact H.
  - unfold run, simulateError, Math_random. cbv zeta. destruct (gtb _ _); exact H.
  - unfold run, markAsHydrated. cbv zeta.
    match goal with |- context [if ?c then _ else _] => destruct c end;
      [| exact H].
    apply (timeout_in_order h1 ActivateAnimations 500 w _);
      [intros i E; discriminate E | intros i E; discriminate E | exact H].
  - apply activateAnimations_in_order. exact H.
  - exact H.
Qed.

Lemma ssr_act_in_order (h1 : nat) (a : Action) (w : World Callback) (s : State) :
  timings_in_order h1 (w, s) -> timings_in_order h1 (act a (w, s)).
Proof.
  intros H. destruct a as [ | | | | tab].
  - apply (timeout_in_order h1 Retried 1000 w _);
      [intros i E; discriminate E | intros i E; discriminate E | exact H].
  - unfold act, toggleAnimations. cbv zeta.
    match goal with |- context [if ?c then _ else _] => destruct c end;
      [| exact H].
    apply (timeout_in_order h1 ActivateAnimations 200 w _);
      [intros i E; discriminate E | intros i E; discriminate E | exact H].
  - exact H.
  - unfold act, toggleErrorDemo, simulateError, Math_random. cbv zeta.
    destruct (showErrors s); exact H.
  - unfold act, setActiveTab. cbv zeta.
    match goal with |- context [if ?c then _ else _] => destruct c end;
      [| exact H].
    apply (timeout_in_order h1 ActivateAnimations 300 w _);
      [intros i E; discriminate E | intros i E; discriminate E | exact H].
Qed.

Lemma ssr_step_in_order (h1 : nat) (e : event Action) (cfg cfg' : Config component) :
  True -> timings_in_order h1 cfg -> step component e cfg = Some cfg' ->
  timings_in_order h1 cfg'.
Proof.
  intros _ Hs Hstep. apply step_inv in Hstep.
  destruct e as [h t | t | a |].
  - destruct Hstep as (tm & Hfind & _ & _ & _ & ->).
    apply List.find_some in Hfind. destruct Hfind as [Hin _].
    destruct cfg as [w s]. destruct Hs as [Hw Hph]. cbv [fst snd] in *.
    assert (Hw' : Forall (fun x : timer Callback =>
                            forall st, callback x = ServerRendered st ->
                                       handle x = h1 /\ period x = None)
                    (rearm tm t (timers w))).
    { apply (rearm_Forall_timer
               (fun hh pp cb => forall st, cb = ServerRendered st ->
                                           hh = h1 /\ pp = None));
        assumption. }
    apply (ssr_run_in_order h1 (callback tm)
             (set_timers (rearm tm t (timers w)) (set_clock t w)) s).
    + intros st E.
      rewrite List.Forall_forall in Hw. destruct (Hw tm Hin st E) as [Hh Hp].
      destruct Hph as [(Hc & Ht & Hn) | (Hm & _)].
      * repeat split; try assumption.
        unfold render_measured. simpl. unfold rearm. rewrite Hp.
        apply List.Forall_forall. intros x Hx st' Ex.
        apply filter_In in Hx. destruct Hx as [Hx Hne].
        destruct (Hw x Hx st' Ex) as [Hhx _].
        apply negb_true_iff, has_handle_false in Hne. congruence.
      * exfalso. unfold render_measured in Hm.
        rewrite List.Forall_forall in Hm. exact (Hm tm Hin st E).
    + intros st E. destruct Hph as [(_ & _ & Hn) | (Hm & _)].
      * exfalso. unfold no_hydration_pending in Hn.
        rewrite List.Forall_forall in Hn. exact (Hn tm Hin st E).
      * unfold render_measured. simpl.
        apply (rearm_Forall (fun cb => forall st, cb <> ServerRendered st));
          assumption.
    + split; [exact Hw' |]. simpl.
      destruct Hph as [(Hc & Ht & Hn) | (Hm & Ha)]; [left | right].
      * repeat split; try assumption. unfold no_hydration_pending. simpl.
        apply (rearm_Forall (fun cb => forall st, cb <> ClientHydrated st));
          assumption.
      * split; [| exact Ha]. unfold render_measured. simpl.
        apply (rearm_Forall (fun cb => forall st, cb <> ServerRendered st));
          assumption.
  - destruct Hstep as [_ ->]. exact Hs.
  - subst cfg'. destruct cfg as [w s]. apply (ssr_act_in_order h1 a w s Hs).
  - subst cfg'. destruct cfg as [w s]. exact Hs.
Qed.

(** X23. The total load time of the demo adds up through the whole life
    of the view: either the hydration time and the total are both still
    0, or the total is the sum of the server render time and the client
    hydration time shown beside it. *)
Theorem total_load_time_adds_up (e : Env) (t0 : Z) (r : nat -> Q)
    (t1 t2 : Z) (evs : list (event Action)) :
  Forall (fun cfg => adds_up (snd cfg))
    (lifetime component (boot_world e t0 r) t1 t2 evs).
Proof.
  set (h1 := match e with Browser => 2%nat | Server => 1%nat end).
  assert (H : Forall (timings_in_order h1)
                (lifetime component (boot_world e t0 r) t1 t2 evs)).
  { apply (lifetime_invariant component (timings_in_order h1)).
    - split; [constructor | left; repeat split; constructor].
    - subst h1. destruct e; (split; [| left; repeat split]); simpl;
        repeat (apply List.Forall_cons;
                [intros i E; first [discriminate E | split; reflexivity] |]);
        apply List.Forall_nil.
    - subst h1. destruct e; (split; [| left; repeat split]); simpl;
        repeat (apply List.Forall_cons;
                [intros i E; first [discriminate E | split; reflexivity] |]);
        apply List.Forall_nil.
    - exact (ssr_step_in_order h1). }
  revert H. apply List.Forall_impl. intros cfg [_ [(Hc & Ht & _) | (_ & Ha)]].
  - left. split; assumption.
  - exact Ha.
Qed.

(** In the browser the two times are measured one after the other. *)
Example total_load_time_in_browser :
  option_map (fun cfg : Config component =>
                (serverRenderTime (snd cfg), clientHydrationTime (snd cfg),
                 totalLoadTime (snd cfg)))
    (exec component [Fire 2 310; Fire 6 830]
       (attached component (boot_world Browser 0 (fun _ => 1 # 2)) 0 0))
  = Some (310, 520, 830).
Proof. vm_compute. reflexivity. Qed.

End SsrDemoExtras.

(* ===================================================================== *)
(** * Rendering on the server *)
(* ===================================================================== *)

Section ServerSide.
Import EventLoop.

Lemma no_timer_step (c : Component)
    (Hact : forall a cfg, timers (fst (act c a cfg)) = timers (fst cfg))
    (Hdestroy : forall cfg, timers (fst cfg) = [] ->
                            timers (fst (EventLoop.ngOnDestroy c cfg)) = [])
    (e : event (Action c)) (cfg cfg' : Config c) :
  True -> timers (fst cfg) = [] -> step c e cfg = Some cfg' ->
  timers (fst cfg') = [].
Proof.
  intros _ Hs Hstep. apply step_inv in Hstep.
  destruct e as [h t | t | a |].
  - destruct Hstep as (tm & Hfind & _).
    unfold find_timer in Hfind. rewrite Hs in Hfind. discriminate Hfind.
  - destruct Hstep as [_ ->]. exact Hs.
  - subst cfg'. rewrite Hact. exact Hs.
  - subst cfg'. apply Hdestroy. exact Hs.
Qed.

(** X27. Rendering on the server starts no timer in the home view and
    in the products view, whatever happens to them later, and none in
    the reports view up to its first rendering; the demo view is the
    exception: its [simulateServerRendering] is not guarded, and leaves
    one timeout, the measurement of the render time, on the server. *)
Theorem server_side_timers (t0 : Z) (r : nat -> Q) (t1 t2 : Z) :
  (forall evs,
     Forall (fun cfg => timers (fst cfg) = [])
       (lifetime Home.component (boot_world Server t0 r) t1 t2 evs)) /\
  (forall evs,
     Forall (fun cfg => timers (fst cfg) = [])
       (lifetime Products.component (boot_world Server t0 r) t1 t2 evs)) /\
  timers (fst (attached Reports.component (boot_world Server t0 r) t1 t2)) = [] /\
  List.map callback
    (timers (fst (attached SsrDemo.component (boot_world Server t0 r) t1 t2)))
  = [SsrDemo.ServerRendered t1].
Proof.
  split; [| split; [| split; reflexivity]].
  - intros evs.
    apply (lifetime_invariant Home.component
             (fun cfg : Config Home.component => timers (fst cfg) = []));
      try reflexivity.
    apply (no_timer_step Home.component).
    + intros a. destruct a.
    + intros cfg H. exact H.
  - intros evs.
    apply (lifetime_invariant Products.component
             (fun cfg : Config Products.component => timers (fst cfg) = []));
      try reflexivity.
    apply (no_timer_step Products.component).
    + intros a [w s]. destruct a; reflexivity.
    + intros [w s] H. simpl in *.
      destruct (Products.intervalId s) as [x|],
               (Products.liveDataIntervalId s) as [y|]; simpl;
        repeat match goal with
               | |- context [if ?c then _ else _] => destruct c; simpl
               end;
        rewrite ?H; reflexivity.
Qed.

End ServerSide.
